(** * ETS2LA: plugin workers, web API, map data extraction, cruise control

    A shallow embedding of the parts of the ETS2LA sources that the
    specification talks about, followed by the properties proved of them.

    - [Plugin]: [ETS2LA/Plugin/plugin.py], the plugin base class: its
      constructor, the helper threads, the dialog calls and the frame loop.
    - [Webserver]: [ETS2LA/networking/webserver.py], the route table.
    - [DataExtractor]: [plugins/Map/utils/data_extractor.py], over a tree
      of files and directories addressed by the components of their
      paths.
    - [CruiseControl]: [plugins/CruiseControl/main.py], the per-frame
      function.
    - [DataDirectory]: the same extractor seen through the data directory
      alone, as a flat table of the files extracted into it.
    - [ExtractorFacts], [PluginLife], [WebserverFacts], [CruiseFacts],
      [CruiseFrame]: further properties of the same sources, with the
      parts of them that the modules above leave out.
    - [Helpers]: [src/helpers.py], the placement of widgets, the
      conversion of names, the accurate sleep and the PID controller.

    Python floats are idealised as exact rationals ([Q]), except where a
    definition says that an operation is rounded and takes it as a
    parameter.  Library classes (queues, the file system) are modelled by
    what the sources use of them; the functions of modules that are not
    among these sources (the backend, the settings store, the image
    operations) and the code of a plugin subclass are parameters. *)

From Stdlib Require Import QArith Qround Qabs ZArith Lia Lqa Ascii.
From stdpp Require Import gmap strings list.

Local Open Scope string_scope.
#[local] Set Warnings "-register-all".


(** ** Python values and the operations the sources apply to them *)

Module Py.

(** The values that travel in queue messages and in the frame dictionary.
    A dictionary keeps its entries in insertion order, with distinct keys. *)
Inductive Value :=
| PNone
| PBool (b : bool)
| PNum (q : Q)
| PStr (s : string)
| PList (l : list Value)
| PTuple (l : list Value)
| PDict (d : list (string * Value)).

(** The exceptions the sources meet.  [OSError kind] stands for the
    subclasses of [OSError] other than [FileNotFoundError].  [SystemExit]
    and [KeyboardInterrupt] derive from [BaseException] only; every other
    one is an [Exception]. *)
Inductive Exn :=
| KeyError (key : string)
| TypeError
| AttributeError
| ValueError
| ZeroDivisionError
| FileNotFoundError
| BadZipFile
| OSError (kind : string)
| Exception (msg : string)
| SystemExit
| KeyboardInterrupt.

(** [isinstance(e, Exception)] *)
Definition is_exception (e : Exn) : bool :=
  match e with
  | SystemExit | KeyboardInterrupt => false
  | _ => true
  end.

(** The result of an expression that may raise. *)
Inductive Res (A : Type) :=
| Ok (a : A)
| Raise (e : Exn).
Arguments Ok {A} a.
Arguments Raise {A} e.

Definition res_bind {A B} (r : Res A) (f : A → Res B) : Res B :=
  match r with
  | Ok a => f a
  | Raise e => Raise e
  end.

Definition Qlt_bool (x y : Q) : bool := negb (Qle_bool y x).

Definition of_bool (b : bool) : Q := if b then 1%Q else 0%Q.

(** [int], [float] and [bool] take part in arithmetic and ordering; every
    other operand makes them raise [TypeError]. *)
Definition as_num (v : Value) : Res Q :=
  match v with
  | PBool b => Ok (of_bool b)
  | PNum q => Ok q
  | _ => Raise TypeError
  end.

(** [d[k]] on the entries of a dictionary. *)
Fixpoint dict_get (k : string) (d : list (string * Value)) : option Value :=
  match d with
  | [] => None
  | (k', v) :: d' => if String.eqb k k' then Some v else dict_get k d'
  end.

(** [d[k] = v] on the entries of a dictionary: an existing key keeps its
    place, a new one goes last. *)
Fixpoint dict_set (k : string) (v : Value) (d : list (string * Value)) :
  list (string * Value) :=
  match d with
  | [] => [(k, v)]
  | (k', v') :: d' =>
      if String.eqb k k' then (k', v) :: d' else (k', v') :: dict_set k v d'
  end.

(** [v[k]] for a string key. *)
Definition getitem (v : Value) (k : string) : Res Value :=
  match v with
  | PDict d =>
      match dict_get k d with
      | Some x => Ok x
      | None => Raise (KeyError k)
      end
  | _ => Raise TypeError
  end.

(** [v[k] = x] for a string key; the value is the container afterwards. *)
Definition setitem (v : Value) (k : string) (x : Value) : Res Value :=
  match v with
  | PDict d => Ok (PDict (dict_set k x d))
  | _ => Raise TypeError
  end.

Definition list_eqb {A} (f : A → A → bool) : list A → list A → bool :=
  fix go l m :=
    match l, m with
    | [], [] => true
    | x :: l', y :: m' => f x y && go l' m'
    | _, _ => false
    end.

(** [a == b].  Numbers and booleans compare by value, sequences element by
    element, dictionaries entry by entry whatever the order. *)
Fixpoint eqb (a b : Value) {struct a} : bool :=
  match a, b with
  | PNone, PNone => true
  | PBool x, PBool y => Bool.eqb x y
  | PBool x, PNum q => Qeq_bool (of_bool x) q
  | PNum q, PBool x => Qeq_bool q (of_bool x)
  | PNum p, PNum q => Qeq_bool p q
  | PStr s, PStr t => String.eqb s t
  | PList l, PList m => list_eqb eqb l m
  | PTuple l, PTuple m => list_eqb eqb l m
  | PDict d, PDict e =>
      Nat.eqb (length d) (length e) &&
      forallb (λ kv, let (k, v) := kv : string * Value in
                     match dict_get k e with
                     | Some v' => eqb v v'
                     | None => false
                     end) d
  | _, _ => false
  end.

Definition neqb (a b : Value) : bool := negb (eqb a b).

(** [v is None] *)
Definition is_none (v : Value) : bool :=
  match v with
  | PNone => true
  | _ => false
  end.

(** [bool(v)] *)
Definition truthy (v : Value) : bool :=
  match v with
  | PNone => false
  | PBool b => b
  | PNum q => negb (Qeq_bool q 0)
  | PStr s => negb (String.eqb s "")
  | PList l | PTuple l => negb (Nat.eqb (length l) 0)
  | PDict d => negb (Nat.eqb (length d) 0)
  end.

(** [*v] in a call: the elements of an iterable. *)
Definition star (v : Value) : Res (list Value) :=
  match v with
  | PList l | PTuple l => Ok l
  | PStr s => Ok (map (λ c, PStr (String c EmptyString)) (String.list_ascii_of_string s))
  | PDict d => Ok (map (λ kv, PStr (fst kv)) d)
  | _ => Raise TypeError
  end.

(** [**v] in a call: the entries of a mapping. *)
Definition starstar (v : Value) : Res (list (string * Value)) :=
  match v with
  | PDict d => Ok d
  | _ => Raise TypeError
  end.

(** [round(q, 1)]: to the nearest tenth, ties to the even tenth. *)
Definition round1 (q : Q) : Q :=
  let t := (q * 10)%Q in
  let f := Qfloor t in
  let r := (t - inject_Z f)%Q in
  let n := if Qlt_bool r (1 # 2) then f
           else if Qlt_bool (1 # 2) r then (f + 1)%Z
           else if Z.even f then f else (f + 1)%Z in
  (n # 10)%Q.

(** [max(a, b)] *)
Definition max (a b : Q) : Q := if Qlt_bool a b then b else a.

Lemma dict_get_set_eq k v d : dict_get k (dict_set k v d) = Some v.
Proof.
  induction d as [|[k' v'] d IH]; simpl.
  - by rewrite String.eqb_refl.
  - destruct (String.eqb k k') eqn:E; simpl; rewrite E; [done|apply IH].
Qed.

Lemma dict_get_set_ne k k' v d :
  k ≠ k' → dict_get k' (dict_set k v d) = dict_get k' d.
Proof.
  intros Hne. induction d as [|[k0 v0] d IH]; simpl.
  - apply not_eq_sym, String.eqb_neq in Hne. by rewrite Hne.
  - destruct (String.eqb k k0) eqn:E; simpl.
    + apply String.eqb_eq in E as <-.
      apply not_eq_sym, String.eqb_neq in Hne. by rewrite Hne.
    + by rewrite IH.
Qed.

Lemma Qlt_bool_iff (x y : Q) : Qlt_bool x y = true ↔ (x < y)%Q.
Proof.
  unfold Qlt_bool. rewrite negb_true_iff, <- not_true_iff_false, Qle_bool_iff.
  split; [apply Qnot_le_lt | apply Qlt_not_le].
Qed.

End Py.

(** ** The plugin base class *)

Module Plugin.

Import Py.

Section Wiring.

(** Queue handles: what the supervisor passes to a worker. *)
Context {Queue : Type}.

(** The arguments of [ETS2LAPlugin.__new__], in the order of its signature. *)
Record CtorArgs := {
  a_path : string;
  a_return_queue : Queue;
  a_plugins_queue : Queue;
  a_plugins_return_queue : Queue;
  a_tags_queue : Queue;
  a_tags_return_queue : Queue;
  a_settings_menu_queue : Queue;
  a_settings_menu_return_queue : Queue;
  a_frontend_queue : Queue;
  a_frontend_return_queue : Queue;
  a_immediate_queue : Queue;
  a_immediate_return_queue : Queue;
  a_state_queue : Queue;
  a_performance_queue : Queue;
  a_performance_return_queue : Queue
}.

(** [Plugins(plugins_queue, plugins_return_queue)], [Global(tags_queue,
    tags_return_queue)] and [State(state_queue)]: the classes live in
    [ETS2LA.Plugin.attributes]; only what the constructor hands them is
    recorded. *)
Record Plugins := { plugins_q : Queue; plugins_return_q : Queue }.
Record Global := { tags_q : Queue; tags_return_q : Queue }.
Record State := { state_q : Queue }.

(** The instance [__new__] returns: the queue attributes it sets, by
    attribute name, and the three helper objects. *)
Record Instance := {
  path : string;
  queue_attrs : gmap string Queue;
  plugins : Plugins;
  globals : Global;
  state : State
}.

(** [instance.<name> = q] *)
Definition setattr (name : string) (q : Queue) (d : gmap string Queue) :
  gmap string Queue := <[name := q]> d.

Definition __new__ (a : CtorArgs) : Instance :=
  let d := ∅ in
  let d := setattr "return_queue" (a_return_queue a) d in
  let d := setattr "plugins_queue" (a_plugins_queue a) d in
  let d := setattr "plugins_return_queue" (a_plugins_return_queue a) d in
  let d := setattr "settings_menu_queue" (a_settings_menu_queue a) d in
  let d := setattr "settings_menu_return_queue" (a_settings_menu_return_queue a) d in
  let d := setattr "frontend_queue" (a_frontend_queue a) d in
  let d := setattr "frontend_return_queue" (a_frontend_return_queue a) d in
  let d := setattr "immediate_queue" (a_immediate_queue a) d in
  let d := setattr "immediate_return_queue" (a_immediate_return_queue a) d in
  let d := setattr "state_queue" (a_state_queue a) d in
  let d := setattr "performance_queue" (a_performance_queue a) d in
  let d := setattr "performance_return_queue" (a_performance_return_queue a) d in
  {| path := a_path a;
     queue_attrs := d;
     plugins := {| plugins_q := a_plugins_queue a;
                   plugins_return_q := a_plugins_return_queue a |};
     globals := {| tags_q := a_tags_queue a;
                   tags_return_q := a_tags_return_queue a |};
     state := {| state_q := a_state_queue a |} |}.

(** A concern, named by the prefix of its attributes, has a pair of queues
    on an instance when both [<prefix>_queue] and [<prefix>_return_queue]
    are set. *)
Definition request_attr (concern : string) : string := concern ++ "_queue".
Definition return_attr (concern : string) : string := concern ++ "_return_queue".

Definition has_pair (i : Instance) (concern : string) : Prop :=
  is_Some (queue_attrs i !! request_attr concern) ∧
  is_Some (queue_attrs i !! return_attr concern).

(** The queue attributes an instance has for a concern. *)
Definition queues_of (i : Instance) (concern : string) : list string :=
  filter (λ n, is_Some (queue_attrs i !! n))
         [request_attr concern; return_attr concern].

(** The six concerns of the specification, by attribute prefix: return
    values, settings menu, frontend calls, immediate dialogs, state,
    performance. *)
Definition concerns : list string :=
  ["return"; "settings_menu"; "frontend"; "immediate"; "state"; "performance"].

End Wiring.

Arguments CtorArgs : clear implicits.
Arguments Instance : clear implicits.

(** *** The worker: queues, state, and the monad its methods run in *)

(** The queue attributes of the class, lines 36-47. *)
Inductive QueueAttr :=
| return_queue
| plugins_queue
| plugins_return_queue
| settings_menu_queue
| settings_menu_return_queue
| frontend_queue
| frontend_return_queue
| immediate_queue
| immediate_return_queue
| state_queue
| performance_queue
| performance_return_queue.

#[global] Instance QueueAttr_eq_dec : EqDecision QueueAttr.
Proof. solve_decision. Defined.

(** A [multiprocessing.JoinableQueue] without a size bound: the items not
    yet taken, oldest first, and the count of tasks put and not yet marked
    done. *)
Record JoinableQueue := {
  items : list Value;
  unfinished_tasks : nat
}.

Definition empty_queue : JoinableQueue :=
  {| items := []; unfinished_tasks := 0 |}.

Section Worker.

(** The attributes a plugin subclass adds to the instance. *)
Context {U : Type}.

(** What one worker process holds.  [clock] is what [time.time()] reads;
    [slept] lists the arguments of the [time.sleep] calls so far and [log]
    the messages handed to [logging]. *)
Record World := {
  queues : QueueAttr → JoinableQueue;
  performance : list (Q * Q);
  start_time : Q;
  end_time : Q;
  clock : Q;
  slept : list Q;
  log : list string;
  attrs : U
}.

Definition set_queue (a : QueueAttr) (q : JoinableQueue) (w : World) : World :=
  {| queues := λ b, if decide (b = a) then q else queues w b;
     performance := performance w; start_time := start_time w;
     end_time := end_time w; clock := clock w; slept := slept w;
     log := log w; attrs := attrs w |}.

Definition set_performance (p : list (Q * Q)) (w : World) : World :=
  {| queues := queues w; performance := p; start_time := start_time w;
     end_time := end_time w; clock := clock w; slept := slept w;
     log := log w; attrs := attrs w |}.

Definition set_start_time (t : Q) (w : World) : World :=
  {| queues := queues w; performance := performance w; start_time := t;
     end_time := end_time w; clock := clock w; slept := slept w;
     log := log w; attrs := attrs w |}.

Definition set_end_time (t : Q) (w : World) : World :=
  {| queues := queues w; performance := performance w;
     start_time := start_time w; end_time := t; clock := clock w;
     slept := slept w; log := log w; attrs := attrs w |}.

Definition advance_clock (d : Q) (w : World) : World :=
  {| queues := queues w; performance := performance w;
     start_time := start_time w; end_time := end_time w;
     clock := (clock w + d)%Q; slept := slept w ++ [d];
     log := log w; attrs := attrs w |}.

Definition add_log (msg : string) (w : World) : World :=
  {| queues := queues w; performance := performance w;
     start_time := start_time w; end_time := end_time w; clock := clock w;
     slept := slept w; log := log w ++ [msg]; attrs := attrs w |}.

(** How a call ends: it returns, it raises, it is parked in a [get()] on an
    empty queue, or it is still inside a [while True] after the iterations
    that were run. *)
Inductive Outcome (A : Type) :=
| Returned (a : A) (w : World)
| Raised (e : Exn) (w : World)
| Blocked (w : World)
| Running (w : World).
Arguments Returned {A} a w.
Arguments Raised {A} e w.
Arguments Blocked {A} w.
Arguments Running {A} w.

Definition M (A : Type) : Type := World → Outcome A.

Definition ret {A} (a : A) : M A := λ w, Returned a w.

Definition bind {A B} (m : M A) (f : A → M B) : M B :=
  λ w, match m w with
       | Returned a w' => f a w'
       | Raised e w' => Raised e w'
       | Blocked w' => Blocked w'
       | Running w' => Running w'
       end.

Definition raise {A} (e : Exn) : M A := λ w, Raised e w.

Definition lift {A} (r : Res A) : M A :=
  match r with
  | Ok a => ret a
  | Raise e => raise e
  end.

(** [try: m  except: handler] *)
Definition try_except {A} (m : M A) (handler : M A) : M A :=
  λ w, match m w with
       | Raised _ w' => handler w'
       | o => o
       end.

Notation "x <- m ;; k" := (bind m (λ x, k))
  (at level 62, m at next level, right associativity).
Notation "m ;;; k" := (bind m (λ _, k))
  (at level 62, right associativity).

(** [while True: body], run for at most [fuel] iterations. *)
Fixpoint forever (fuel : nat) (body : M unit) : M unit :=
  match fuel with
  | O => λ w, Running w
  | S n => body ;;; forever n body
  end.

(** The worker after [q.put(v)], after a [q.get()] that leaves [rest], and
    after a [q.task_done()] that leaves [n] tasks unfinished. *)
Definition w_put (a : QueueAttr) (v : Value) (w : World) : World :=
  let q := queues w a in
  set_queue a {| items := items q ++ [v];
                 unfinished_tasks := S (unfinished_tasks q) |} w.

Definition w_take (a : QueueAttr) (rest : list Value) (w : World) : World :=
  set_queue a {| items := rest;
                 unfinished_tasks := unfinished_tasks (queues w a) |} w.

Definition w_done (a : QueueAttr) (n : nat) (w : World) : World :=
  set_queue a {| items := items (queues w a); unfinished_tasks := n |} w.

(** [q.put(v)] *)
Definition put (a : QueueAttr) (v : Value) : M unit :=
  λ w, Returned tt (w_put a v w).

(** [q.get()], with no timeout: on an empty queue the caller stays parked. *)
Definition get (a : QueueAttr) : M Value :=
  λ w, match items (queues w a) with
       | [] => Blocked w
       | v :: rest => Returned v (w_take a rest w)
       end.

(** [q.task_done()] *)
Definition task_done (a : QueueAttr) : M unit :=
  λ w, match unfinished_tasks (queues w a) with
       | O => Raised ValueError w
       | S n => Returned tt (w_done a n w)
       end.

(** [time.time()] *)
Definition time : M Q := λ w, Returned (clock w) w.

(** [time.sleep(d)] *)
Definition sleep (d : Q) : M unit := λ w, Returned tt (advance_clock d w).

(** What [getattr(self, name)] finds. *)
Inductive Attribute :=
| NoAttr
| Data (v : Value)
| Method (f : list Value → list (string * Value) → M Value).

(** The class attribute [settings_menu]: not defined by the subclass,
    defined as [None], or an object with a [render] method. *)
Inductive SettingsMenu :=
| Undefined
| IsNone
| Menu (render : M Value).

(** A plugin subclass. *)
Record PluginClass := {
  fps_cap : Z;
  settings_menu : SettingsMenu;
  getattr : string → Attribute;
  run : M Value
}.

Variable P : PluginClass.

(** **** Helper threads *)

Definition settings_menu_iteration (render : M Value) : M unit :=
  _ <- get settings_menu_queue ;;
  task_done settings_menu_queue ;;;
  ui <- render ;;
  put settings_menu_return_queue ui.

Definition settings_menu_thread (fuel : nat) : M unit :=
  match settings_menu P with
  | Menu render => forever fuel (settings_menu_iteration render)
  | Undefined | IsNone => ret tt
  end.

(** [getattr(self, data["target"])] called with the unpacked [args] and
    [kwargs]: the attribute is looked up first, then the arguments are
    unpacked, then the call is made. *)
Definition call_target (data : Value) (args : Res (list Value))
    (kwargs : Res (list (string * Value))) : M Value :=
  target <- lift (getitem data "target") ;;
  match target with
  | PStr name =>
      match getattr P name with
      | NoAttr => raise AttributeError
      | Data _ => args <- lift args ;; kwargs <- lift kwargs ;; raise TypeError
      | Method f => args <- lift args ;; kwargs <- lift kwargs ;; f args kwargs
      end
  | _ => raise TypeError
  end.

(** The body of the [try] in [frontend_thread]. *)
Definition dispatch (data : Value) : M unit :=
  operation <- lift (getitem data "operation") ;;
  if eqb operation (PStr "function") then
    args <- lift (getitem data "args") ;;
    kwargs <- lift (getitem data "kwargs") ;;
    if neqb args (PTuple [PList []; PDict []]) then
      if neqb kwargs (PDict []) then
        call_target data (star args) (starstar kwargs) ;;; ret tt
      else
        call_target data (star args) (Ok []) ;;; ret tt
    else if neqb kwargs (PDict []) then
      call_target data (Ok []) (starstar kwargs) ;;; ret tt
    else
      call_target data (Ok []) (Ok []) ;;; ret tt
  else ret tt.

Definition frontend_iteration : M unit :=
  data <- get frontend_queue ;;
  try_except (dispatch data) (ret tt) ;;;
  task_done frontend_queue ;;;
  put frontend_return_queue PNone.


(** [self.performance] as it goes on a queue: a list of pairs. *)
Definition performance_value (p : list (Q * Q)) : Value :=
  PList (map (λ x, PTuple [PNum (fst x); PNum (snd x)]) p).

Definition performance_iteration : M unit :=
  _ <- get performance_queue ;;
  now <- time ;;
  let last_30_seconds := (now - 30)%Q in
  (λ w, Returned tt
     (set_performance
        (filter (λ x, Qlt_bool last_30_seconds (fst x) = true) (performance w)) w)) ;;;
  task_done performance_queue ;;;
  (λ w, put performance_return_queue (performance_value (performance w)) w).

Definition performance_thread (fuel : nat) : M unit :=
  forever fuel performance_iteration.

(** **** Dialogs *)

Definition notify_message (text type : Value) : Value :=
  PDict [("operation", PStr "notify");
         ("options", PDict [("text", text); ("type", type)])].

Definition notify (text type : Value) : M Value :=
  put immediate_queue (notify_message text type) ;;;
  data <- get immediate_return_queue ;;
  task_done immediate_return_queue ;;;
  ret data.

Definition ask_message (text options description : Value) : Value :=
  PDict [("operation", PStr "ask");
         ("options", PDict [("text", text); ("description", description);
                            ("options", options)])].

Definition ask (text options description : Value) : M Value :=
  put immediate_queue (ask_message text options description) ;;;
  reply <- get immediate_return_queue ;;
  lift (getitem reply "response").

Definition dialog_message (options : Value) : Value :=
  PDict [("operation", PStr "dialog"); ("options", options)].

(** [dialog] is given an object; [build] is its [build()] method, called
    while the message is put together, before the [put]. *)
Definition dialog (build : M Value) : M Value :=
  options <- build ;;
  put immediate_queue (dialog_message options) ;;;
  get immediate_return_queue.

(** **** The frame loop *)

Definition before : M unit :=
  now <- time ;;
  λ w, Returned tt (set_start_time now w).

Definition after (data : Value) : M unit :=
  (if is_none data then ret tt else put return_queue data) ;;;
  now <- time ;;
  (λ w, Returned tt (set_end_time now w)) ;;;
  period <- (if Z.eqb (fps_cap P) 0 then raise ZeroDivisionError
             else ret (1 / inject_Z (fps_cap P))%Q) ;;
  time_to_sleep <- (λ w, Returned (Py.max (period - (end_time w - start_time w)) 0)%Q w) ;;
  (if Qlt_bool 0 time_to_sleep then sleep time_to_sleep else ret tt) ;;;
  now <- time ;;
  λ w, Returned tt
         (set_performance
            (performance w ++ [(start_time w, now - start_time w)%Q]) w).

Definition plugin : M unit :=
  before ;;;
  data <- run P ;;
  after data.

(** [while True: self.plugin()] at the end of [__init__]. *)
Definition main_loop (fuel : nat) : M unit :=
  forever fuel plugin.

(** **** Initialisation hooks, lines 191-202 *)

(** [try: m  except Exception as ex: handler]: what is raised and is not
    an [Exception] passes through. *)
Definition try_except_as {A} (m : M A) (handler : Exn → M A) : M A :=
  λ w, match m w with
       | Raised ex w' => if is_exception ex then handler ex w' else Raised ex w'
       | o => o
       end.

(** [logging.exception(msg)] *)
Definition logging_exception (msg : string) : M unit :=
  λ w, Returned tt (add_log msg w).

(** [self.<name>()] *)
Definition call_method (name : string) : M Value :=
  match getattr P name with
  | NoAttr => raise AttributeError
  | Data _ => raise TypeError
  | Method f => f [] []
  end.

Definition run_hook (name : string) : M unit :=
  try_except_as (call_method name ;;; ret tt)
    (λ ex, match ex with
           | AttributeError => ret tt
           | _ => logging_exception ("Error in '" ++ name ++ "' function")
           end).

Definition init_hooks : M unit :=
  run_hook "init" ;;;
  run_hook "initialize" ;;;
  run_hook "Initialize".

End Worker.

Arguments World : clear implicits.
Arguments M : clear implicits.
Arguments PluginClass : clear implicits.
Arguments Returned {U A} a w.
Arguments Raised {U A} e w.
Arguments Blocked {U A} w.
Arguments Running {U A} w.

Definition pending {U} (a : QueueAttr) (w : World U) : list Value :=
  items (queues w a).

Definition unfinished {U} (a : QueueAttr) (w : World U) : nat :=
  unfinished_tasks (queues w a).

(** The world an outcome ends in. *)
Definition world_of {U A} (o : Outcome A) : World U :=
  match o with
  | Returned _ w | Raised _ w | Blocked w | Running w => w
  end.

(** A call that has not ended: it is parked in a [get()], or still inside
    its [while True]. *)
Definition alive {U A} (o : Outcome (U := U) A) : Prop :=
  match o with
  | Blocked _ | Running _ => True
  | Returned _ _ | Raised _ _ => False
  end.

(** What a [JoinableQueue] keeps true of itself while every [task_done()]
    follows a [get()]: the items waiting are among the unfinished tasks. *)
Definition counted {U} (a : QueueAttr) (w : World U) : Prop :=
  (length (pending a w) ≤ unfinished a w)%nat.

(** Code that leaves queue [a] as it found it, however it ends. *)
Definition leaves_queue {U A} (a : QueueAttr) (m : M U A) : Prop :=
  ∀ w, queues (world_of (m w)) a = queues w a.

(** Code that does not raise. *)
Definition never_raises {U A} (m : M U A) : Prop :=
  ∀ w e w', m w ≠ Raised e w'.

(** The samples of [p] younger than 30 s at time [now]. *)
Definition recent (now : Q) (p : list (Q * Q)) : list (Q * Q) :=
  filter (λ x, Qlt_bool (now - 30) (fst x) = true) p.

(** A reply of the performance thread all of whose samples are younger than
    30 s at time [now]. *)
Definition recent_reply (now : Q) (v : Value) : Prop :=
  ∃ p, v = performance_value p ∧ ∀ x, x ∈ p → (now - 30 < fst x)%Q.

(** A worker at rest: nothing queued, nothing measured, the clock at 100 s. *)
Definition idle_world : World unit :=
  {| queues := λ _, empty_queue; performance := []; start_time := 0;
     end_time := 0; clock := 100; slept := []; log := []; attrs := tt |}.

(** A worker with samples taken at 60 s, 70 s and 95 s and one request on
    the performance queue. *)
Definition sampled_world : World unit :=
  w_put performance_queue PNone
    (set_performance [(60, 1 # 30); (70, 1 # 30); (95, 1 # 30)]%Q idle_world).

(** A plugin with a settings menu, a method [ok] that returns, and a method
    [fail] that raises. *)
Definition example_plugin : PluginClass unit :=
  {| fps_cap := 30;
     settings_menu := Menu (ret (PStr "menu"));
     getattr := λ name,
       if String.eqb name "ok" then Method (λ _ _, ret (PNum 1))
       else if String.eqb name "fail" then Method (λ _ _, raise (Exception "boom"))
       else if String.eqb name "fps_cap" then Data (PNum 30)
       else NoAttr;
     run := ret (PNum 1) |}.



(** The example plugin with [fps_cap = 0]. *)
Definition uncapped_plugin : PluginClass unit :=
  {| fps_cap := 0; settings_menu := Undefined;
     getattr := getattr example_plugin; run := ret (PNum 1) |}.

(** The example plugin with a [run] that raises. *)
Definition failing_plugin : PluginClass unit :=
  {| fps_cap := 30; settings_menu := Undefined;
     getattr := getattr example_plugin; run := raise (Exception "boom") |}.

(** The message the supervisor queues to call [target] on a plugin. *)
Definition call_message (target : string) (args kwargs : Value) : Value :=
  PDict [("operation", PStr "function"); ("target", PStr target);
         ("args", args); ("kwargs", kwargs)].

(** Fourteen distinct handles, numbered in the order of the signature. *)
Definition numbered_args : CtorArgs nat :=
  {| a_path := "plugins/Example";
     a_return_queue := 0; a_plugins_queue := 1; a_plugins_return_queue := 2;
     a_tags_queue := 3; a_tags_return_queue := 4;
     a_settings_menu_queue := 5; a_settings_menu_return_queue := 6;
     a_frontend_queue := 7; a_frontend_return_queue := 8;
     a_immediate_queue := 9; a_immediate_return_queue := 10;
     a_state_queue := 11;
     a_performance_queue := 12; a_performance_return_queue := 13 |}.

(** C1, as stated, fails: on the instance built from fourteen distinct
    handles, not every one of the six concerns has a pair of queues; the
    state concern has no [state_return_queue]. *)
Lemma C1_not_every_concern_has_a_pair :
  ¬ (∀ c, c ∈ concerns → has_pair (__new__ numbered_args) c).
Proof.
  intros H. destruct (H "state") as [_ [q Hq]].
  - unfold concerns. set_solver.
  - vm_compute in Hq. discriminate Hq.
Qed.

(** C1, amended: for every argument list, the constructor stores a request
    queue and a return queue, each the handle it was passed, for the
    settings menu, frontend, immediate and performance concerns; for return
    values it stores the single queue [return_queue] and for state the
    single queue [state_queue], neither with a counterpart.  The plugins
    queues are stored as a pair too and handed to [Plugins]; the tags
    queues go to [Global] only. *)
Theorem C1_constructor_wiring {Queue} (a : CtorArgs Queue) :
  let i := __new__ a in
  (queue_attrs i !! "settings_menu_queue" = Some (a_settings_menu_queue a) ∧
   queue_attrs i !! "settings_menu_return_queue" = Some (a_settings_menu_return_queue a) ∧
   queue_attrs i !! "frontend_queue" = Some (a_frontend_queue a) ∧
   queue_attrs i !! "frontend_return_queue" = Some (a_frontend_return_queue a) ∧
   queue_attrs i !! "immediate_queue" = Some (a_immediate_queue a) ∧
   queue_attrs i !! "immediate_return_queue" = Some (a_immediate_return_queue a) ∧
   queue_attrs i !! "performance_queue" = Some (a_performance_queue a) ∧
   queue_attrs i !! "performance_return_queue" = Some (a_performance_return_queue a)) ∧
  (∀ c, c ∈ ["settings_menu"; "frontend"; "immediate"; "performance"] →
        has_pair i c) ∧
  (queue_attrs i !! "return_queue" = Some (a_return_queue a) ∧
   queues_of i "return" = ["return_queue"] ∧ ¬ has_pair i "return") ∧
  (queue_attrs i !! "state_queue" = Some (a_state_queue a) ∧
   state i = {| state_q := a_state_queue a |} ∧
   queues_of i "state" = ["state_queue"] ∧ ¬ has_pair i "state") ∧
  (has_pair i "plugins" ∧
   plugins i = {| plugins_q := a_plugins_queue a;
                  plugins_return_q := a_plugins_return_queue a |} ∧
   globals i = {| tags_q := a_tags_queue a;
                  tags_return_q := a_tags_return_queue a |} ∧
   queues_of i "tags" = []).
Proof.
  cbv zeta. split; [repeat split; reflexivity|]. split; [|split; [|split]].
  - intros c Hc. unfold has_pair.
    repeat (apply elem_of_cons in Hc as [->|Hc]; [split; eexists; reflexivity|]).
    by apply elem_of_nil in Hc.
  - repeat split; try reflexivity.
    intros [_ [q Hq]]. vm_compute in Hq. discriminate Hq.
  - repeat split; try reflexivity.
    intros [_ [q Hq]]. vm_compute in Hq. discriminate Hq.
  - repeat split; eexists; reflexivity.
Qed.


(** *** Helper threads *)

Section WorkerFacts.

Context {U : Type}.
Implicit Types (w : World U) (P : PluginClass U).

Lemma forever_not_returned (body : M U unit) fuel w a w' :
  forever fuel body w ≠ Returned a w'.
Proof.
  revert w. induction fuel as [|n IH]; intros w; simpl; [discriminate|].
  unfold bind. destruct (body w); try discriminate. apply IH.
Qed.

(** An [Exception] in an initialisation hook goes no further; one that is
    not an [AttributeError] leaves a line in the log. *)
Lemma run_hook_catches P name w e w' :
  run_hook P name w = Raised e w' → is_exception e = false.
Proof.
  unfold run_hook, try_except_as, bind.
  destruct (call_method P name w) as [v w1|ex w1|w1|w1]; try done.
  destruct ex; simpl; by try intros [= <- _].
Qed.

Lemma run_hook_logs P name f w ex w1 :
  getattr P name = Method f → f [] [] w = Raised ex w1 →
  is_exception ex = true → ex ≠ AttributeError →
  run_hook P name w
    = Returned tt (add_log ("Error in '" ++ name ++ "' function") w1).
Proof.
  intros HP Hf He Hex. unfold run_hook, try_except_as, bind, call_method.
  rewrite HP, Hf, He. by destruct ex.
Qed.

(** A loop whose body, where [I] holds, either returns where [I] holds
    again or has not ended, has not ended after any number of iterations. *)
Lemma forever_alive (I : World U → Prop) (body : M U unit) :
  (∀ w, I w → (∃ w', body w = Returned tt w' ∧ I w') ∨ alive (body w)) →
  ∀ fuel w, I w → alive (forever fuel body w).
Proof.
  intros Hbody fuel. induction fuel as [|n IH]; intros w Hw; simpl; [done|].
  unfold bind. destruct (Hbody w Hw) as [(w' & -> & Hw')|Ha].
  - by apply IH.
  - by destruct (body w).
Qed.



Lemma leaves_queue_ret {A} a (x : A) : leaves_queue a (ret (U := U) x).
Proof. done. Qed.




Lemma get_head a w v rest :
  pending a w = v :: rest → get a w = Returned v (w_take a rest w).
Proof. unfold pending, get. by intros ->. Qed.

Lemma task_done_ok a w n :
  unfinished a w = S n → task_done a w = Returned tt (w_done a n w).
Proof. unfold unfinished, task_done. by intros ->. Qed.


Lemma frontend_iteration_reply P w data rest n w2 :
  pending frontend_queue w = data :: rest →
  (dispatch P data (w_take frontend_queue rest w) = Returned tt w2 ∨
   ∃ e, dispatch P data (w_take frontend_queue rest w) = Raised e w2) →
  unfinished frontend_queue w2 = S n →
  frontend_iteration P w
    = Returned tt (w_put frontend_return_queue PNone (w_done frontend_queue n w2)).
Proof.
  intros Hp Hd Hu. unfold frontend_iteration, bind, try_except.
  rewrite (get_head _ _ _ _ Hp).
  destruct Hd as [-> | [e ->]]; unfold ret;
    by rewrite (task_done_ok _ _ n Hu).
Qed.

Lemma performance_iteration_reply w m rest n :
  pending performance_queue w = m :: rest →
  unfinished performance_queue w = S n →
  performance_iteration w
    = Returned tt
        (w_put performance_return_queue
           (performance_value (recent (clock w) (performance w)))
           (w_done performance_queue n
              (set_performance (recent (clock w) (performance w))
                 (w_take performance_queue rest w)))).
Proof.
  intros Hp Hu. unfold performance_iteration, bind, time.
  rewrite (get_head _ _ _ _ Hp). cbn beta iota.
  rewrite (task_done_ok _ _ n); [reflexivity|exact Hu].
Qed.


Lemma counted_queue a w w' :
  queues w' a = queues w a → counted a w → counted a w'.
Proof. unfold counted, pending, unfinished. by intros ->. Qed.





End WorkerFacts.






(** *** The performance thread *)

Lemma recent_spec now p x :
  x ∈ recent now p ↔ x ∈ p ∧ (now - 30 < fst x)%Q.
Proof.
  unfold recent. rewrite list_elem_of_filter, Qlt_bool_iff. tauto.
Qed.

Lemma performance_iteration_appends {U} (w : World U) :
  let o := performance_iteration w in
  clock (world_of o) = clock w ∧
  ∃ replies, pending performance_return_queue (world_of o)
             = (pending performance_return_queue w ++ replies)%list ∧
             Forall (recent_reply (clock w)) replies.
Proof.
  unfold performance_iteration, bind, time, get.
  destruct (items (queues w performance_queue)) as [|m rest] eqn:Hp; simpl.
  { split; [done|]. exists []. by rewrite app_nil_r. }
  unfold task_done. simpl.
  destruct (unfinished_tasks (queues w performance_queue)) as [|n]; simpl.
  { split; [done|]. exists []. by rewrite app_nil_r. }
  split; [done|]. eexists [_]. split; [reflexivity|].
  constructor; [|constructor]. eexists. split; [reflexivity|].
  intros x Hx. by apply recent_spec in Hx as [_ ?].
Qed.

Lemma performance_thread_appends {U} fuel (w : World U) :
  let o := performance_thread fuel w in
  ∃ replies, pending performance_return_queue (world_of o)
             = (pending performance_return_queue w ++ replies)%list ∧
             Forall (recent_reply (clock w)) replies.
Proof.
  revert w. induction fuel as [|k IH]; intros w; simpl.
  { exists []. by rewrite app_nil_r. }
  destruct (performance_iteration_appends w) as [Hc (r1 & Hr1 & HF1)].
  unfold performance_thread in *. simpl. unfold bind.
  destruct (performance_iteration w) as [[] w1|e w1|w1|w1] eqn:Hit;
    simpl in Hc, Hr1; try (by exists r1).
  destruct (IH w1) as (r2 & Hr2 & HF2). simpl in Hr2.
  exists (r1 ++ r2)%list. split.
  - by rewrite Hr2, Hr1, app_assoc.
  - apply Forall_app. split; [done|]. by rewrite <- Hc.
Qed.

(** C8: a request taken from the performance queue makes the thread keep
    exactly the samples whose timestamp is greater than the current time
    minus 30 s, in their order, and reply with that list; every sample with
    a timestamp not greater than that is gone.  However long the thread
    runs, every reply it has added to the return queue holds only samples
    younger than 30 s. *)
Theorem C8_performance_replies {U} (w : World U) :
  (∀ m rest n,
     pending performance_queue w = m :: rest →
     unfinished performance_queue w = S n →
     ∃ w',
       performance_iteration w = Returned tt w' ∧
       performance w' = recent (clock w) (performance w) ∧
       pending performance_return_queue w'
         = (pending performance_return_queue w
              ++ [performance_value (performance w')])%list ∧
       (∀ x, x ∈ performance w' ↔ x ∈ performance w ∧ (clock w - 30 < fst x)%Q) ∧
       (∀ x, (fst x <= clock w - 30)%Q → x ∉ performance w')) ∧
  (∀ fuel, ∃ replies,
     pending performance_return_queue (world_of (performance_thread fuel w))
       = (pending performance_return_queue w ++ replies)%list ∧
     Forall (recent_reply (clock w)) replies).
Proof.
  split.
  - intros m rest n Hp Hu. eexists. split; [|split; [|split; [|split]]].
    + by apply (performance_iteration_reply w m rest n).
    + reflexivity.
    + reflexivity.
    + intros x. apply recent_spec.
    + intros x Hle Hx. apply recent_spec in Hx as [_ Hlt].
      by apply Qle_not_lt in Hle.
  - intros fuel. apply performance_thread_appends.
Qed.

(** With samples taken at 60 s, 70 s and 95 s and the clock at 100 s, one
    request is answered with the samples of 95 s alone. *)
Lemma C8_performance_replies_witness :
  ∃ w', performance_iteration sampled_world = Returned tt w' ∧
        performance w' = [(95, 1 # 30)%Q] ∧
        pending performance_return_queue w'
          = [PList [PTuple [PNum 95; PNum (1 # 30)]]].
Proof.
  destruct (proj1 (C8_performance_replies sampled_world) PNone [] 0%nat
              eq_refl eq_refl) as (w' & Hit & Hperf & Hq & _).
  exists w'. split; [exact Hit|]. split; [exact Hperf|].
  rewrite Hq, Hperf. reflexivity.
Defined.


(** *** Frontend calls *)

Lemma neqb_dict_empty k : neqb (PDict k) (PDict []) = false → k = [].
Proof.
  unfold neqb. destruct k as [|[key v] k]; [done|]. simpl. discriminate.
Qed.

Lemma dispatch_unknown_target {U} (P : PluginClass U) target args kwargs w :
  getattr P target = NoAttr →
  dispatch P (call_message target args kwargs) w = Raised AttributeError w.
Proof.
  intros HP. unfold dispatch, bind, call_message. simpl.
  destruct (neqb args _), (neqb kwargs _);
    unfold call_target, bind; simpl; by rewrite HP.
Qed.

Lemma dispatch_failing_method {U} (P : PluginClass U) target f l k e w w2 :
  getattr P target = Method f →
  f l k w = Raised e w2 →
  dispatch P (call_message target (PList l) (PDict k)) w = Raised e w2.
Proof.
  intros HP Hf. unfold dispatch, bind, call_message. simpl.
  destruct (neqb (PDict k) (PDict [])) eqn:Hk.
  - unfold call_target, bind. simpl. rewrite HP. simpl. by rewrite Hf.
  - apply neqb_dict_empty in Hk as ->.
    unfold call_target, bind. simpl. rewrite HP. simpl. by rewrite Hf.
Qed.

(** C5: when the dispatch of a request raises, whatever the exception, the
    frontend thread's iteration returns normally: nothing is logged, the
    request is marked done and [None] is put on the frontend return queue,
    exactly as when the dispatch succeeds.  A target the plugin does not
    have and a method whose body raises are two such cases. *)
Theorem C5_frontend_exceptions_swallowed {U} (P : PluginClass U) (w : World U)
    data rest e w2 n :
  pending frontend_queue w = data :: rest →
  dispatch P data (w_take frontend_queue rest w) = Raised e w2 →
  unfinished frontend_queue w2 = S n →
  let w' := w_put frontend_return_queue PNone (w_done frontend_queue n w2) in
  (frontend_iteration P w = Returned tt w' ∧
   log w' = log w2 ∧
   unfinished frontend_queue w' = n ∧
   pending frontend_return_queue w'
     = (pending frontend_return_queue w2 ++ [PNone])%list) ∧
  (∀ v v2 m, pending frontend_queue v = data :: rest →
     dispatch P data (w_take frontend_queue rest v) = Returned tt v2 →
     unfinished frontend_queue v2 = S m →
     frontend_iteration P v
       = Returned tt (w_put frontend_return_queue PNone
                        (w_done frontend_queue m v2))) ∧
  (∀ target args kwargs v,
     getattr P target = NoAttr →
     dispatch P (call_message target args kwargs) v = Raised AttributeError v) ∧
  (∀ target f l k e' v v2,
     getattr P target = Method f → f l k v = Raised e' v2 →
     dispatch P (call_message target (PList l) (PDict k)) v = Raised e' v2).
Proof.
  intros Hp Hd Hu w'. split; [|split; [|split]].
  - split; [|by repeat split].
    apply (frontend_iteration_reply P w data rest n w2); eauto.
  - intros v v2 m Hp' Hd' Hu'.
    apply (frontend_iteration_reply P v data rest m v2); eauto.
  - intros. by apply dispatch_unknown_target.
  - intros. by eapply dispatch_failing_method.
Qed.

(** A call of the missing method [nope] and a call of the raising method
    [fail] both end in the reply [None]. *)
Lemma C5_frontend_exceptions_swallowed_witness :
  let req := call_message "nope" (PList []) (PDict []) in
  let w := w_put frontend_queue req idle_world in
  frontend_iteration example_plugin w
    = Returned tt (w_put frontend_return_queue PNone
                     (w_done frontend_queue 0 (w_take frontend_queue [] w))) ∧
  pending frontend_return_queue
    (world_of (frontend_iteration example_plugin
                 (w_put frontend_queue
                    (call_message "fail" (PList []) (PDict [])) idle_world)))
    = [PNone].
Proof.
  split.
  - pose proof (C5_frontend_exceptions_swallowed example_plugin
             (w_put frontend_queue (call_message "nope" (PList []) (PDict []))
                idle_world)
             (call_message "nope" (PList []) (PDict [])) [] AttributeError
             _ 0%nat eq_refl eq_refl eq_refl) as [[H _] _].
    exact H.
  - reflexivity.
Defined.

(** *** Dialogs *)

(** C7: [notify], [ask] and [dialog] each put one message on the immediate
    queue and then wait in a [get()] on the immediate return queue that has
    no timeout: while that queue is empty the call stays parked, and the
    call returns only from a reply that is on that queue. *)
Theorem C7_dialog_calls_block {U} (w : World U) text type options description
    (build : M U Value) :
  (pending immediate_return_queue w = [] →
   notify text type w
     = Blocked (w_put immediate_queue (notify_message text type) w) ∧
   ask text options description w
     = Blocked (w_put immediate_queue (ask_message text options description) w)) ∧
  (∀ opts w1, build w = Returned opts w1 →
     pending immediate_return_queue w1 = [] →
     dialog build w = Blocked (w_put immediate_queue (dialog_message opts) w1)) ∧
  (∀ msg (v : World U),
     pending immediate_queue (w_put immediate_queue msg v)
       = (pending immediate_queue v ++ [msg])%list ∧
     pending immediate_return_queue (w_put immediate_queue msg v)
       = pending immediate_return_queue v) ∧
  (∀ r w', notify text type w = Returned r w' →
     ∃ rest, pending immediate_return_queue w = r :: rest) ∧
  (∀ r w', ask text options description w = Returned r w' →
     ∃ reply rest, pending immediate_return_queue w = reply :: rest ∧
                   getitem reply "response" = Ok r) ∧
  (∀ r w', dialog build w = Returned r w' →
     ∃ opts w1 rest, build w = Returned opts w1 ∧
                     pending immediate_return_queue w1 = r :: rest) ∧
  (∀ r rest n, pending immediate_return_queue w = r :: rest →
     unfinished immediate_return_queue w = S n →
     notify text type w
       = Returned r (w_done immediate_return_queue n
                       (w_take immediate_return_queue rest
                          (w_put immediate_queue (notify_message text type) w)))).
Proof.
  split; [|split; [|split; [|split; [|split; [|split]]]]].
  - intros Hp. unfold pending in Hp. split.
    + unfold notify, bind, put, get. simpl. by rewrite Hp.
    + unfold ask, bind, put, get. simpl. by rewrite Hp.
  - intros opts w1 Hb Hp. unfold pending in Hp.
    unfold dialog, bind. rewrite Hb. unfold put, get. simpl. by rewrite Hp.
  - intros msg v. by split.
  - intros r w'. unfold notify, bind, put, get, task_done, pending. simpl.
    destruct (items (queues w immediate_return_queue)) as [|x rest]; [done|].
    simpl. destruct (unfinished_tasks _); [done|].
    unfold ret. intros [= <- _]. by exists rest.
  - intros r w'. unfold ask, bind, put, get, pending. simpl.
    destruct (items (queues w immediate_return_queue)) as [|x rest]; [done|].
    unfold lift. destruct (getitem x "response") as [v|] eqn:Hg; [|done].
    unfold ret. intros [= <- _]. by exists x, rest.
  - intros r w'. unfold dialog, bind.
    destruct (build w) as [opts w1| | |] eqn:Hb; try done.
    unfold put, get, pending. simpl.
    destruct (items (queues w1 immediate_return_queue)) as [|x rest] eqn:Hq;
      [done|].
    intros [= <- _]. by exists opts, w1, rest.
  - intros r rest n Hp Hu. unfold pending in Hp. unfold unfinished in Hu.
    unfold notify, bind, put, get, task_done. simpl. rewrite Hp. simpl.
    by rewrite Hu.
Qed.

(** With no reply queued, a notification is put and the call is parked. *)
Lemma C7_dialog_calls_block_witness :
  notify (PStr "hello") (PStr "info") idle_world
    = Blocked (w_put immediate_queue
                 (notify_message (PStr "hello") (PStr "info")) idle_world).
Proof.
  apply (proj1 (C7_dialog_calls_block idle_world (PStr "hello") (PStr "info")
                  PNone PNone (ret PNone))).
  reflexivity.
Defined.


(** *** The frame loop *)

Lemma Qlt_bool_false (x y : Q) : Qlt_bool x y = false ↔ (y <= x)%Q.
Proof.
  rewrite <- not_true_iff_false, Qlt_bool_iff.
  split; [apply Qnot_lt_le | apply Qle_not_lt].
Qed.

Lemma plugin_iteration {U} (P : PluginClass U) (w : World U) d w1 :
  fps_cap P ≠ 0%Z →
  run P (set_start_time (clock w) w) = Returned d w1 →
  let period := (1 / inject_Z (fps_cap P))%Q in
  let elapsed := (clock w1 - start_time w1)%Q in
  ∃ w',
    plugin P w = Returned tt w' ∧
    pending return_queue w'
      = (if is_none d then pending return_queue w1
         else pending return_queue w1 ++ [d])%list ∧
    (∀ a, a ≠ return_queue → queues w' a = queues w1 a) ∧
    end_time w' = clock w1 ∧
    ((elapsed < period)%Q →
       slept w' = (slept w1 ++ [period - elapsed])%Q%list ∧
       clock w' = (clock w1 + (period - elapsed))%Q) ∧
    ((period <= elapsed)%Q → slept w' = slept w1 ∧ clock w' = clock w1) ∧
    performance w'
      = (performance w1 ++ [(start_time w1, clock w' - start_time w1)%Q])%list.
Proof.
  intros Hfps Hrun period elapsed.
  unfold plugin, bind, before, time. simpl. rewrite Hrun.
  unfold after, bind, time.
  assert (Hz : Z.eqb (fps_cap P) 0 = false) by by apply Z.eqb_neq.
  assert (Hq : ∀ a, a ≠ return_queue →
                    queues (w_put return_queue d w1) a = queues w1 a).
  { intros a Ha. unfold w_put, set_queue. simpl. by destruct (decide _). }
  destruct (is_none d) eqn:Hd; simpl; rewrite Hz; simpl; unfold Py.max;
    fold period; fold elapsed;
    destruct (Qlt_bool (period - elapsed) 0) eqn:Hneg;
    [ apply Qlt_bool_iff in Hneg | apply Qlt_bool_false in Hneg
    | apply Qlt_bool_iff in Hneg | apply Qlt_bool_false in Hneg ].
  all: try (change (Qlt_bool 0 0) with false; cbn iota).
  all: try (destruct (Qlt_bool 0 (period - elapsed)) eqn:Hpos;
            [ apply Qlt_bool_iff in Hpos | apply Qlt_bool_false in Hpos ]).
  all: eexists; split; [reflexivity|]; simpl.
  all: repeat split; try done; try (intros; exfalso; lra).
  all: try (by rewrite decide_True).
Qed.

Lemma plugin_run_raises {U} (P : PluginClass U) (w : World U) e w1 :
  run P (set_start_time (clock w) w) = Raised e w1 →
  plugin P w = Raised e w1.
Proof.
  intros Hrun. unfold plugin, bind, before, time. simpl. by rewrite Hrun.
Qed.

Lemma plugin_run_alive {U} (P : PluginClass U) (w : World U) :
  alive (run P (set_start_time (clock w) w)) → alive (plugin P w).
Proof.
  unfold plugin, bind, before, time. simpl.
  by destruct (run P (set_start_time (clock w) w)).
Qed.

Lemma plugin_zero_cap {U} (P : PluginClass U) (w : World U) d w1 :
  fps_cap P = 0%Z →
  run P (set_start_time (clock w) w) = Returned d w1 →
  ∃ w',
    plugin P w = Raised ZeroDivisionError w' ∧
    pending return_queue w'
      = (if is_none d then pending return_queue w1
         else pending return_queue w1 ++ [d])%list ∧
    end_time w' = clock w1 ∧
    slept w' = slept w1 ∧
    performance w' = performance w1.
Proof.
  intros Hfps Hrun. unfold plugin, bind, before, time. simpl. rewrite Hrun.
  unfold after, bind, time. rewrite Hfps.
  destruct (is_none d); simpl; eexists; (split; [reflexivity|]); simpl;
    repeat split; try done.
Qed.

(** C3, as stated, fails: not every worker loops forever.  With
    [fps_cap = 0] the first frame puts its value and then ends the loop
    with [ZeroDivisionError], before any sleep; with a [run()] that raises,
    the first frame ends the loop with that exception. *)
Lemma C3_loop_ends_on_zero_cap_or_failing_run :
  (∃ w', main_loop uncapped_plugin 5 idle_world = Raised ZeroDivisionError w' ∧
         pending return_queue w' = [PNum 1] ∧ slept w' = [] ∧
         performance w' = []) ∧
  (∃ w', main_loop failing_plugin 5 idle_world = Raised (Exception "boom") w' ∧
         pending return_queue w' = []) ∧
  ¬ alive (main_loop uncapped_plugin 5 idle_world) ∧
  ¬ alive (main_loop failing_plugin 5 idle_world).
Proof.
  split; [eexists; by repeat split|].
  split; [eexists; by repeat split|].
  split; intros H; exact H.
Qed.

(** C3, amended: after initialization a worker whose [fps_cap] is not 0
    loops for as long as [run()] does not raise: after any number of
    iterations the loop has neither returned nor raised, and when [run()]
    returns every time it is still iterating.  Each iteration runs
    [before()], then [run()] in the state [before()] left, then
    [after(data)] in the state [run()] left, and the loop goes on from
    there.  When [run()] returns [data], [after] puts [data] on the return
    queue if it is not [None] and touches no queue if it is; then, if less
    than [1/fps_cap] seconds have passed since [before()], it sleeps for
    the remainder, and otherwise does not sleep; and it records the
    iteration's start and duration.  The loop has no handler: an exception
    raised by [run()] ends it.

    The last part of the theorem is the case the amended claim leaves
    out: with [fps_cap = 0] the first [after] raises [ZeroDivisionError],
    once the value has been put and before any sleep or record. *)
Theorem C3_frame_loop {U} (P : PluginClass U) :
  (fps_cap P ≠ 0%Z → never_raises (run P) →
   ∀ fuel (w : World U), alive (main_loop P fuel w)) ∧
  (fps_cap P ≠ 0%Z → (∀ w : World U, ∃ d w1, run P w = Returned d w1) →
   ∀ fuel (w : World U), ∃ w', main_loop P fuel w = Running w') ∧
  (fps_cap P ≠ 0%Z →
   ∀ (w : World U) d w1,
     run P (set_start_time (clock w) w) = Returned d w1 →
     let period := (1 / inject_Z (fps_cap P))%Q in
     let elapsed := (clock w1 - start_time w1)%Q in
     ∃ w',
       plugin P w = Returned tt w' ∧
       (∀ fuel, main_loop P (S fuel) w = main_loop P fuel w') ∧
       pending return_queue w'
         = (if is_none d then pending return_queue w1
            else pending return_queue w1 ++ [d])%list ∧
       (∀ a, a ≠ return_queue → queues w' a = queues w1 a) ∧
       end_time w' = clock w1 ∧
       ((elapsed < period)%Q →
          slept w' = (slept w1 ++ [period - elapsed])%Q%list ∧
          clock w' = (clock w1 + (period - elapsed))%Q) ∧
       ((period <= elapsed)%Q → slept w' = slept w1 ∧ clock w' = clock w1) ∧
       performance w'
         = (performance w1 ++ [(start_time w1, clock w' - start_time w1)%Q])%list) ∧
  (∀ fuel (w : World U) e w1,
     run P (set_start_time (clock w) w) = Raised e w1 →
     main_loop P (S fuel) w = Raised e w1) ∧
  (fps_cap P = 0%Z →
   ∀ fuel (w : World U) d w1,
     run P (set_start_time (clock w) w) = Returned d w1 →
     ∃ w',
       main_loop P (S fuel) w = Raised ZeroDivisionError w' ∧
       pending return_queue w'
         = (if is_none d then pending return_queue w1
            else pending return_queue w1 ++ [d])%list ∧
       slept w' = slept w1 ∧
       performance w' = performance w1).
Proof.
  split; [|split; [|split; [|split]]].
  - intros Hfps Hnr fuel w.
    apply (forever_alive (λ _, True)); [|done].
    intros v _.
    destruct (run P (set_start_time (clock v) v)) as [d w1|e w1|w1|w1] eqn:Hrun.
    + left. destruct (plugin_iteration P v d w1 Hfps Hrun) as (w' & Hp & _).
      by exists w'.
    + by destruct (Hnr _ _ _ Hrun).
    + right. apply plugin_run_alive. by rewrite Hrun.
    + right. apply plugin_run_alive. by rewrite Hrun.
  - intros Hfps Hrun fuel. induction fuel as [|k IH]; intros w.
    + by exists w.
    + destruct (Hrun (set_start_time (clock w) w)) as (d & w1 & Hd).
      destruct (plugin_iteration P w d w1 Hfps Hd) as (w' & Hp & _).
      destruct (IH w') as (w'' & Hk). exists w''.
      unfold main_loop in *. simpl. unfold bind at 1. by rewrite Hp.
  - intros Hfps w d w1 Hrun period elapsed.
    destruct (plugin_iteration P w d w1 Hfps Hrun) as (w' & Hp & Hrest).
    exists w'. split; [exact Hp|]. split; [|exact Hrest].
    intros fuel. unfold main_loop. simpl. unfold bind at 1. by rewrite Hp.
  - intros fuel w e w1 Hrun. unfold main_loop. simpl. unfold bind at 1.
    by rewrite (plugin_run_raises P w e w1 Hrun).
  - intros Hfps fuel w d w1 Hrun.
    destruct (plugin_zero_cap P w d w1 Hfps Hrun) as (w' & Hp & Hq & _ & Hs & Hperf).
    exists w'. split; [|done].
    unfold main_loop. simpl. unfold bind at 1. by rewrite Hp.
Qed.

(** The example plugin, capped at 30 frames per second, returns 1 at once:
    the value goes on the return queue, the worker sleeps 1/30 s, and the
    loop is still going after a hundred iterations. *)
Lemma C3_frame_loop_witness :
  (∃ w', plugin example_plugin idle_world = Returned tt w' ∧
         pending return_queue w' = [PNum 1] ∧
         slept w' = [(1 / inject_Z 30 - (100 - 100))%Q]) ∧
  alive (main_loop example_plugin 100 idle_world).
Proof.
  assert (Hfps : fps_cap example_plugin ≠ 0%Z) by discriminate.
  split.
  - destruct (proj1 (proj2 (proj2 (C3_frame_loop example_plugin))) Hfps
                idle_world (PNum 1) (set_start_time 100 idle_world) eq_refl)
      as (w' & Hp & _ & Hq & _ & _ & Hs & _).
    exists w'. split; [exact Hp|]. split; [exact Hq|].
    apply Hs. reflexivity.
  - apply (proj1 (C3_frame_loop example_plugin) Hfps).
    intros w e w'. discriminate.
Defined.

End Plugin.

(** ** The web server *)

Module Webserver.

Import Py.

Inductive Method :=
| GET
| POST.

#[global] Instance Method_eq_dec : EqDecision Method.
Proof. solve_decision. Defined.

(** The functions registered on [app], in the order of the file. *)
Module E.
Inductive Endpoint :=
| read_root
| get_frametimes
| quitApp
| restartApp
| get_plugins
| enable_plugin
| disable_plugin
| set_plugin_setting
| set_plugin_settings
| get_plugin_setting
| get_plugin_settings
| change_control
| get_git_history
| call_plugin_function
| get_IP.
End E.
Abbreviation Endpoint := E.Endpoint.

Record Route := {
  route_method : Method;
  route_path : string;
  route_endpoint : Endpoint
}.

(** The decorators [@app.get(...)] and [@app.post(...)], top to bottom. *)
Definition routes : list Route :=
  [ {| route_method := GET;  route_path := "/"; route_endpoint := E.read_root |};
    {| route_method := GET;  route_path := "/api/frametimes"; route_endpoint := E.get_frametimes |};
    {| route_method := GET;  route_path := "/api/quit"; route_endpoint := E.quitApp |};
    {| route_method := GET;  route_path := "/api/restart"; route_endpoint := E.restartApp |};
    {| route_method := GET;  route_path := "/api/plugins"; route_endpoint := E.get_plugins |};
    {| route_method := GET;  route_path := "/api/plugins/{plugin}/enable"; route_endpoint := E.enable_plugin |};
    {| route_method := GET;  route_path := "/api/plugins/{plugin}/disable"; route_endpoint := E.disable_plugin |};
    {| route_method := POST; route_path := "/api/plugins/{plugin}/settings/{key}/set"; route_endpoint := E.set_plugin_setting |};
    {| route_method := POST; route_path := "/api/plugins/{plugin}/settings/set"; route_endpoint := E.set_plugin_settings |};
    {| route_method := GET;  route_path := "/api/plugins/{plugin}/settings/{key}"; route_endpoint := E.get_plugin_setting |};
    {| route_method := GET;  route_path := "/api/plugins/{plugin}/settings"; route_endpoint := E.get_plugin_settings |};
    {| route_method := POST; route_path := "/api/controls/{control}/change"; route_endpoint := E.change_control |};
    {| route_method := GET;  route_path := "/api/git/history"; route_endpoint := E.get_git_history |};
    {| route_method := POST; route_path := "/api/plugins/{plugin}/call/{function}"; route_endpoint := E.call_plugin_function |};
    {| route_method := GET;  route_path := "/api/server/ip"; route_endpoint := E.get_IP |} ].

(** *** Path matching

    A route path is matched against the whole request path; a parameter
    [{name}] stands for one or more characters other than [/]. *)

Abbreviation slash := ("/"%char).

(** The pieces of a path between its slashes. *)
Fixpoint split_path (s : string) : list string :=
  match s with
  | EmptyString => [""]
  | String c s' =>
      if Ascii.eqb c slash then "" :: split_path s'
      else match split_path s' with
           | [] => [String c ""]
           | piece :: pieces => String c piece :: pieces
           end
  end.

Inductive Segment :=
| Lit (s : string)
| Param (name : string).

Fixpoint drop_last_char (s : string) : string :=
  match s with
  | EmptyString => ""
  | String c EmptyString => ""
  | String c s' => String c (drop_last_char s')
  end.

Fixpoint last_char (s : string) : option ascii :=
  match s with
  | EmptyString => None
  | String c EmptyString => Some c
  | String _ s' => last_char s'
  end.

(** [{name}] is a parameter, anything else stands for itself. *)
Definition segment_of (piece : string) : Segment :=
  match piece with
  | String c rest =>
      if Ascii.eqb c "{"%char then
        match last_char rest with
        | Some d => if Ascii.eqb d "}"%char then Param (drop_last_char rest)
                    else Lit piece
        | None => Lit piece
        end
      else Lit piece
  | EmptyString => Lit piece
  end.

Definition compile_path (path : string) : list Segment :=
  map segment_of (split_path path).

Fixpoint match_segments (pattern : list Segment) (pieces : list string) :
  option (list (string * string)) :=
  match pattern, pieces with
  | [], [] => Some []
  | Lit s :: pattern', piece :: pieces' =>
      if String.eqb s piece then match_segments pattern' pieces' else None
  | Param name :: pattern', piece :: pieces' =>
      if String.eqb piece "" then None
      else match match_segments pattern' pieces' with
           | Some params => Some ((name, piece) :: params)
           | None => None
           end
  | _, _ => None
  end.

Definition match_path (route_path : string) (pieces : list string) :
  option (list (string * string)) :=
  match_segments (compile_path route_path) pieces.

Inductive Resolution :=
| Resolved (e : Endpoint) (params : list (string * string))
| MethodNotAllowed
| NotFound.

(** The first route whose path and method both match handles the request;
    a path that matches only routes of another method is refused. *)
Fixpoint resolve_in (rs : list Route) (m : Method) (pieces : list string)
    (partial : bool) : Resolution :=
  match rs with
  | [] => if partial then MethodNotAllowed else NotFound
  | r :: rs' =>
      match match_path (route_path r) pieces with
      | Some params =>
          if decide (route_method r = m) then Resolved (route_endpoint r) params
          else resolve_in rs' m pieces true
      | None => resolve_in rs' m pieces partial
      end
  end.

Definition resolve (m : Method) (request_path : string) : Resolution :=
  resolve_in routes m (split_path request_path) false.

Fixpoint param (name : string) (params : list (string * string)) : string :=
  match params with
  | [] => ""
  | (n, v) :: params' => if String.eqb name n then v else param name params'
  end.


(** *** Handlers *)

Section Handlers.

(** [ETS2LA.backend.backend] and [ETS2LA.backend.settings] are not among
    these sources: the state they keep and the functions the handlers call
    are parameters. *)
Context {B : Type}.

Record Backend := {
  AddPluginRunner : string → B → Res Value * B;
  RemovePluginRunner : string → B → Res Value * B;
  CallPluginFunction : string → string → Value → Value → B → Res Value * B;
  settings_Set : string → Value → Value → B → Res Value * B;
  settings_Get : string → string → B → Res Value * B;
  settings_GetJSON : string → B → Res Value * B
}.

Variable backend : Backend.

(** The attributes of the module [variables] and the backend's state. *)
Record App := {
  variables : gmap string Value;
  backend_state : B
}.

Definition Handler : Type := App → Res Value * App.

Definition set_variable (name : string) (v : Value) (a : App) : App :=
  {| variables := <[name := v]> (variables a);
     backend_state := backend_state a |}.

(** Call into the backend. *)
Definition call_backend (f : B → Res Value * B) : Handler :=
  λ a, let (r, b) := f (backend_state a) in
       (r, {| variables := variables a; backend_state := b |}).

Definition status_ok : Value := PDict [("status", PStr "ok")].

Definition quitApp : Handler :=
  λ a, (Ok status_ok, set_variable "CLOSE" (PBool true) a).

Definition restartApp : Handler :=
  λ a, (Ok status_ok, set_variable "RESTART" (PBool true) a).

Definition enable_plugin (plugin : string) : Handler :=
  call_backend (AddPluginRunner backend plugin).

Definition disable_plugin (plugin : string) : Handler :=
  call_backend (RemovePluginRunner backend plugin).

(** A body that is missing or not of the declared shape: the request is
    refused before the handler runs, or [PluginCallData()] raises in it. *)
Definition unprocessable : Exn := Exception "validation error".

Definition set_plugin_setting (plugin key : string) (value : option Value) :
  Handler :=
  match value with
  | None => λ a, (Raise unprocessable, a)
  | Some value =>
      match getitem value "value" with
      | Ok v => call_backend (settings_Set backend plugin (PStr key) v)
      | Raise e => λ a, (Raise e, a)
      end
  end.

Definition set_plugin_settings (plugin : string) (data : option Value) :
  Handler :=
  match data with
  | Some (PDict d) =>
      match getitem (PDict d) "keys" with
      | Ok keys =>
          match getitem (PDict d) "setting" with
          | Ok setting => call_backend (settings_Set backend plugin keys setting)
          | Raise e => λ a, (Raise e, a)
          end
      | Raise e => λ a, (Raise e, a)
      end
  | _ => λ a, (Raise unprocessable, a)
  end.

Definition get_plugin_setting (plugin key : string) : Handler :=
  call_backend (settings_Get backend plugin key).

Definition get_plugin_settings (plugin : string) : Handler :=
  call_backend (settings_GetJSON backend plugin).

(** [PluginCallData]: a body with a list [args] and a dictionary [kwargs]. *)
Definition PluginCallData (body : Value) : option (Value * Value) :=
  match body with
  | PDict d =>
      match dict_get "args" d, dict_get "kwargs" d with
      | Some (PList args), Some (PDict kwargs) => Some (PList args, PDict kwargs)
      | _, _ => None
      end
  | _ => None
  end.

Definition call_plugin_function (plugin function : string)
    (data : option Value) : Handler :=
  match data with
  | None => λ a, (Raise unprocessable, a)
  | Some body =>
      match PluginCallData body with
      | None => λ a, (Raise unprocessable, a)
      | Some (args, kwargs) =>
          λ a, let (r, a') :=
                 call_backend (CallPluginFunction backend plugin function args kwargs) a in
               match r with
               | Ok returnData =>
                   if eqb returnData (PBool false) || eqb returnData PNone
                   then (Raise (Exception "Plugin function failed"), a')
                   else (Ok returnData, a')
               | Raise e => (Raise e, a')
               end
      end
  end.

Inductive Response :=
| Reply (r : Res Value * App)
| Other (e : Endpoint)
| Status405
| Status404.

(** A request: the router picks the endpoint, the endpoint gets the path
    parameters and the body.  The endpoints that do not act on one plugin
    or on the application's life cycle are left as [Other]. *)
Definition serve (m : Method) (request_path : string) (body : option Value)
    (a : App) : Response :=
  match resolve m request_path with
  | Resolved e params =>
      match e with
      | E.quitApp => Reply (quitApp a)
      | E.restartApp => Reply (restartApp a)
      | E.enable_plugin => Reply (enable_plugin (param "plugin" params) a)
      | E.disable_plugin => Reply (disable_plugin (param "plugin" params) a)
      | E.set_plugin_setting =>
          Reply (set_plugin_setting (param "plugin" params) (param "key" params) body a)
      | E.set_plugin_settings =>
          Reply (set_plugin_settings (param "plugin" params) body a)
      | E.get_plugin_setting =>
          Reply (get_plugin_setting (param "plugin" params) (param "key" params) a)
      | E.get_plugin_settings =>
          Reply (get_plugin_settings (param "plugin" params) a)
      | E.call_plugin_function =>
          Reply (call_plugin_function (param "plugin" params)
                   (param "function" params) body a)
      | other => Other other
      end
  | MethodNotAllowed => Status405
  | NotFound => Status404
  end.

End Handlers.

Arguments Backend : clear implicits.
Arguments App : clear implicits.

(** A name that can stand in a path: not empty, no slash. *)
Fixpoint no_slash (s : string) : bool :=
  match s with
  | EmptyString => true
  | String c s' => negb (Ascii.eqb c slash) && no_slash s'
  end.

Definition valid_name (s : string) : bool :=
  negb (String.eqb s "") && no_slash s.




(** *** Routing facts *)

Lemma split_path_name (name rest : string) :
  no_slash name = true →
  split_path (name ++ String slash rest) = name :: split_path rest.
Proof.
  induction name as [|c name IH]; simpl; intros H.
  - reflexivity.
  - apply andb_true_iff in H as [Hc Hn]. apply negb_true_iff in Hc.
    rewrite Hc, (IH Hn). reflexivity.
Qed.

Lemma split_path_last (name : string) :
  no_slash name = true → split_path name = [name].
Proof.
  induction name as [|c name IH]; simpl; intros H.
  - reflexivity.
  - apply andb_true_iff in H as [Hc Hn]. apply negb_true_iff in Hc.
    rewrite Hc, (IH Hn). reflexivity.
Qed.

Lemma valid_name_spec (s : string) :
  valid_name s = true → String.eqb s "" = false ∧ no_slash s = true.
Proof.
  unfold valid_name. intros H. apply andb_true_iff in H as [H1 H2].
  by apply negb_true_iff in H1.
Qed.

Lemma split_plugin_path plugin tail :
  no_slash plugin = true →
  split_path ("/api/plugins/" ++ plugin ++ String slash tail)
    = "" :: "api" :: "plugins" :: plugin :: split_path tail.
Proof.
  intros H.
  change ("/api/plugins/" ++ plugin ++ String slash tail)
    with ("" ++ String slash ("api" ++ String slash ("plugins" ++ String slash
            (plugin ++ String slash tail)))).
  by rewrite !split_path_name.
Qed.

#[local] Arguments String.eqb : simpl nomatch.

Ltac resolve_plugin_route :=
  unfold resolve;
  rewrite split_plugin_path by assumption;
  repeat (rewrite split_path_name by (assumption || reflexivity));
  repeat (rewrite split_path_last by (assumption || reflexivity));
  cbn;
  repeat match goal with
         | H : String.eqb ?s "" = false |- context [String.eqb ?s ""] => rewrite H
         | |- context [String.eqb "set" ?k] => destruct (String.eqb "set" k)
         end;
  cbn; try reflexivity.



Lemma resolve_set_setting plugin key :
  valid_name plugin = true → valid_name key = true →
  resolve POST ("/api/plugins/" ++ plugin ++ "/settings/" ++ key ++ "/set")
    = Resolved E.set_plugin_setting [("plugin", plugin); ("key", key)].
Proof.
  intros [Hne Hns]%valid_name_spec [Hke Hks]%valid_name_spec.
  change ("/settings/" ++ key ++ "/set")
    with (String slash ("settings" ++ String slash (key ++ String slash "set"))).
  resolve_plugin_route.
Qed.

Lemma resolve_set_settings plugin :
  valid_name plugin = true →
  resolve POST ("/api/plugins/" ++ plugin ++ "/settings/set")
    = Resolved E.set_plugin_settings [("plugin", plugin)].
Proof. intros [Hne Hns]%valid_name_spec. resolve_plugin_route. Qed.



Lemma resolve_call plugin function :
  valid_name plugin = true → valid_name function = true →
  resolve POST ("/api/plugins/" ++ plugin ++ "/call/" ++ function)
    = Resolved E.call_plugin_function [("plugin", plugin); ("function", function)].
Proof.
  intros [Hne Hns]%valid_name_spec [Hfe Hfs]%valid_name_spec.
  change ("/call/" ++ function)
    with (String slash ("call" ++ String slash function)).
  resolve_plugin_route.
Qed.



End Webserver.

(** ** Map data extraction *)

Module DataExtractor.

Import Py.

Definition DATA_FILENAME : string := "plugins/Map/data.zip".

(** The calls with an effect outside the module, in the order made. *)
Inductive Effect :=
| Warning (msg : string)
| SettingsSet (plugin key value : string)
| Rmtree (path : string)
| Makedirs (path : string)
| ExtractAll (path : string).

(** *** Paths

    A path names a place in the file tree by its components: the pieces
    between slashes, without the empty ones and without [.].  All paths of
    these sources are relative to the working directory, which is the
    place with no component. *)

Fixpoint split_slash (s : string) : list string :=
  match s with
  | EmptyString => [""]
  | String c s' =>
      if Ascii.eqb c "/"%char then "" :: split_slash s'
      else match split_slash s' with
           | [] => [String c ""]
           | piece :: pieces => String c piece :: pieces
           end
  end.

Definition segments (path : string) : list string :=
  filter (λ piece, piece ≠ "" ∧ piece ≠ ".") (split_slash path).

(** The places from the first component of [p] down to [p] itself. *)
Definition prefixes (p : list string) : list (list string) :=
  map (λ i, take i p) (seq 1 (length p)).

(** The directory a place is in. *)
Definition parent (p : list string) : list string :=
  take (length p - 1) p.


(** A member of a zip archive: a file with its content, or a directory
    entry. *)
Inductive Entry :=
| File (content : string)
| Folder.



Section Extraction.

(** [hashlib.md5(bytes).hexdigest()], the members of a zip archive in the
    order of the archive, each under the components of its sanitised name
    (none when the bytes are not a zip archive), and [Translate] are
    library functions. *)
Variable md5 : string → string.
Variable unzip : string → option (list (list string * Entry)).
Variable Translate : string → string.

(** The module global [DATA_HASH], the regular files with their content,
    the directories, and the effects so far. *)
Record World := {
  DATA_HASH : option string;
  files : gmap (list string) string;
  folders : gset (list string);
  effects : list Effect
}.

(** The bytes of [DATA_FILENAME], if the file exists. *)
Definition archive (w : World) : option string :=
  files w !! segments DATA_FILENAME.

Definition effect (e : Effect) (w : World) : World :=
  {| DATA_HASH := DATA_HASH w; files := files w; folders := folders w;
     effects := effects w ++ [e] |}.

Definition set_tree (f : gmap (list string) string) (d : gset (list string))
    (w : World) : World :=
  {| DATA_HASH := DATA_HASH w; files := f; folders := d;
     effects := effects w |}.

Definition set_DATA_HASH (h : string) (w : World) : World :=
  {| DATA_HASH := Some h; files := files w; folders := folders w;
     effects := effects w |}.

Definition is_regular_file (p : list string) (w : World) : bool :=
  bool_decide (is_Some (files w !! p)).

Definition is_dir (p : list string) (w : World) : bool :=
  bool_decide (p ∈ folders w).

(** [os.path.exists(path)]: the working directory exists, the empty path
    does not. *)
Definition exists_ (path : string) (w : World) : bool :=
  match segments path with
  | [] => negb (String.eqb path "")
  | p => is_dir p w || is_regular_file p w
  end.

(** [shutil.rmtree(path)]: the directory goes with everything in its tree,
    files and directories alike.  A regular file is refused; the working
    directory is emptied and then cannot be removed itself. *)
Definition rmtree (path : string) (w : World) : Res unit * World :=
  let dir := segments path in
  let w := effect (Rmtree path) w in
  if negb (exists_ path w) then (Raise FileNotFoundError, w)
  else if is_regular_file dir w then (Raise (OSError "NotADirectoryError"), w)
  else
    let w := set_tree (filter (λ kv, ¬ dir `prefix_of` kv.1) (files w))
                      (filter (λ p, ¬ dir `prefix_of` p) (folders w)) w in
    if decide (dir = []) then (Raise (OSError "rmdir"), w) else (Ok tt, w).

(** The directories from the first component of [p] down to [p] are made
    where they are missing; a regular file in the way is an error. *)
Definition make_all (p : list string) (w : World) : Res unit * World :=
  if existsb (λ q, is_regular_file q w) (prefixes p)
  then (Raise (OSError "NotADirectoryError"), w)
  else (Ok tt, set_tree (files w) (folders w ∪ list_to_set (prefixes p)) w).

(** [os.makedirs(path)]: the empty path cannot be made, and nothing that
    exists can be made again. *)
Definition makedirs (path : string) (w : World) : Res unit * World :=
  let w := effect (Makedirs path) w in
  if String.eqb path "" then (Raise FileNotFoundError, w)
  else if exists_ path w then (Raise (OSError "FileExistsError"), w)
  else make_all (segments path) w.

(** One member extracted below [dir]: the directories above it are made,
    then the file is written, or the directory made. *)
Definition extract (dir : list string) (member : list string * Entry)
    (w : World) : Res unit * World :=
  let target := (dir ++ member.1)%list in
  match member.2 with
  | Folder => make_all target w
  | File content =>
      match make_all (parent target) w with
      | (Ok _, w) =>
          if is_dir target w || bool_decide (target = [])
          then (Raise (OSError "IsADirectoryError"), w)
          else (Ok tt, set_tree (<[target := content]> (files w)) (folders w) w)
      | (Raise e, w) => (Raise e, w)
      end
  end.

(** The members extracted one after the other; the first failure stops
    the extraction, with what was extracted before left in place. *)
Fixpoint extract_members (dir : list string)
    (members : list (list string * Entry)) (w : World) : Res unit * World :=
  match members with
  | [] => (Ok tt, w)
  | member :: members' =>
      match extract dir member w with
      | (Ok _, w) => extract_members dir members' w
      | (Raise e, w) => (Raise e, w)
      end
  end.

(** [zipfile.ZipFile(DATA_FILENAME, 'r').extractall(path)] *)
Definition extractall (path : string) (w : World) : Res unit * World :=
  match archive w with
  | None =>
      (Raise (if is_dir (segments DATA_FILENAME) w
              then OSError "IsADirectoryError" else FileNotFoundError), w)
  | Some bytes =>
      match unzip bytes with
      | None => (Raise BadZipFile, w)
      | Some members =>
          extract_members (segments path) members (effect (ExtractAll path) w)
      end
  end.

Definition ExtractData (path : string) (w : World) : Res unit * World :=
  match (if exists_ path w then rmtree path w else (Ok tt, w)) with
  | (Raise e, w) => (Raise e, w)
  | (Ok _, w) =>
      match (if negb (exists_ path w) then makedirs path w else (Ok tt, w)) with
      | (Raise e, w) => (Raise e, w)
      | (Ok _, w) => extractall path w
      end
  end.

Definition UpdateData (path : string) (w : World) : Res bool * World :=
  match archive w with
  | None =>
      (Raise (if is_dir (segments DATA_FILENAME) w
              then OSError "IsADirectoryError" else FileNotFoundError), w)
  | Some bytes =>
      let new_hash := md5 bytes in
      match DATA_HASH w with
      | None =>
          let w := effect (Warning (Translate "map.extracting_data")) w in
          let w := effect (Warning "(No Hash)") w in
          let w := set_DATA_HASH new_hash w in
          let w := effect (SettingsSet "Map" "data_hash" new_hash) w in
          match ExtractData path w with
          | (Ok _, w) => (Ok true, w)
          | (Raise e, w) => (Raise e, w)
          end
      | Some old_hash =>
          if negb (String.eqb old_hash new_hash) then
            let w := effect (Warning (Translate "map.extracting_data")) w in
            let w := set_DATA_HASH new_hash w in
            let w := effect (SettingsSet "Map" "data_hash" new_hash) w in
            match ExtractData path w with
            | (Ok _, w) => (Ok true, w)
            | (Raise e, w) => (Raise e, w)
            end
          else (Ok false, w)
      end
  end.



(** The stored hash is absent or differs from [new_hash]. *)
Definition stale (w : World) (new_hash : string) : Prop :=
  DATA_HASH w = None ∨ ∃ old, DATA_HASH w = Some old ∧ old ≠ new_hash.




End Extraction.

(** The hash function here is a stand-in; the archive that unzips has one
    file in a sub-directory, every other content is not a zip archive. *)
Definition toy_md5 (bytes : string) : string := "md5:" ++ bytes.


Definition at_path (path : string) : list string := segments path.

(** A first start: the archive in place, no stored hash, the data
    directory left by an older version with a file in a sub-directory. *)
Definition first_start : World :=
  {| DATA_HASH := None;
     files := {[ at_path "plugins/Map/data.zip" := "PK-data";
                 at_path "plugins/Map/data/old/prefabs.json" := "old" ]};
     folders := {[ at_path "plugins"; at_path "plugins/Map";
                   at_path "plugins/Map/data"; at_path "plugins/Map/data/old" ]};
     effects := [] |}.

(** The same start with an archive that is not a zip file. *)
Definition broken_start : World :=
  {| DATA_HASH := None;
     files := {[ at_path "plugins/Map/data.zip" := "not a zip";
                 at_path "plugins/Map/data/old/prefabs.json" := "old" ]};
     folders := folders first_start;
     effects := [] |}.

(** *** Facts on paths *)








(** *** Facts on the file tree *)

Section ExtractionFacts.

Variable unzip : string → option (list (list string * Entry)).

Implicit Types (w : World) (p q dir : list string).




Lemma make_all_keeps p w :
  let r := make_all p w in
  files (snd r) = files w ∧ DATA_HASH (snd r) = DATA_HASH w ∧
  effects (snd r) = effects w ∧ folders w ⊆ folders (snd r).
Proof.
  unfold make_all. destruct (existsb _ _); simpl; repeat split; try done.
  apply union_subseteq_l.
Qed.






(** Whatever happens, an extraction touches no file outside the tree of
    its directory, and leaves the stored hash alone. *)
Lemma make_all_files p w : files (snd (make_all p w)) = files w.
Proof. apply make_all_keeps. Qed.










Section UpdateFacts.

Variable md5 : string → string.
Variable Translate : string → string.




Lemma not_stale w h : DATA_HASH w = Some h → ¬ stale w h.
Proof. intros Hh [H|(old & H & Hne)]; rewrite Hh in H; congruence. Qed.




End UpdateFacts.




(** *** Deciding the conditions on a given tree *)





End ExtractionFacts.












End DataExtractor.
(** ** The cruise-control plugin *)

Module CruiseControl.

Import Py.
#[local] Open Scope Q_scope.

(** *** Variables

    The module globals that [plugin] assigns and the locals of [plugin] are
    slots of one environment, by type.  Each local is assigned before it is
    read. *)

Inductive BVar :=
| wait_for_response
| need_to_disable_hazard_light
| wait_for_response_hazard_light
| trafficlight_allow_acceleration
| user_emergency_braking
| do_lanedetected_stop
| last_do_lanedetected_stop
| last_lanedetected
| user_accelerating
| user_braking
| lanedetected.

Inductive NVar :=
| wait_for_response_timer
| wait_for_response_hazard_light_timer
| last_speed
| last_speedlimit
| last_cruisecontrolspeed
| trafficlight_last_time_without
| trafficlight_last_time_with
| turnincoming_last_time_with
| user_emergency_braking_timer
| lanedetected_timer
| speed
| speedlimit
| cruisecontrolspeed
| user_throttle
| targetspeed.

Inductive VVar :=
| last_hazard_light
| hazard_light
| gamepaused
| trafficlight.

#[global] Instance BVar_eq_dec : EqDecision BVar.
Proof. solve_decision. Defined.
#[global] Instance NVar_eq_dec : EqDecision NVar.
Proof. solve_decision. Defined.
#[global] Instance VVar_eq_dec : EqDecision VVar.
Proof. solve_decision. Defined.

(** The nine symbol images. *)
Inductive Symbol :=
| cruisecontrol_off_set
| cruisecontrol_off_unset
| cruisecontrol_off_slowed
| cruisecontrol_on_set
| cruisecontrol_on_unset
| cruisecontrol_on_slowed
| cruisecontrol_emergency_set
| cruisecontrol_emergency_unset
| cruisecontrol_emergency_slowed.

(** The globals [UpdateSettings] sets and [plugin] only reads.  [loaded]
    tells whether [cv2.imread] found the image. *)
Record Config := {
  trafficlightdetectionisenabled : bool;
  navigationdetectionisenabled : bool;
  loaded : Symbol → bool;
  auto_enable : bool;
  stop_trafficlight : bool;
  trafficlight_accelerate : bool;
  auto_accelerate : bool;
  auto_hazard : bool;
  auto_stop : bool;
  show_symbols : bool;
  acceleration_strength : Q;
  brake_strength : Q;
  cruisespeed_turn : Q;
  cruisespeed_trafficlight : Q
}.

(** What [data["frame"]] holds: an image with a shape, or something that
    has none. *)
Inductive Frame :=
| NoImage (v : Value)
| Image (height width : Z) (pixels : nat).

(** The frame dictionary: the entry ["frame"] and the other entries. *)
Record Data := {
  entries : list (string * Value);
  frame : option Frame
}.

Record Env := {
  B : BVar → bool;
  N : NVar → Q;
  V : VVar → Value;
  data : Data
}.

Definition setB (x : BVar) (b : bool) (s : Env) : Env :=
  {| B := λ y, if decide (y = x) then b else B s y;
     N := N s; V := V s; data := data s |}.

Definition setN (x : NVar) (q : Q) (s : Env) : Env :=
  {| B := B s; N := λ y, if decide (y = x) then q else N s y;
     V := V s; data := data s |}.

Definition setV (x : VVar) (v : Value) (s : Env) : Env :=
  {| B := B s; N := N s; V := λ y, if decide (y = x) then v else V s y;
     data := data s |}.

Definition set_data (d : Data) (s : Env) : Env :=
  {| B := B s; N := N s; V := V s; data := d |}.

(** *** Statements *)

Definition C (A : Type) : Type := Env → Res A * Env.

Definition ret {A} (a : A) : C A := λ s, (Ok a, s).

Definition bind {A X} (m : C A) (f : A → C X) : C X :=
  λ s, match m s with
       | (Ok a, s') => f a s'
       | (Raise e, s') => (Raise e, s')
       end.

Definition lift {A} (r : Res A) : C A := λ s, (r, s).

(** [try: m  except: handler] *)
Definition try_except {A} (m : C A) (handler : C A) : C A :=
  λ s, match m s with
       | (Raise _, s') => handler s'
       | o => o
       end.

Notation "x <- m ;; k" := (bind m (λ x, k))
  (at level 62, m at next level, right associativity).
Notation "m ;;; k" := (bind m (λ _, k))
  (at level 62, right associativity).

(** [if cond: m] and [if cond: m else: m'], the condition read from the
    environment. *)
Definition when (cond : Env → bool) (m : C unit) : C unit :=
  λ s, if cond s then m s else (Ok tt, s).

Definition ifelse {A} (cond : Env → bool) (m m' : C A) : C A :=
  λ s, if cond s then m s else m' s.

(** [x = e] *)
Definition assignB (x : BVar) (e : Env → bool) : C unit :=
  λ s, (Ok tt, setB x (e s) s).
Definition assignN (x : NVar) (e : Env → Q) : C unit :=
  λ s, (Ok tt, setN x (e s) s).
Definition assignV (x : VVar) (e : Env → Value) : C unit :=
  λ s, (Ok tt, setV x (e s) s).

(** [data[k]] *)
Definition data_get (k : string) : C Value :=
  λ s, match dict_get k (entries (data s)) with
       | Some v => (Ok v, s)
       | None => (Raise (KeyError k), s)
       end.

(** [data[k] = v] *)
Definition data_set (k : string) (v : Value) : C unit :=
  λ s, (Ok tt, set_data {| entries := dict_set k v (entries (data s));
                           frame := frame (data s) |} s).

(** [data["sdk"][k] = v] *)
Definition sdk_set (k : string) (v : Value) : C unit :=
  sdk <- data_get "sdk" ;;
  sdk <- lift (setitem sdk k v) ;;
  data_set "sdk" sdk.

(** [data["api"][group][field]] *)
Definition api (group field : string) : C Value :=
  a <- data_get "api" ;;
  g <- lift (getitem a group) ;;
  lift (getitem g field).

(** [data["api"]["truckFloat"][field]] as a number. *)
Definition truckFloat (field : string) : C Q :=
  v <- api "truckFloat" field ;;
  lift (as_num v).

(** [round(data["api"]["truckFloat"][field]*3.6, 1)] *)
Definition kmh (field : string) : C Q :=
  v <- truckFloat field ;;
  ret (round1 (v * 3.6)).

Definition Qneq_bool (x y : Q) : bool := negb (Qeq_bool x y).

(** *** The per-frame function *)

Section PerFrame.

Variable cfg : Config.

(** [DefaultSteering.enabled], [time.time()] at the start of the call, and
    the image operations of lines 434-440: the symbol resized and written
    into the frame, higher up when no indicator is on. *)
Variable steering : bool.
Variable current_time : Q.
Variable paste : Symbol → bool → Frame → Res Frame.

(** Lines 182-213. *)
Definition read_body : C unit :=
  v <- kmh "speed" ;;
  assignN speed (λ _, v) ;;;
  when (λ s, Qlt_bool 5 (N s speed) && Qlt_bool (N s last_speed) (N s speed))
    (assignB user_emergency_braking (λ _, false)) ;;;
  assignN last_speed (λ s, N s speed) ;;;
  v <- kmh "speedLimit" ;;
  assignN speedlimit (λ _, v) ;;;
  when (λ s, Qneq_bool (N s speedlimit) 0 && Qlt_bool 0 (N s speedlimit))
    (assignN last_speedlimit (λ s, N s speedlimit)) ;;;
  v <- kmh "cruiseControlSpeed" ;;
  assignN cruisecontrolspeed (λ _, v) ;;;
  v <- truckFloat "userThrottle" ;;
  assignB user_accelerating (λ _, Qlt_bool 0.1 v) ;;;
  v <- truckFloat "userThrottle" ;;
  assignN user_throttle (λ _, v) ;;;
  v <- truckFloat "userBrake" ;;
  assignB user_braking (λ _, Qlt_bool 0.1 v) ;;;
  v <- truckFloat "userBrake" ;;
  when (λ s, Qlt_bool 0.9 v && Qlt_bool 30 (N s speed) && steering)
    (assignB user_emergency_braking (λ _, true)) ;;;
  v <- api "truckBool" "lightsHazard" ;;
  assignV hazard_light (λ _, v) ;;;
  a <- data_get "api" ;;
  v <- lift (getitem a "pause") ;;
  assignV gamepaused (λ _, v).

Definition read_fallback : C unit :=
  assignN speed (λ s, N s last_speed) ;;;
  assignN speedlimit (λ s, N s last_speedlimit) ;;;
  assignN cruisecontrolspeed (λ _, 0) ;;;
  assignB user_accelerating (λ _, false) ;;;
  assignN user_throttle (λ _, 0) ;;;
  assignB user_braking (λ _, false) ;;;
  assignB user_emergency_braking (λ _, false) ;;;
  assignV hazard_light (λ _, PBool false) ;;;
  assignV gamepaused (λ _, PBool false).

Definition read_telemetry : C unit := try_except read_body read_fallback.

(** Lines 215-259. *)
Definition choose_target : C unit :=
  ifelse (λ s, Qneq_bool (N s speedlimit) 0 && Qlt_bool 0 (N s speedlimit))
    (assignN targetspeed (λ s, N s speedlimit))
    (ifelse (λ s, Qneq_bool (N s last_speedlimit) 0 && Qlt_bool 0 (N s last_speedlimit))
       (assignN targetspeed (λ s, N s last_speedlimit))
       (assignN targetspeed (λ _, 30))) ;;;
  (if trafficlightdetectionisenabled cfg then
     try_except
       (v <- data_get "TrafficLightDetection" ;; assignV trafficlight (λ _, v))
       (assignV trafficlight (λ _, PStr "---"))
   else assignV trafficlight (λ _, PStr "Off")) ;;;
  (if navigationdetectionisenabled cfg then
     try_except
       (nav <- data_get "NavigationDetection" ;;
        v <- lift (getitem nav "turnincoming") ;;
        when (λ _, eqb v (PBool true))
          (assignN turnincoming_last_time_with (λ _, current_time)) ;;;
        nav <- data_get "NavigationDetection" ;;
        v <- lift (getitem nav "lanedetected") ;;
        when (λ _, eqb v (PBool true))
          (assignN lanedetected_timer (λ _, current_time)))
       (ret tt)
   else ret tt) ;;;
  when (λ s, Qlt_bool (current_time - 1) (N s turnincoming_last_time_with))
    (assignN targetspeed (λ _, cruisespeed_turn cfg)) ;;;
  assignB lanedetected
    (λ s, Qlt_bool (current_time - 1) (N s lanedetected_timer)) ;;;
  ifelse (λ s, neqb (V s trafficlight) (PStr "Red"))
    (assignN trafficlight_last_time_without (λ _, current_time))
    (assignN trafficlight_last_time_with (λ _, current_time)) ;;;
  when (λ s, Qlt_bool (N s trafficlight_last_time_without) (current_time - 0.5)
             || Qlt_bool (current_time - 0.5) (N s trafficlight_last_time_with))
    (when (λ _, stop_trafficlight cfg)
       (assignN targetspeed (λ _, cruisespeed_trafficlight cfg))) ;;;
  when (λ s, Qeq_bool (N s targetspeed) 0 && Qlt_bool 10 (N s speed))
    (assignB trafficlight_allow_acceleration (λ _, true)) ;;;
  when (λ s, Qlt_bool (N s wait_for_response_timer) (current_time - 1)
             && B s wait_for_response)
    (assignB wait_for_response (λ _, false)) ;;;
  when (λ s, Qneq_bool (N s last_cruisecontrolspeed) (N s cruisecontrolspeed))
    (assignB wait_for_response (λ _, false)).

(** Lines 261-264. *)
Definition ensure_sdk : C unit :=
  try_except (data_get "sdk" ;;; ret tt) (data_set "sdk" (PDict [])).

(** The test of line 265. *)
Definition driving (s : Env) : bool :=
  eqb (V s gamepaused) (PBool false) && steering.

Definition accelerate : C unit :=
  sdk_set "acceleration" (PNum (acceleration_strength cfg)) ;;;
  when (λ s, Qeq_bool (N s user_throttle) (acceleration_strength cfg))
    (assignB user_accelerating (λ _, false)) ;;;
  sdk_set "brake" (PNum 0).

(** Lines 265-296. *)
Definition control : C unit :=
  ifelse driving
    (when (λ s, Qlt_bool 30 (N s speed) && Qeq_bool (N s cruisecontrolspeed) 0
                && auto_enable cfg && negb (B s wait_for_response)
                && Qneq_bool (N s targetspeed) 0)
       (sdk_set "CruiseControl" (PBool true) ;;;
        assignB wait_for_response (λ _, true) ;;;
        assignN wait_for_response_timer (λ _, current_time) ;;;
        sdk_set "acceleration" (PNum 0) ;;;
        assignB trafficlight_allow_acceleration (λ _, false)) ;;;
     when (λ s, Qneq_bool (N s cruisecontrolspeed) 0
                && Qlt_bool (N s cruisecontrolspeed) (N s targetspeed)
                && negb (B s wait_for_response)
                && Qneq_bool (N s targetspeed) 0)
       (sdk_set "CruiseControlIncrease" (PBool true) ;;;
        assignB wait_for_response (λ _, true) ;;;
        assignN wait_for_response_timer (λ _, current_time)) ;;;
     when (λ s, Qneq_bool (N s cruisecontrolspeed) 0
                && Qlt_bool (N s targetspeed) (N s cruisecontrolspeed)
                && negb (B s wait_for_response)
                && Qneq_bool (N s targetspeed) 0)
       (sdk_set "CruiseControlDecrease" (PBool true) ;;;
        assignB wait_for_response (λ _, true) ;;;
        assignN wait_for_response_timer (λ _, current_time)) ;;;
     when (λ s, Qlt_bool (N s speed) 30 && Qeq_bool (N s cruisecontrolspeed) 0
                && Qneq_bool (N s targetspeed) 0
                && trafficlight_accelerate cfg
                && B s trafficlight_allow_acceleration
                && negb (B s user_emergency_braking)
                && negb (B s do_lanedetected_stop))
       accelerate ;;;
     when (λ s, Qeq_bool (N s targetspeed) 0 && Qlt_bool 1 (N s speed)
                && negb (B s user_accelerating))
       (sdk_set "acceleration" (PNum 0) ;;;
        sdk_set "brake" (PNum (brake_strength cfg)) ;;;
        assignN user_emergency_braking_timer (λ _, current_time)) ;;;
     when (λ s, Qlt_bool (N s speed) 30 && Qeq_bool (N s cruisecontrolspeed) 0
                && Qneq_bool (N s targetspeed) 0
                && auto_accelerate cfg
                && negb (B s user_emergency_braking)
                && negb (B s do_lanedetected_stop))
       accelerate)
    (sdk_set "acceleration" (PNum 0) ;;;
     sdk_set "brake" (PNum 0)).

Definition await_hazard_light : C unit :=
  assignB wait_for_response_hazard_light (λ _, true) ;;;
  assignN wait_for_response_hazard_light_timer (λ _, current_time).

(** Lines 298-313. *)
Definition hazard : C unit :=
  when (λ _, auto_hazard cfg)
    (when (λ s, Qlt_bool (current_time - 1) (N s user_emergency_braking_timer))
       (assignB user_emergency_braking (λ _, false)) ;;;
     when (λ s, neqb (V s hazard_light) (V s last_hazard_light)
                || Qlt_bool (N s wait_for_response_hazard_light_timer)
                            (current_time - 1))
       (assignB wait_for_response_hazard_light (λ _, false)) ;;;
     when (λ s, neqb (V s hazard_light) (V s last_hazard_light)
                && eqb (V s hazard_light) (PBool false))
       (assignB need_to_disable_hazard_light (λ _, false)) ;;;
     when (λ s, B s user_emergency_braking
                && eqb (V s hazard_light) (PBool false)
                && negb (B s wait_for_response_hazard_light))
       (await_hazard_light ;;;
        assignB need_to_disable_hazard_light (λ _, true)) ;;;
     when (λ s, negb (B s user_emergency_braking)
                && eqb (V s hazard_light) (PBool true)
                && negb (B s wait_for_response_hazard_light)
                && B s need_to_disable_hazard_light)
       await_hazard_light).

(** Lines 315-330. *)
Definition lane_stop : C unit :=
  when (λ _, auto_stop cfg)
    (when (λ s, driving s && negb (B s lanedetected) && B s last_lanedetected
                && negb (B s user_accelerating))
       (assignB do_lanedetected_stop (λ _, true)) ;;;
     when (λ s, B s user_accelerating)
       (assignB do_lanedetected_stop (λ _, false)) ;;;
     when (λ s, B s do_lanedetected_stop)
       (when (λ s, Qlt_bool 1 (N s speed)) (sdk_set "brake" (PNum 0.1)) ;;;
        when (λ s, eqb (V s hazard_light) (PBool false)
                   && negb (B s wait_for_response_hazard_light))
          await_hazard_light) ;;;
     when (λ s, negb (B s do_lanedetected_stop) && B s last_do_lanedetected_stop
                && eqb (V s hazard_light) (PBool true))
       await_hazard_light).

(** [symbol = image.copy()] *)
Definition copy (image : Symbol) : Res Symbol :=
  if loaded cfg image then Ok image else Raise AttributeError.

Definition assign (image : Symbol) (symbol : Res Symbol) : Res Symbol :=
  res_bind symbol (λ _, copy image).

Definition assign_if (cond : bool) (image : Symbol) (symbol : Res Symbol) :
    Res Symbol :=
  if cond then assign image symbol else symbol.

(** Lines 365-391 and 406-432: the symbol while cruise control is off,
    from the three images of one colour. *)
Definition pick_off (s : Env) (turnincoming : Value)
    (set unset slowed : Symbol) (symbol : Res Symbol) : Res Symbol :=
  let set_or_slowed symbol :=
    if eqb turnincoming (PBool true) then assign slowed symbol
    else assign set symbol in
  let symbol :=
    if Qeq_bool (N s cruisecontrolspeed) (N s targetspeed) then
      if auto_accelerate cfg && steering then set_or_slowed symbol
      else if trafficlight_accelerate cfg && B s trafficlight_allow_acceleration
           then set_or_slowed symbol
           else assign unset symbol
    else if trafficlight_accelerate cfg && B s trafficlight_allow_acceleration
         then set_or_slowed symbol
         else if auto_accelerate cfg && steering then set_or_slowed symbol
              else assign unset symbol in
  assign_if (B s user_braking || B s user_accelerating) unset symbol.

(** Lines 352-432. *)
Definition pick_symbol (s : Env) (turnincoming : Value) : Res Symbol :=
  let symbol := copy cruisecontrol_on_set in
  let symbol :=
    if Qneq_bool (N s cruisecontrolspeed) 0 then
      let symbol :=
        if Qeq_bool (N s cruisecontrolspeed) (N s targetspeed) && steering
        then assign cruisecontrol_on_set symbol
        else assign cruisecontrol_on_unset symbol in
      let symbol :=
        assign_if (Qneq_bool (N s cruisecontrolspeed) (N s targetspeed))
                  cruisecontrol_on_unset symbol in
      let symbol :=
        assign_if (eqb turnincoming (PBool true)) cruisecontrol_on_slowed symbol in
      assign_if (B s user_braking || B s user_accelerating)
                cruisecontrol_on_unset symbol
    else
      pick_off s turnincoming cruisecontrol_off_set cruisecontrol_off_unset
               cruisecontrol_off_slowed symbol in
  if B s user_emergency_braking then
    if Qneq_bool (N s cruisecontrolspeed) 0 then
      let symbol :=
        if Qeq_bool (N s cruisecontrolspeed) (N s targetspeed) && steering
        then assign cruisecontrol_emergency_set symbol
        else assign cruisecontrol_on_unset symbol in
      let symbol :=
        assign_if (Qneq_bool (N s cruisecontrolspeed) (N s targetspeed))
                  cruisecontrol_emergency_unset symbol in
      let symbol :=
        assign_if (eqb turnincoming (PBool true))
                  cruisecontrol_emergency_slowed symbol in
      assign_if (B s user_braking || B s user_accelerating)
                cruisecontrol_emergency_unset symbol
    else
      pick_off s turnincoming cruisecontrol_emergency_set
               cruisecontrol_emergency_unset cruisecontrol_emergency_slowed
               symbol
  else symbol.

(** Lines 333-442; the result is [false] when the block ends the call with
    [return data]. *)
Definition overlay : C bool :=
  λ s, match frame (data s) with
       | None | Some (NoImage _) => (Ok false, s)
       | Some (Image height width pixels) =>
           (indicators <-
              try_except
                (l <- api "truckBool" "blinkerLeftActive" ;;
                 r <- api "truckBool" "blinkerRightActive" ;;
                 ret (l, r))
                (ret (PBool false, PBool false)) ;;
            turnincoming <-
              try_except
                (nav <- data_get "NavigationDetection" ;;
                 lift (getitem nav "turnincoming"))
                (ret (PBool false)) ;;
            symbol <- (λ s, (pick_symbol s turnincoming, s)) ;;
            f <- lift (paste symbol
                         (truthy (fst indicators) || truthy (snd indicators))
                         (Image height width pixels)) ;;
            (λ s, (Ok tt, set_data {| entries := entries (data s);
                                      frame := Some f |} s)) ;;;
            ret true) s
       end.

(** Lines 444-447. *)
Definition remember : C unit :=
  assignB last_lanedetected (λ s, B s lanedetected) ;;;
  assignB last_do_lanedetected_stop (λ s, B s do_lanedetected_stop) ;;;
  assignV last_hazard_light (λ s, V s hazard_light) ;;;
  assignN last_cruisecontrolspeed (λ s, N s cruisecontrolspeed).

Definition plugin : C Data :=
  read_telemetry ;;;
  choose_target ;;;
  ensure_sdk ;;;
  control ;;;
  hazard ;;;
  lane_stop ;;;
  go_on <- (if show_symbols cfg then overlay else ret true) ;;
  (if go_on : bool then remember else ret tt) ;;;
  λ s, (Ok (data s), s).

End PerFrame.

(** *** [UpdateSettings] *)

(** What [settings.GetSettings] and [cv2.imread] give [UpdateSettings]:
    the enabled plugins, the CruiseControl settings with their defaults
    applied, and whether each image file could be read. *)
Record Stored := {
  enabled_plugins : list string;
  image_found : Symbol → bool;
  stored_auto_enable : bool;
  stored_stop_trafficlight : bool;
  stored_trafficlight_accelerate : bool;
  stored_auto_accelerate : bool;
  stored_auto_hazard : bool;
  stored_auto_stop : bool;
  stored_show_symbols : bool;
  stored_acceleration : Q;
  stored_brake : Q
}.

Definition UpdateSettings_config (st : Stored) : Config :=
  {| trafficlightdetectionisenabled :=
       bool_decide ("TrafficLightDetection" ∈ enabled_plugins st);
     navigationdetectionisenabled :=
       bool_decide ("NavigationDetection" ∈ enabled_plugins st);
     loaded := image_found st;
     auto_enable := stored_auto_enable st;
     stop_trafficlight := stored_stop_trafficlight st;
     trafficlight_accelerate := stored_trafficlight_accelerate st;
     auto_accelerate := stored_auto_accelerate st;
     auto_hazard := stored_auto_hazard st;
     auto_stop := stored_auto_stop st;
     show_symbols := stored_show_symbols st;
     acceleration_strength := stored_acceleration st / 100;
     brake_strength := stored_brake st / 100;
     cruisespeed_turn := 30;
     cruisespeed_trafficlight := 0 |}.

(** The variables as [UpdateSettings] leaves them, before a first frame
    [d]. *)
Definition UpdateSettings_env (d : Data) : Env :=
  {| B := λ _, false; N := λ _, 0; V := λ _, PBool false; data := d |}.

(** The next call: the globals as the last call left them, a new frame. *)
Definition next_frame (d : Data) (s : Env) : Env := set_data d s.

(** *** Reading the result *)

(** [data["sdk"][k]] in a frame dictionary. *)
Definition sdk_value (k : string) (d : Data) : option Value :=
  match dict_get "sdk" (entries d) with
  | Some (PDict sdk) => dict_get k sdk
  | _ => None
  end.

(** [data["sdk"]] is missing or a dictionary. *)
Definition sdk_writable (d : Data) : bool :=
  match dict_get "sdk" (entries d) with
  | None | Some (PDict _) => true
  | Some _ => false
  end.

(** Line 265 fails: the game is paused or steering is disabled. *)
Definition paused_or_disabled (steering : bool) (s : Env) : bool :=
  negb (driving steering s).

(** The images were all found and the image operations go through, or no
    symbol is to be shown. *)
Definition overlay_safe (cfg : Config)
    (paste : Symbol → bool → Frame → Res Frame) : Prop :=
  show_symbols cfg = false ∨
  ((∀ image, loaded cfg image = true) ∧
   (∀ symbol indicator f, ∃ f', paste symbol indicator f = Ok f')).

(** *** Example frames *)

Definition telemetry (speed_ms throttle brake_ : Q) (pause : bool) : Value :=
  PDict [("truckFloat", PDict [("speed", PNum speed_ms);
                               ("speedLimit", PNum 25);
                               ("cruiseControlSpeed", PNum 0);
                               ("userThrottle", PNum throttle);
                               ("userBrake", PNum brake_)]);
         ("truckBool", PDict [("lightsHazard", PBool false);
                              ("blinkerLeftActive", PBool false);
                              ("blinkerRightActive", PBool false)]);
         ("pause", PBool pause)].

(** A frame at 20 m/s (72 km/h), no pedal pressed, with or without a lane
    seen by NavigationDetection, and a 1920x1080 image. *)
Definition frame_at (lane pause : bool) : Data :=
  {| entries := [("api", telemetry 20 0 0 pause);
                 ("NavigationDetection",
                  PDict [("turnincoming", PBool false);
                         ("lanedetected", PBool lane)])];
     frame := Some (Image 1080 1920 0) |}.

(** A frame with no telemetry at all. *)
Definition blank_frame : Data := {| entries := []; frame := None |}.

(** Stored settings: the defaults, but with [auto_stop] switched on and
    NavigationDetection enabled. *)
Definition stored_auto_stop_on : Stored :=
  {| enabled_plugins := ["NavigationDetection"; "CruiseControl"];
     image_found := λ _, true;
     stored_auto_enable := true; stored_stop_trafficlight := true;
     stored_trafficlight_accelerate := true; stored_auto_accelerate := false;
     stored_auto_hazard := true; stored_auto_stop := true;
     stored_show_symbols := true;
     stored_acceleration := 50; stored_brake := 100 |}.

Definition no_paste (_ : Symbol) (_ : bool) (f : Frame) : Res Frame := Ok f.

Definition example_config : Config := UpdateSettings_config stored_auto_stop_on.

(** Two calls two seconds apart, steering enabled: a lane is seen, then the
    lane is lost.  The variables after the second call. *)
Definition lane_lost : Env :=
  let s0 := UpdateSettings_env (frame_at true false) in
  let s1 := snd (plugin example_config true 1000 no_paste s0) in
  snd (plugin example_config true 1002 no_paste
         (next_frame (frame_at false false) s1)).

(** The third call, two seconds later, with the game paused. *)
Definition paused_call : Res Data * Env :=
  plugin example_config true 1004 no_paste
    (next_frame (frame_at false true) lane_lost).

(** *** Reasoning about statements

    [steps I R m]: from an environment where [I] holds, [m] ends, normally
    or by raising, in one where [I] holds and that is [R]-related to the
    first.  [total I m]: from such an environment [m] does not raise. *)

Definition steps (I : Env → Prop) (R : Env → Env → Prop) {A} (m : C A) : Prop :=
  ∀ s, I s → I (snd (m s)) ∧ R s (snd (m s)).

Definition total (I : Env → Prop) {A} (m : C A) : Prop :=
  ∀ s, I s → ∃ a, fst (m s) = Ok a.

(** [s'] differs from [s] at most in the listed variables: same frame
    dictionary, same other variables. *)
Definition only (bs : list BVar) (ns : list NVar) (vs : list VVar)
    (s s' : Env) : Prop :=
  data s' = data s ∧
  (∀ x, x ∉ bs → B s' x = B s x) ∧
  (∀ x, x ∉ ns → N s' x = N s x) ∧
  (∀ x, x ∉ vs → V s' x = V s x).

(** [data["sdk"]] is a dictionary. *)
Definition sdk_present (s : Env) : Prop :=
  ∃ sdk, dict_get "sdk" (entries (data s)) = Some (PDict sdk).

(** [s'] has the entries of [s] other than ["sdk"], and the same
    variables as far as [only] says. *)
Definition same_entries (s s' : Env) : Prop :=
  ∀ k, k ≠ "sdk" → dict_get k (entries (data s')) = dict_get k (entries (data s)).

(** [s'] has the entries of [s]; the image may differ. *)
Definition kept_entries (s s' : Env) : Prop :=
  entries (data s') = entries (data s).

Section Logic.

Variable I : Env → Prop.
Variable R : Env → Env → Prop.
Hypothesis R_refl : ∀ s, R s s.
Hypothesis R_trans : ∀ a b c, R a b → R b c → R a c.

Lemma steps_ret {A} (a : A) : steps I R (ret a).
Proof. intros s Hs. by split. Qed.

Lemma steps_lift {A} (r : Res A) : steps I R (lift r).
Proof. intros s Hs. by split. Qed.

Lemma steps_bind {A X} (m : C A) (f : A → C X) :
  steps I R m → (∀ a, steps I R (f a)) → steps I R (bind m f).
Proof.
  intros Hm Hf s Hs. unfold bind. destruct (Hm s Hs) as [HI HR].
  destruct (m s) as [[a|e] s']; simpl in *; [|done].
  destruct (Hf a s' HI) as [HI' HR']. split; [done|]. by eapply R_trans.
Qed.

Lemma steps_try_except {A} (m handler : C A) :
  steps I R m → steps I R handler → steps I R (try_except m handler).
Proof.
  intros Hm Hh s Hs. unfold try_except. destruct (Hm s Hs) as [HI HR].
  destruct (m s) as [[a|e] s']; simpl in *; [done|].
  destruct (Hh s' HI) as [HI' HR']. split; [done|]. by eapply R_trans.
Qed.

Lemma steps_when cond (m : C unit) : steps I R m → steps I R (when cond m).
Proof.
  intros Hm s Hs. unfold when. destruct (cond s); [by apply Hm|by split].
Qed.

Lemma steps_ifelse {A} cond (m m' : C A) :
  steps I R m → steps I R m' → steps I R (ifelse cond m m').
Proof.
  intros Hm Hm' s Hs. unfold ifelse. destruct (cond s); [by apply Hm|by apply Hm'].
Qed.

Lemma steps_if {A} (b : bool) (m m' : C A) :
  steps I R m → steps I R m' → steps I R (if b then m else m').
Proof. by destruct b. Qed.

Lemma steps_data_get k : steps I R (data_get k).
Proof.
  intros s Hs. unfold data_get. by destruct (dict_get k _).
Qed.

Lemma total_ret {A} (a : A) : total I (ret a).
Proof. intros s Hs. by exists a. Qed.

Lemma total_bind {A X} (m : C A) (f : A → C X) :
  steps I R m → total I m → (∀ a, total I (f a)) → total I (bind m f).
Proof.
  intros Hs Hm Hf s HI. unfold bind. destruct (Hm s HI) as [a Ha].
  destruct (Hs s HI) as [HI' _].
  destruct (m s) as [[a'|e] s']; simpl in *; [|done]. by apply Hf.
Qed.

Lemma total_try_except {A} (m handler : C A) :
  steps I R m → total I handler → total I (try_except m handler).
Proof.
  intros Hs Hh s HI. unfold try_except. destruct (Hs s HI) as [HI' _].
  destruct (m s) as [[a|e] s']; simpl in *; [by exists a|]. by apply Hh.
Qed.

Lemma total_when cond (m : C unit) : total I m → total I (when cond m).
Proof.
  intros Hm s Hs. unfold when. destruct (cond s); [by apply Hm|by exists tt].
Qed.

Lemma total_ifelse {A} cond (m m' : C A) :
  total I m → total I m' → total I (ifelse cond m m').
Proof.
  intros Hm Hm' s Hs. unfold ifelse. destruct (cond s); [by apply Hm|by apply Hm'].
Qed.

Lemma total_if {A} (b : bool) (m m' : C A) :
  total I m → total I m' → total I (if b then m else m').
Proof. by destruct b. Qed.

Lemma steps_assignB x e :
  (∀ s b, I s → I (setB x b s) ∧ R s (setB x b s)) → steps I R (assignB x e).
Proof. intros H s Hs. by apply H. Qed.

Lemma steps_assignN x e :
  (∀ s q, I s → I (setN x q s) ∧ R s (setN x q s)) → steps I R (assignN x e).
Proof. intros H s Hs. by apply H. Qed.

Lemma steps_assignV x e :
  (∀ s v, I s → I (setV x v s) ∧ R s (setV x v s)) → steps I R (assignV x e).
Proof. intros H s Hs. by apply H. Qed.

Lemma total_assignB x e : total I (assignB x e).
Proof. intros s Hs. by exists tt. Qed.

Lemma total_assignN x e : total I (assignN x e).
Proof. intros s Hs. by exists tt. Qed.

Lemma total_assignV x e : total I (assignV x e).
Proof. intros s Hs. by exists tt. Qed.

(** A statement that neither raises nor breaks [I] runs to an end. *)
Lemma runs {A} (m : C A) s :
  steps I R m → total I m → I s →
  ∃ a s', m s = (Ok a, s') ∧ I s' ∧ R s s'.
Proof.
  intros Hs Ht HI. destruct (Ht s HI) as [a Ha]. destruct (Hs s HI) as [HI' HR].
  destruct (m s) as [r s'] eqn:E. simpl in *. subst r. by exists a, s'.
Qed.

End Logic.

Lemma only_refl bs ns vs s : only bs ns vs s s.
Proof. by repeat split. Qed.

Lemma only_trans bs ns vs a b c :
  only bs ns vs a b → only bs ns vs b c → only bs ns vs a c.
Proof.
  intros (Hd & HB & HN & HV) (Hd' & HB' & HN' & HV'). repeat split.
  - by rewrite Hd'.
  - intros x Hx. by rewrite HB', HB.
  - intros x Hx. by rewrite HN', HN.
  - intros x Hx. by rewrite HV', HV.
Qed.

Lemma only_setB bs ns vs x b s : x ∈ bs → only bs ns vs s (setB x b s).
Proof.
  intros Hx. repeat split. intros y Hy. simpl.
  destruct (decide (y = x)) as [->|]; done.
Qed.

Lemma only_setN bs ns vs x q s : x ∈ ns → only bs ns vs s (setN x q s).
Proof.
  intros Hx. repeat split. intros y Hy. simpl.
  destruct (decide (y = x)) as [->|]; done.
Qed.

Lemma only_setV bs ns vs x v s : x ∈ vs → only bs ns vs s (setV x v s).
Proof.
  intros Hx. repeat split. intros y Hy. simpl.
  destruct (decide (y = x)) as [->|]; done.
Qed.

Lemma kept_entries_refl s : kept_entries s s.
Proof. done. Qed.

Lemma kept_entries_trans a b c :
  kept_entries a b → kept_entries b c → kept_entries a c.
Proof. unfold kept_entries. congruence. Qed.

Lemma same_entries_refl s : same_entries s s.
Proof. by intros k Hk. Qed.

Lemma same_entries_trans a b c :
  same_entries a b → same_entries b c → same_entries a c.
Proof. intros H1 H2 k Hk. by rewrite H2, H1. Qed.

(** The structure of a statement, taken apart. *)
Ltac steps_with refl trans side leaf :=
  repeat first
    [ leaf
    | apply steps_ret; apply refl
    | apply steps_lift; apply refl
    | apply steps_data_get; apply refl
    | apply steps_bind; [apply trans | | intros ?]
    | apply steps_try_except; [apply trans | | ]
    | apply steps_when; [apply refl | ]
    | apply steps_ifelse
    | apply steps_if
    | apply steps_assignB; side
    | apply steps_assignN; side
    | apply steps_assignV; side ].

Ltac total_with R refl trans side leaf tleaf :=
  repeat first
    [ tleaf
    | apply total_ret
    | apply total_assignB
    | apply total_assignN
    | apply total_assignV
    | apply total_when
    | apply total_ifelse
    | apply total_if
    | apply (total_try_except _ R); [steps_with refl trans side leaf | ]
    | apply (total_bind _ R); [steps_with refl trans side leaf | | intros ?] ].

(** *** What each part of [plugin] touches *)

Ltac only_side :=
  intros ? ? ?; split;
  [ done
  | first [apply only_setB | apply only_setN | apply only_setV];
    by repeat constructor ].

Ltac only_steps :=
  steps_with only_refl only_trans only_side fail.

Ltac only_total bs ns vs :=
  total_with (only bs ns vs) only_refl only_trans only_side fail fail.

Section PerFrameFacts.

Variable cfg : Config.
Variable steering : bool.
Variable current_time : Q.
Variable paste : Symbol → bool → Frame → Res Frame.

(** A property of the frame dictionary alone. *)
Variable P : Data → Prop.
Let I : Env → Prop := λ s, P (data s).

Definition read_bs : list BVar :=
  [user_emergency_braking; user_accelerating; user_braking].
Definition read_ns : list NVar :=
  [speed; last_speed; speedlimit; last_speedlimit; cruisecontrolspeed;
   user_throttle].
Definition read_vs : list VVar := [hazard_light; gamepaused].

Lemma read_telemetry_steps :
  steps I (only read_bs read_ns read_vs) (read_telemetry steering).
Proof.
  unfold read_telemetry, read_body, read_fallback, kmh, truckFloat, api.
  only_steps.
Qed.

Lemma read_telemetry_total : total I (read_telemetry steering).
Proof.
  unfold read_telemetry.
  apply (total_try_except _ (only read_bs read_ns read_vs)).
  - unfold read_body, kmh, truckFloat, api. only_steps.
  - unfold read_fallback. only_total read_bs read_ns read_vs.
Qed.

Definition target_bs : list BVar :=
  [lanedetected; trafficlight_allow_acceleration; wait_for_response].
Definition target_ns : list NVar :=
  [targetspeed; turnincoming_last_time_with; lanedetected_timer;
   trafficlight_last_time_without; trafficlight_last_time_with].
Definition target_vs : list VVar := [trafficlight].

Lemma choose_target_steps :
  steps I (only target_bs target_ns target_vs) (choose_target cfg current_time).
Proof. unfold choose_target. only_steps. Qed.

Lemma choose_target_total : total I (choose_target cfg current_time).
Proof. unfold choose_target. only_total target_bs target_ns target_vs. Qed.

Definition hazard_bs : list BVar :=
  [user_emergency_braking; wait_for_response_hazard_light;
   need_to_disable_hazard_light].
Definition hazard_ns : list NVar := [wait_for_response_hazard_light_timer].

Lemma hazard_steps :
  steps I (only hazard_bs hazard_ns []) (hazard cfg current_time).
Proof. unfold hazard, await_hazard_light. only_steps. Qed.

Lemma hazard_total : total I (hazard cfg current_time).
Proof. unfold hazard, await_hazard_light. only_total hazard_bs hazard_ns (@nil VVar). Qed.

Definition remember_bs : list BVar :=
  [last_lanedetected; last_do_lanedetected_stop].

Lemma remember_steps :
  steps I (only remember_bs [last_cruisecontrolspeed] [last_hazard_light])
        remember.
Proof. unfold remember. only_steps. Qed.

Lemma remember_total : total I remember.
Proof.
  unfold remember.
  only_total remember_bs [last_cruisecontrolspeed] [last_hazard_light].
Qed.

End PerFrameFacts.

Ltac entries_side :=
  intros ? ? ?; split; [done | by intros ? ?].

Section SdkFacts.

Variable cfg : Config.
Variable steering : bool.
Variable current_time : Q.
Variable paste : Symbol → bool → Frame → Res Frame.

Lemma sdk_set_run k v s sdk :
  dict_get "sdk" (entries (data s)) = Some (PDict sdk) →
  sdk_set k v s
    = (Ok tt, set_data {| entries := dict_set "sdk" (PDict (dict_set k v sdk))
                                       (entries (data s));
                          frame := frame (data s) |} s).
Proof.
  intros H. unfold sdk_set, bind, data_get. rewrite H. reflexivity.
Qed.

Lemma sdk_set_steps k v : steps sdk_present same_entries (sdk_set k v).
Proof.
  intros s [sdk H]. rewrite (sdk_set_run k v s sdk H). simpl. split.
  - eexists. simpl. apply dict_get_set_eq.
  - intros k' Hk. simpl. by apply dict_get_set_ne.
Qed.

Lemma sdk_set_total k v : total sdk_present (sdk_set k v).
Proof.
  intros s [sdk H]. rewrite (sdk_set_run k v s sdk H). by exists tt.
Qed.

Ltac sdk_steps :=
  steps_with same_entries_refl same_entries_trans entries_side
             ltac:(apply sdk_set_steps).

Ltac sdk_total :=
  total_with same_entries same_entries_refl same_entries_trans entries_side
             ltac:(apply sdk_set_steps) ltac:(apply sdk_set_total).

Lemma control_steps :
  steps sdk_present same_entries (control cfg steering current_time).
Proof. unfold control, accelerate. sdk_steps. Qed.

Lemma control_total : total sdk_present (control cfg steering current_time).
Proof. unfold control, accelerate. sdk_total. Qed.

Lemma lane_stop_steps :
  steps sdk_present same_entries (lane_stop cfg steering current_time).
Proof. unfold lane_stop, await_hazard_light. sdk_steps. Qed.

Lemma lane_stop_total : total sdk_present (lane_stop cfg steering current_time).
Proof. unfold lane_stop, await_hazard_light. sdk_total. Qed.

Lemma ensure_sdk_run s :
  sdk_writable (data s) = true →
  ∃ s', ensure_sdk s = (Ok tt, s') ∧
        sdk_present s' ∧ same_entries s s' ∧
        B s' = B s ∧ N s' = N s ∧ V s' = V s ∧
        frame (data s') = frame (data s) ∧
        (∀ k, sdk_value k (data s') = sdk_value k (data s)).
Proof.
  unfold sdk_writable, ensure_sdk, try_except, bind, data_get, sdk_value,
    sdk_present.
  destruct (dict_get "sdk" (entries (data s))) as [v|] eqn:E.
  - destruct v; try discriminate. intros _. exists s. simpl.
    rewrite E. repeat split; eauto; try by intros ? ?.
  - intros _. eexists. split; [reflexivity|]. simpl.
    rewrite dict_get_set_eq. repeat split; eauto.
    intros k Hk. simpl. by apply dict_get_set_ne.
Qed.

Definition is_ok {A} (r : Res A) : Prop := ∃ a, r = Ok a.

Lemma pick_symbol_ok s turnincoming :
  (∀ image, loaded cfg image = true) →
  is_ok (pick_symbol cfg steering s turnincoming).
Proof.
  intros Hl.
  assert (Hc : ∀ image, is_ok (copy cfg image)).
  { intros image. unfold copy. rewrite Hl. by eexists. }
  assert (Ha : ∀ image r, is_ok r → is_ok (assign cfg image r)).
  { intros image r [a ->]. apply Hc. }
  assert (Hi : ∀ c image r, is_ok r → is_ok (assign_if cfg c image r)).
  { intros [] image r Hr; [by apply Ha|done]. }
  unfold pick_symbol, pick_off.
  repeat first
    [ apply Hi | apply Ha | apply Hc
    | match goal with
      | |- is_ok (if ?c then _ else _) => destruct c
      end ].
Qed.

Lemma overlay_steps :
  steps sdk_present same_entries (overlay cfg steering paste).
Proof.
  intros s Hs. unfold overlay.
  destruct (frame (data s)) as [[v|h w px]|]; try (split; [done|by intros ??]).
  revert s Hs. unfold api.
  steps_with same_entries_refl same_entries_trans entries_side
    ltac:(first [ by (intros ? ?; split; [done|by intros ? ?]) ]).
Qed.

Lemma overlay_total :
  (∀ image, loaded cfg image = true) →
  (∀ symbol indicator f, ∃ f', paste symbol indicator f = Ok f') →
  total sdk_present (overlay cfg steering paste).
Proof.
  intros Hl Hp s Hs. unfold overlay.
  destruct (frame (data s)) as [[v|h w px]|]; try by eexists.
  revert s Hs. unfold api.
  total_with same_entries same_entries_refl same_entries_trans entries_side
    ltac:(first [ by (intros ? ?; split; [done|by intros ? ?]) ])
    ltac:(first [ by (intros x _; simpl; apply pick_symbol_ok)
                | by (intros x _; unfold lift; simpl; apply Hp)
                | by (intros x _; eexists) ]).
Qed.

Lemma only_same_entries bs ns vs s s' : only bs ns vs s s' → same_entries s s'.
Proof. intros [Hd _] k Hk. by rewrite Hd. Qed.

Lemma plugin_runs s :
  sdk_writable (data s) = true →
  overlay_safe cfg paste →
  ∃ d s', plugin cfg steering current_time paste s = (Ok d, s') ∧
          d = data s' ∧ same_entries s s' ∧ sdk_present s'.
Proof.
  intros Hw Hsafe. unfold plugin, bind.
  set (W := λ d, sdk_writable d = true).
  set (S := λ d, ∃ sdk, dict_get "sdk" (entries d) = Some (PDict sdk)).
  destruct (runs _ _ _ s (read_telemetry_steps steering W)
              (read_telemetry_total steering W) Hw)
    as ([] & s1 & -> & W1 & R1%only_same_entries).
  destruct (runs _ _ _ s1 (choose_target_steps cfg current_time W)
              (choose_target_total cfg current_time W) W1)
    as ([] & s2 & -> & W2 & R2%only_same_entries).
  destruct (ensure_sdk_run s2 W2) as (s3 & -> & P3 & R3 & _).
  destruct (runs _ _ _ s3 control_steps control_total P3)
    as ([] & s4 & -> & P4 & R4).
  destruct (runs _ _ _ s4 (hazard_steps cfg current_time S)
              (hazard_total cfg current_time S) P4)
    as ([] & s5 & -> & P5 & R5%only_same_entries).
  destruct (runs _ _ _ s5 lane_stop_steps lane_stop_total P5)
    as ([] & s6 & -> & P6 & R6).
  assert (R06 : same_entries s s6).
  { repeat (eapply same_entries_trans; [|eassumption]). apply same_entries_refl. }
  assert (Hov : ∃ go_on s7,
             (if show_symbols cfg then overlay cfg steering paste else ret true) s6
             = (Ok go_on, s7) ∧ sdk_present s7 ∧ same_entries s6 s7).
  { destruct Hsafe as [-> | [Hl Hp]].
    - by exists true, s6.
    - destruct (show_symbols cfg); [|by exists true, s6].
      apply (runs _ _ _ s6 overlay_steps (overlay_total Hl Hp) P6). }
  destruct Hov as (go_on & s7 & -> & P7 & R7).
  assert (Hre : ∃ s8, (if go_on then remember else ret tt) s7 = (Ok tt, s8) ∧
                      sdk_present s8 ∧ same_entries s7 s8).
  { destruct go_on; [|by exists s7].
    destruct (runs _ _ _ s7 (remember_steps S) (remember_total S) P7)
      as ([] & s8 & -> & P8 & R8%only_same_entries).
    by exists s8. }
  destruct Hre as (s8 & -> & P8 & R8).
  exists (data s8), s8. repeat split; [|done].
  eapply same_entries_trans; [|exact R8].
  eapply same_entries_trans; [|exact R7]. exact R06.
Qed.

Lemma read_fallback_values s0 :
  ∃ s1, read_fallback s0 = (Ok tt, s1) ∧
        N s1 speed = N s0 last_speed ∧
        N s1 speedlimit = N s0 last_speedlimit ∧
        N s1 last_speed = N s0 last_speed ∧
        N s1 last_speedlimit = N s0 last_speedlimit ∧
        N s1 cruisecontrolspeed = 0 ∧
        B s1 user_accelerating = false ∧
        N s1 user_throttle = 0 ∧
        B s1 user_braking = false ∧
        B s1 user_emergency_braking = false ∧
        V s1 hazard_light = PBool false ∧
        V s1 gamepaused = PBool false.
Proof. eexists. split; [reflexivity|]. by repeat split. Qed.

Lemma bind_run {A X} (m : C A) (f : A → C X) s a s' :
  m s = (Ok a, s') → bind m f s = f a s'.
Proof. intros H. unfold bind. by rewrite H. Qed.

Lemma control_idle s sdk :
  driving steering s = false →
  dict_get "sdk" (entries (data s)) = Some (PDict sdk) →
  ∃ s', control cfg steering current_time s = (Ok tt, s') ∧
        B s' = B s ∧ N s' = N s ∧ V s' = V s ∧
        same_entries s s' ∧
        dict_get "sdk" (entries (data s'))
          = Some (PDict (dict_set "brake" (PNum 0)
                           (dict_set "acceleration" (PNum 0) sdk))).
Proof.
  intros Hdr Hsdk. unfold control, ifelse. rewrite Hdr.
  rewrite (bind_run _ _ _ _ _ (sdk_set_run "acceleration" (PNum 0) s sdk Hsdk)).
  rewrite (sdk_set_run "brake" (PNum 0) _ (dict_set "acceleration" (PNum 0) sdk))
    by apply dict_get_set_eq.
  eexists. split; [reflexivity|]. simpl. repeat split.
  - intros k Hk. simpl. by rewrite !dict_get_set_ne by done.
  - apply dict_get_set_eq.
Qed.

Lemma lane_stop_idle s sdk :
  driving steering s = false →
  dict_get "sdk" (entries (data s)) = Some (PDict sdk) →
  ∃ s', lane_stop cfg steering current_time s = (Ok tt, s') ∧
        same_entries s s' ∧
        dict_get "sdk" (entries (data s'))
          = Some (PDict (if auto_stop cfg && B s do_lanedetected_stop
                            && negb (B s user_accelerating)
                            && Qlt_bool 1 (N s speed)
                         then dict_set "brake" (PNum 0.1) sdk else sdk)).
Proof.
  intros Hdr Hsdk.
  unfold lane_stop, when, bind, await_hazard_light, assignB, assignN,
    sdk_set, bind, data_get, data_set, lift.
  destruct (auto_stop cfg); simpl; [|by exists s].
  rewrite Hdr. simpl.
  destruct (B s user_accelerating), (B s do_lanedetected_stop); simpl;
    try (destruct (Qlt_bool 1 (N s speed)); simpl; rewrite ?Hsdk; simpl);
    repeat match goal with
           | |- context [if ?c then _ else _] => destruct c; simpl
           end;
    eexists; (split; [reflexivity|]); simpl;
    (split; [intros k Hk; simpl; by rewrite ?dict_get_set_ne by done|]);
    by rewrite ?dict_get_set_eq.
Qed.

Lemma overlay_entries s :
  entries (data (snd (overlay cfg steering paste s))) = entries (data s).
Proof.
  unfold overlay.
  destruct (frame (data s)) as [[v|h w px]|]; try done.
  assert (H : steps (λ _, True) kept_entries
                (indicators <-
                   try_except
                     (l <- api "truckBool" "blinkerLeftActive" ;;
                      r <- api "truckBool" "blinkerRightActive" ;;
                      ret (l, r))
                     (ret (PBool false, PBool false)) ;;
                 turnincoming <-
                   try_except
                     (nav <- data_get "NavigationDetection" ;;
                      lift (getitem nav "turnincoming"))
                     (ret (PBool false)) ;;
                 symbol <- (λ s, (pick_symbol cfg steering s turnincoming, s)) ;;
                 f <- lift (paste symbol
                              (truthy (fst indicators) || truthy (snd indicators))
                              (Image h w px)) ;;
                 (λ s, (Ok tt, set_data {| entries := entries (data s);
                                           frame := Some f |} s)) ;;;
                 ret true)).
  { unfold api.
    steps_with kept_entries_refl kept_entries_trans fail
      ltac:(first [ by (intros ? ?; split) ]). }
  by apply H.
Qed.

(** Lines 332-448, from the end of the lane-stop block: whatever happens,
    the entries stay, and what is returned is the frame dictionary. *)
Lemma plugin_tail s6 :
  let r := (go_on <- (if show_symbols cfg then overlay cfg steering paste
                      else ret true) ;;
            (if go_on : bool then remember else ret tt) ;;;
            λ s, (Ok (data s), s)) s6 in
  entries (data (snd r)) = entries (data s6) ∧
  (∀ d, fst r = Ok d → d = data (snd r)).
Proof.
  unfold bind. destruct (show_symbols cfg).
  - pose proof (overlay_entries s6) as Ho.
    destruct (overlay cfg steering paste s6) as [[[]|e] s7]; simpl in *;
      (split; [done|]); intros d Hd; by simplify_eq.
  - simpl. split; [done|]. intros d Hd. by simplify_eq.
Qed.

Ltac not_listed := apply (bool_decide_unpack _); by vm_compute.

(** When line 265 fails, [plugin] sets [data["sdk"]["acceleration"]] to 0
    and leaves every key of [data["sdk"]] other than ["acceleration"] and
    ["brake"] as it was; it sets ["brake"] to 0, unless [auto_stop] is on,
    a stop for a lost lane was begun in an earlier frame, the user is not
    accelerating and the speed is above 1 km/h, in which case ["brake"]
    ends as 0.1.  The other entries of the frame dictionary stay. *)
Lemma idle_frame s :
  sdk_writable (data s) = true →
  let s1 := snd (read_telemetry steering s) in
  paused_or_disabled steering s1 = true →
  let r := plugin cfg steering current_time paste s in
  let stop := auto_stop cfg && B s do_lanedetected_stop
              && negb (B s1 user_accelerating) && Qlt_bool 1 (N s1 speed) in
  sdk_value "acceleration" (data (snd r)) = Some (PNum 0) ∧
  sdk_value "brake" (data (snd r)) = Some (PNum (if stop then 0.1 else 0)) ∧
  (∀ k, k ≠ "acceleration" → k ≠ "brake" →
        sdk_value k (data (snd r)) = sdk_value k (data s)) ∧
  same_entries s (snd r) ∧
  (∀ d, fst r = Ok d → d = data (snd r)).
Proof.
  intros Hw s1 Hpd r stop.
  set (W := λ d, sdk_writable d = true).
  set (S := λ d, ∃ sdk, dict_get "sdk" (entries d) = Some (PDict sdk)).
  destruct (runs _ _ _ s (read_telemetry_steps steering W)
              (read_telemetry_total steering W) Hw)
    as ([] & s1' & E1 & W1 & R1).
  assert (s1 = s1') as Hs1 by (subst s1; by rewrite E1).
  clearbody s1. subst s1'.
  destruct (runs _ _ _ s1 (choose_target_steps cfg current_time W)
              (choose_target_total cfg current_time W) W1)
    as ([] & s2 & E2 & W2 & R2).
  destruct (ensure_sdk_run s2 W2)
    as (s3 & E3 & [sdk3 P3] & R3 & HB3 & HN3 & HV3 & _ & K3).
  assert (Hdr1 : driving steering s1 = false).
  { unfold paused_or_disabled in Hpd. by apply negb_true_iff in Hpd. }
  assert (HV2 : V s2 gamepaused = V s1 gamepaused).
  { apply R2. not_listed. }
  assert (Hdr3 : driving steering s3 = false).
  { unfold driving in *. by rewrite HV3, HV2. }
  destruct (control_idle s3 sdk3 Hdr3 P3)
    as (s4 & E4 & HB4 & HN4 & HV4 & R4 & P4).
  destruct (runs _ _ _ s4 (hazard_steps cfg current_time S)
              (hazard_total cfg current_time S) (ex_intro _ _ P4))
    as ([] & s5 & E5 & _ & R5).
  assert (D5 : data s5 = data s4) by apply R5.
  assert (Hdr5 : driving steering s5 = false).
  { unfold driving in *. destruct R5 as (_ & _ & _ & R5).
    rewrite R5 by not_listed. by rewrite HV4. }
  rewrite <- D5 in P4.
  destruct (lane_stop_idle s5 _ Hdr5 P4) as (s6 & E6 & R6 & P6).
  assert (Hstop : auto_stop cfg && B s5 do_lanedetected_stop
                  && negb (B s5 user_accelerating) && Qlt_bool 1 (N s5 speed)
                  = stop).
  { subst stop. destruct R5 as (_ & RB5 & RN5 & _).
    destruct R2 as (_ & RB2 & RN2 & _). destruct R1 as (_ & RB1 & _).
    rewrite !RB5, RN5 by not_listed. rewrite HB4, HN4, HB3, HN3.
    rewrite !RB2, RN2 by not_listed. by rewrite RB1 by not_listed. }
  rewrite Hstop in P6.
  pose proof (plugin_tail s6) as [T1 T2].
  assert (Er : r = (go_on <- (if show_symbols cfg then overlay cfg steering paste
                              else ret true) ;;
                    (if go_on : bool then remember else ret tt) ;;;
                    λ s, (Ok (data s), s)) s6).
  { subst r. unfold plugin.
    rewrite (bind_run _ _ _ _ _ E1), (bind_run _ _ _ _ _ E2).
    rewrite (bind_run _ _ _ _ _ E3), (bind_run _ _ _ _ _ E4).
    by rewrite (bind_run _ _ _ _ _ E5), (bind_run _ _ _ _ _ E6). }
  rewrite <- Er in T1, T2.
  assert (Hval : ∀ k, sdk_value k (data (snd r))
                      = dict_get k (if stop then dict_set "brake" (PNum 0.1)
                                           (dict_set "brake" (PNum 0)
                                              (dict_set "acceleration" (PNum 0) sdk3))
                                    else dict_set "brake" (PNum 0)
                                           (dict_set "acceleration" (PNum 0) sdk3))).
  { intros k. unfold sdk_value. by rewrite T1, P6. }
  assert (K3' : ∀ k, dict_get k sdk3 = sdk_value k (data s)).
  { intros k. transitivity (sdk_value k (data s3)).
    - unfold sdk_value. by rewrite P3.
    - rewrite K3. destruct R2 as (-> & _). by destruct R1 as (-> & _). }
  split; [|split; [|split; [|split]]].
  - rewrite Hval. destruct stop; rewrite !dict_get_set_ne by done;
      apply dict_get_set_eq.
  - rewrite Hval. destruct stop; apply dict_get_set_eq.
  - intros k Ha Hb. rewrite Hval, <- K3'.
    destruct stop; by rewrite !dict_get_set_ne by done.
  - intros k Hk. unfold same_entries in *. rewrite T1.
    rewrite R6, D5, R4, R3 by done.
    destruct R2 as (-> & _). by destruct R1 as (-> & _).
  - exact T2.
Qed.

End SdkFacts.

End CruiseControl.

(** ** More on map data extraction: the data directory on its own *)

(** The functions of [data_extractor.py] as they act on the directory
    they are given, taken with the files of its tree and apart from the
    rest of the file tree. *)
Module DataDirectory.

Import Py.

Definition DATA_FILENAME : string := DataExtractor.DATA_FILENAME.

Abbreviation Effect := DataExtractor.Effect.
Abbreviation Warning := DataExtractor.Warning.
Abbreviation SettingsSet := DataExtractor.SettingsSet.
Abbreviation Rmtree := DataExtractor.Rmtree.
Abbreviation Makedirs := DataExtractor.Makedirs.
Abbreviation ExtractAll := DataExtractor.ExtractAll.


Section Extraction.

(** [hashlib.md5(bytes).hexdigest()], the members of a zip archive (none
    when the bytes are not one), and [Translate] are library functions. *)
Variable md5 : string → string.
Variable unzip : string → option (gmap string string).
Variable Translate : string → string.

(** The module global [DATA_HASH], the bytes of [DATA_FILENAME] if the file
    exists, the directories given that exist, each with the files of its
    tree, and the effects so far.  A directory that is extracted to is
    taken to have a name and not to contain the archive. *)
Record World := {
  DATA_HASH : option string;
  archive : option string;
  dirs : gmap string (gmap string string);
  effects : list Effect
}.

Definition effect (e : Effect) (w : World) : World :=
  {| DATA_HASH := DATA_HASH w; archive := archive w; dirs := dirs w;
     effects := effects w ++ [e] |}.

Definition set_dirs (d : gmap string (gmap string string)) (w : World) : World :=
  {| DATA_HASH := DATA_HASH w; archive := archive w; dirs := d;
     effects := effects w |}.

Definition set_DATA_HASH (h : string) (w : World) : World :=
  {| DATA_HASH := Some h; archive := archive w; dirs := dirs w;
     effects := effects w |}.

(** [os.path.exists(path)] *)
Definition exists_ (path : string) (w : World) : bool :=
  bool_decide (is_Some (dirs w !! path)).

(** [shutil.rmtree(path)] *)
Definition rmtree (path : string) (w : World) : World :=
  set_dirs (delete path (dirs w)) (effect (Rmtree path) w).

(** [os.makedirs(path)] *)
Definition makedirs (path : string) (w : World) : World :=
  set_dirs (<[path := ∅]> (dirs w)) (effect (Makedirs path) w).

(** [zipfile.ZipFile(DATA_FILENAME, 'r').extractall(path)]: the members
    replace the files of the same name. *)
Definition extractall (path : string) (w : World) : Res unit * World :=
  match archive w with
  | None => (Raise FileNotFoundError, w)
  | Some bytes =>
      match unzip bytes with
      | None => (Raise BadZipFile, w)
      | Some members =>
          let present := default ∅ (dirs w !! path) in
          (Ok tt, set_dirs (<[path := members ∪ present]> (dirs w))
                    (effect (ExtractAll path) w))
      end
  end.

Definition ExtractData (path : string) (w : World) : Res unit * World :=
  let w := if exists_ path w then rmtree path w else w in
  let w := if negb (exists_ path w) then makedirs path w else w in
  extractall path w.

Definition UpdateData (path : string) (w : World) : Res bool * World :=
  match archive w with
  | None => (Raise FileNotFoundError, w)
  | Some bytes =>
      let new_hash := md5 bytes in
      match DATA_HASH w with
      | None =>
          let w := effect (Warning (Translate "map.extracting_data")) w in
          let w := effect (Warning "(No Hash)") w in
          let w := set_DATA_HASH new_hash w in
          let w := effect (SettingsSet "Map" "data_hash" new_hash) w in
          match ExtractData path w with
          | (Ok _, w) => (Ok true, w)
          | (Raise e, w) => (Raise e, w)
          end
      | Some old_hash =>
          if negb (String.eqb old_hash new_hash) then
            let w := effect (Warning (Translate "map.extracting_data")) w in
            let w := set_DATA_HASH new_hash w in
            let w := effect (SettingsSet "Map" "data_hash" new_hash) w in
            match ExtractData path w with
            | (Ok _, w) => (Ok true, w)
            | (Raise e, w) => (Raise e, w)
            end
          else (Ok false, w)
      end
  end.

(** The stored hash is absent or differs from [new_hash]. *)
Definition stale (w : World) (new_hash : string) : Prop :=
  DATA_HASH w = None ∨ ∃ old, DATA_HASH w = Some old ∧ old ≠ new_hash.

End Extraction.


Definition toy_md5 (bytes : string) : string := DataExtractor.toy_md5 bytes.

Section DirectoryFacts.

Variable md5 : string → string.
Variable unzip : string → option (gmap string string).
Variable Translate : string → string.




End DirectoryFacts.

End DataDirectory.

Module ExtractorFacts.

Import Py DataDirectory.

Section Failures.

Variable md5 : string → string.
Variable unzip : string → option (gmap string string).
Variable Translate : string → string.



(** A first start whose archive is not a zip file. *)
Definition broken_start : World :=
  {| DATA_HASH := None; archive := Some "not a zip";
     dirs := {[ "plugins/Map/data" := {[ "roads.json" := "old" ]} ]};
     effects := [] |}.

End Failures.


End ExtractorFacts.

(** ** More on the plugin base class: construction and start-up *)

Module PluginLife.

Import Py Plugin.

(** *** [ensure_settings_file] *)

(** The files with their text, and the directories. *)
Record FS := {
  files : gmap string string;
  directories : gset string
}.

(** [os.path.exists(p)] *)
Definition path_exists (p : string) (fs : FS) : bool :=
  bool_decide (is_Some (files fs !! p)) || bool_decide (p ∈ directories fs).

Section Files.

(** The directories above a path. *)
Variable ancestors : string → gset string.

(** [os.makedirs(path, exist_ok=True)]: the directory and those above it
    exist afterwards; a file of that name is in the way. *)
Definition makedirs (path : string) (fs : FS) : Res FS :=
  if bool_decide (is_Some (files fs !! path))
  then Raise (Exception "FileExistsError")
  else Ok {| files := files fs;
             directories := {[ path ]} ∪ ancestors path ∪ directories fs |}.

(** [with open(p, "w") as file: json.dump({}, file)] *)
Definition write_empty_json (p : string) (fs : FS) : Res FS :=
  if bool_decide (p ∈ directories fs)
  then Raise (Exception "IsADirectoryError")
  else Ok {| files := <[p := "{}"]> (files fs); directories := directories fs |}.

Definition settings_json (path : string) : string := path ++ "/settings.json".

Definition ensure_settings_file (path : string) (fs : FS) : Res FS :=
  if negb (path_exists (settings_json path) fs) then
    res_bind (makedirs path fs) (write_empty_json (settings_json path))
  else Ok fs.

End Files.

(** *** [ensure_functions], [load_modules], [__init__], [PluginRunner] *)

(** What [ensure_functions] looks at in the class of the instance. *)
Record ClassInfo := {
  overrides_before : bool;
  overrides_after : bool;
  overrides_plugin : bool;
  has_run : bool;
  has_imports : bool;
  class_name : string
}.

(** Every refusal is a [TypeError]; the messages are left out. *)
Definition ensure_functions (c : ClassInfo) : Res unit :=
  if overrides_before c then Raise TypeError
  else if overrides_after c then Raise TypeError
  else if overrides_plugin c then Raise TypeError
  else if negb (has_run c) then Raise TypeError
  else if negb (has_imports c) then Raise TypeError
  else if negb (String.eqb (class_name c) "Plugin") then Raise TypeError
  else Ok tt.

Definition module_path (module_name : string) : string :=
  "modules/" ++ module_name ++ "/main.py".

Section StartUp.

Context {U : Type}.
Variable P : PluginClass U.

Notation "x <- m ;; k" := (bind m (λ x, k))
  (at level 62, m at next level, right associativity).
Notation "m ;;; k" := (bind m (λ _, k))
  (at level 62, right associativity).

(** [os.path.exists] on a module path; [importlib.import_module] followed
    by [python_object.Module(self)], by module name; [str] of a module
    object; [threading.Thread(target=..., daemon=True).start()], by the
    name of the target. *)
Variable module_exists : string → bool.
Variable load_module : string → M U Value.
Variable str : Value → string.
Variable Thread_start : string → M U unit.

(** [logging.warning(msg)] *)
Definition logging_warning (msg : string) : M U unit :=
  λ w, Returned tt (add_log msg w).

(** The loop of [load_modules]: [module] is the local of that name, unbound
    until a first module is loaded; [modules] is [self.modules]. *)
Fixpoint load_modules_loop (module_names : list string) (module : option Value)
    (modules : list (string * Value)) : M U (list (string * Value)) :=
  match module_names with
  | [] => ret modules
  | module_name :: rest =>
      if module_exists (module_path module_name) then
        m <- load_module module_name ;;
        load_modules_loop rest (Some m) (dict_set module_name m modules)
      else
        match module with
        | None => raise (Exception "UnboundLocalError")
        | Some m =>
            logging_warning ("Module '" ++ str m ++ "' not found in '"
                             ++ module_path module_name ++ "'") ;;;
            load_modules_loop rest module modules
        end
  end.

(** [load_modules]; the value is [self.modules]. *)
Definition load_modules (module_names : list string) :
    M U (list (string * Value)) :=
  load_modules_loop module_names None [].

(** [__init__], for the class [c] with [description.modules = module_names].
    The assignment [self.settings_menu.plugin = self] changes the menu
    object alone, which is here the [render] of the class, and is left
    out. *)
Definition __init__ (c : ClassInfo) (module_names : list string)
    (fuel : nat) : M U unit :=
  lift (ensure_functions c) ;;;
  load_modules module_names ;;;
  Thread_start "settings_menu_thread" ;;;
  Thread_start "frontend_thread" ;;;
  Thread_start "performance_thread" ;;;
  call_method P "imports" ;;;
  init_hooks P ;;;
  main_loop P fuel.

(** [SetupProcessLogging] and [sys.path.append]; the import of the
    plugin's module, telling whether it has a class [Plugin]; and
    [__new__]. *)
Variable setup : M U unit.
Variable import_plugin : M U bool.
Variable construct : M U unit.

(** [PluginRunner.__init__]; the value tells whether [plugin_instance] was
    assigned. *)
Definition PluginRunner (plugin_name : string) (c : ClassInfo)
    (module_names : list string) (fuel : nat) : M U bool :=
  setup ;;;
  try_except
    (has_plugin <- import_plugin ;;
     if has_plugin : bool then
       construct ;;;
       __init__ c module_names fuel ;;;
       ret true
     else raise (Exception "ImportError"))
    (logging_exception ("Error loading plugin '" ++ plugin_name ++ "'") ;;;
     ret false).

End StartUp.

(** A class that passes [ensure_functions]. *)
Definition good_class : ClassInfo :=
  {| overrides_before := false; overrides_after := false;
     overrides_plugin := false; has_run := true; has_imports := true;
     class_name := "Plugin" |}.

(** A class that defines its own [before]. *)
Definition reserved_class : ClassInfo :=
  {| overrides_before := true; overrides_after := false;
     overrides_plugin := false; has_run := true; has_imports := true;
     class_name := "Plugin" |}.

(** A file system with nothing in it, and one where a plugin has settings. *)
Definition empty_fs : FS := {| files := ∅; directories := ∅ |}.

Definition configured_fs : FS :=
  {| files := {[ "plugins/Map/settings.json" := "{'fov': 77}" ]};
     directories := {[ "plugins/Map" ]} |}.

Definition no_ancestors (_ : string) : gset string := ∅.

(** *** Facts on [ensure_settings_file] *)

Section FilesFacts.

Variable ancestors : string → gset string.

Lemma path_exists_file p text fs :
  files fs !! p = Some text → path_exists p fs = true.
Proof.
  intros H. unfold path_exists. rewrite bool_decide_eq_true_2; [done|].
  by rewrite H.
Qed.

(** A successful [ensure_settings_file] leaves a settings path that exists;
    it changes no other file; a settings file that was there is not
    touched, and one that was missing holds an empty JSON object in a
    directory that now exists; a second call changes nothing. *)
Theorem ensure_settings_file_once path fs fs1 :
  ensure_settings_file ancestors path fs = Ok fs1 →
  path_exists (settings_json path) fs1 = true ∧
  (∀ p, p ≠ settings_json path → files fs1 !! p = files fs !! p) ∧
  (path_exists (settings_json path) fs = true → fs1 = fs) ∧
  (path_exists (settings_json path) fs = false →
     files fs1 !! settings_json path = Some "{}" ∧ path ∈ directories fs1) ∧
  ensure_settings_file ancestors path fs1 = Ok fs1.
Proof.
  unfold ensure_settings_file.
  destruct (path_exists (settings_json path) fs) eqn:He; simpl.
  - intros [= <-]. rewrite He. simpl. by repeat split.
  - unfold makedirs. destruct (bool_decide (is_Some (files fs !! path))); [done|].
    simpl. unfold write_empty_json. simpl.
    destruct (bool_decide (settings_json path ∈ _)); [done|].
    intros [= <-].
    assert (Hex : path_exists (settings_json path)
              {| files := <[settings_json path:="{}"]> (files fs);
                 directories := {[path]} ∪ ancestors path ∪ directories fs |}
            = true).
    { apply (path_exists_file _ "{}"). simpl. apply lookup_insert_eq. }
    split; [exact Hex|]. split.
    { intros p Hp. simpl. by rewrite lookup_insert_ne. }
    split; [done|]. split.
    { intros _. simpl. split; [apply lookup_insert_eq|set_solver]. }
    by rewrite Hex.
Qed.

(** When a file of the plugin directory's name is in the way, nothing is
    created and the call raises. *)
Lemma ensure_settings_file_blocked path fs text :
  files fs !! path = Some text →
  path_exists (settings_json path) fs = false →
  ensure_settings_file ancestors path fs = Raise (Exception "FileExistsError").
Proof.
  intros Hf He. unfold ensure_settings_file. rewrite He. simpl.
  unfold makedirs. rewrite bool_decide_eq_true_2; [done|]. by rewrite Hf.
Qed.

End FilesFacts.

Lemma ensure_settings_file_once_witness :
  files (match ensure_settings_file no_ancestors "plugins/Map" empty_fs with
         | Ok fs1 => fs1 | Raise _ => empty_fs end)
    !! "plugins/Map/settings.json" = Some "{}" ∧
  ensure_settings_file no_ancestors "plugins/Map" configured_fs
    = Ok configured_fs.
Proof.
  split.
  - destruct (ensure_settings_file_once no_ancestors "plugins/Map" empty_fs _
                eq_refl) as (_ & _ & _ & H & _).
    apply H. reflexivity.
  - destruct (ensure_settings_file_once no_ancestors "plugins/Map"
                configured_fs _ eq_refl) as (_ & _ & _ & _ & H).
    exact H.
Defined.

(** *** Facts on [__init__], [load_modules] and [PluginRunner] *)

(** A loader of modules that need no state, and a world of modules where
    [Camera] and [Steering] exist and [Radar] does not. *)
Definition toy_exists (p : string) : bool :=
  String.eqb p "modules/Camera/main.py" || String.eqb p "modules/Steering/main.py".

Definition toy_object (module_name : string) : Value := PStr module_name.

Definition toy_load (module_name : string) : M unit Value :=
  ret (toy_object module_name).

Definition toy_str (v : Value) : string :=
  match v with
  | PStr s => s
  | _ => "?"
  end.

Definition no_thread (_ : string) : M unit unit := ret tt.

Section StartUpFacts.

Context {U : Type}.
Variable P : PluginClass U.
Variable module_exists : string → bool.
Variable load_module : string → M U Value.
Variable str : Value → string.
Variable Thread_start : string → M U unit.
Variable setup : M U unit.
Variable import_plugin : M U bool.
Variable construct : M U unit.

Implicit Types (w : World U).

Lemma bind_not_returned {A B} (m : M U A) (f : A → M U B) w b w' :
  (∀ a v, f a v ≠ Returned b w') → bind m f w ≠ Returned b w'.
Proof. intros Hf. unfold bind. by destruct (m w). Qed.

Lemma init_not_returned c module_names fuel w a w' :
  __init__ P module_exists load_module str Thread_start c module_names fuel w
    ≠ Returned a w'.
Proof.
  unfold __init__.
  repeat (apply bind_not_returned; intros ? ?).
  apply forever_not_returned.
Qed.

Lemma ensure_functions_raises c : ensure_functions c ≠ Ok tt →
  ensure_functions c = Raise TypeError.
Proof.
  unfold ensure_functions.
  by repeat match goal with |- context [if ?b then _ else _] => destruct b end.
Qed.

Lemma init_refused c module_names fuel w :
  ensure_functions c ≠ Ok tt →
  __init__ P module_exists load_module str Thread_start c module_names fuel w
    = Raised TypeError w.
Proof.
  intros Hc. unfold __init__, bind. by rewrite (ensure_functions_raises c Hc).
Qed.

(** [__init__] goes on only for a class named [Plugin] that has [run] and
    [imports] and leaves [before], [after] and [plugin] alone; for any
    other class it raises [TypeError] before anything else happens; and
    in no case does it return. *)
Theorem init_refuses_or_never_returns c module_names fuel :
  (ensure_functions c = Ok tt ↔
     overrides_before c = false ∧ overrides_after c = false ∧
     overrides_plugin c = false ∧ has_run c = true ∧ has_imports c = true ∧
     class_name c = "Plugin") ∧
  (ensure_functions c ≠ Ok tt →
   ∀ w, __init__ P module_exists load_module str Thread_start c module_names
          fuel w = Raised TypeError w) ∧
  (∀ w a w',
     __init__ P module_exists load_module str Thread_start c module_names
       fuel w ≠ Returned a w').
Proof.
  split; [|split].
  - unfold ensure_functions. destruct c as [b a p r i n]. simpl.
    destruct b, a, p, r, i; simpl;
      try (split; [done|by intros (? & ? & ? & ? & ? & ?)]).
    destruct (String.eqb n "Plugin") eqn:E; simpl.
    + apply String.eqb_eq in E. by repeat split.
    + apply String.eqb_neq in E.
      split; [done|by intros (_ & _ & _ & _ & _ & ?)].
  - intros Hc w. by apply init_refused.
  - intros. apply init_not_returned.
Qed.

(** [PluginRunner.__init__] never assigns [plugin_instance]: the
    constructor it calls does not return.  Once the logging is set up it
    lets no exception out: a module without a class [Plugin], and a class
    that [ensure_functions] refuses, end as one line in the log. *)
Theorem PluginRunner_never_holds_an_instance plugin_name c module_names fuel w :
  let runner := PluginRunner P module_exists load_module str Thread_start
                  setup import_plugin construct plugin_name c module_names fuel in
  let line := "Error loading plugin '" ++ plugin_name ++ "'" in
  (∀ w', runner w ≠ Returned true w') ∧
  (∀ w1, setup w = Returned tt w1 → ∀ e w', runner w ≠ Raised e w') ∧
  (∀ w1 w2, setup w = Returned tt w1 → import_plugin w1 = Returned false w2 →
     runner w = Returned false (add_log line w2)) ∧
  (∀ w1 w2 w3, setup w = Returned tt w1 → import_plugin w1 = Returned true w2 →
     construct w2 = Returned tt w3 → ensure_functions c ≠ Ok tt →
     runner w = Returned false (add_log line w3)).
Proof.
  intros runner line. subst runner. unfold PluginRunner.
  split; [|split; [|split]].
  - intros w'. apply bind_not_returned. intros _ v.
    unfold try_except, bind.
    destruct (import_plugin v) as [[] v1|e v1|v1|v1] eqn:Hi; try done.
    destruct (construct v1) as [[] v2|e v2|v2|v2] eqn:Hc; try done.
    destruct (__init__ _ _ _ _ _ _ _ _ v2) as [[] v3|e v3|v3|v3] eqn:Hn;
      try done.
    by apply init_not_returned in Hn.
  - intros w1 Hs e w'. unfold bind at 1. rewrite Hs.
    unfold try_except, bind.
    destruct (import_plugin w1) as [[] v1|e1 v1|v1|v1]; try done.
    destruct (construct v1) as [[] v2|e2 v2|v2|v2]; try done.
    by destruct (__init__ _ _ _ _ _ _ _ _ v2) as [[] v3|e3 v3|v3|v3].
  - intros w1 w2 Hs Hi. unfold bind at 1. rewrite Hs.
    unfold try_except, bind. by rewrite Hi.
  - intros w1 w2 w3 Hs Hi Hc Hr. unfold bind at 1. rewrite Hs.
    unfold try_except. unfold bind at 1 2 3. rewrite Hi, Hc.
    by rewrite (init_refused c module_names fuel w3 Hr).
Qed.

End StartUpFacts.

Lemma init_refuses_or_never_returns_witness :
  __init__ example_plugin toy_exists toy_load toy_str no_thread
    reserved_class ["Camera"] 3 idle_world = Raised TypeError idle_world.
Proof.
  apply (init_refuses_or_never_returns example_plugin toy_exists toy_load
           toy_str no_thread reserved_class ["Camera"] 3).
  discriminate.
Defined.

Lemma PluginRunner_never_holds_an_instance_witness :
  PluginRunner example_plugin toy_exists toy_load toy_str no_thread
    (ret tt) (ret false) (ret tt) "Example" good_class [] 3 idle_world
  = Returned false (add_log "Error loading plugin 'Example'" idle_world).
Proof.
  apply (proj1 (proj2 (proj2
    (PluginRunner_never_holds_an_instance example_plugin toy_exists toy_load
       toy_str no_thread (ret tt) (ret false) (ret tt) "Example" good_class
       [] 3 idle_world))) idle_world idle_world eq_refl eq_refl).
Defined.

(** The worker after the warnings [msgs] were logged. *)
Definition logged {U} (msgs : list string) (w : World U) : World U :=
  fold_left (λ v msg, add_log msg v) msgs w.

(** The names among [module_names] that have no module file. *)
Definition missing (module_exists : string → bool) (module_names : list string) :
    list string :=
  filter (λ n, module_exists (module_path n) = false) module_names.

Section ModulesFacts.

Context {U : Type}.
Variable module_exists : string → bool.
Variable load_module : string → M U Value.
Variable str : Value → string.
Variable object : string → Value.
Hypothesis load_pure : ∀ n (w : World U), load_module n w = Returned (object n) w.

Lemma load_modules_loop_spec module_names :
  ∀ m acc (w : World U), ∃ ns msgs,
    load_modules_loop module_exists load_module str module_names (Some m) acc w
      = Returned ns (logged msgs w) ∧
    (∀ n, dict_get n ns
          = if bool_decide (n ∈ module_names) && module_exists (module_path n)
            then Some (object n) else dict_get n acc) ∧
    length msgs = length (missing module_exists module_names).
Proof.
  induction module_names as [|name rest IH]; intros m acc w.
  - exists acc, []. by repeat split.
  - simpl. unfold missing. rewrite filter_cons.
    destruct (module_exists (module_path name)) eqn:He.
    + unfold bind at 1. rewrite load_pure.
      destruct (IH (object name) (dict_set name (object name) acc) w)
        as (ns & msgs & Hrun & Hget & Hlen).
      exists ns, msgs. split; [exact Hrun|]. split.
      * intros n. rewrite Hget.
        destruct (decide (n = name)) as [->|Hne].
        -- rewrite He, dict_get_set_eq.
           rewrite (bool_decide_eq_true_2 (name ∈ name :: rest));
             [|by left].
           by destruct (bool_decide (name ∈ rest)).
        -- rewrite dict_get_set_ne by done.
           rewrite (bool_decide_ext (n ∈ name :: rest) (n ∈ rest)); [done|].
           rewrite elem_of_cons. split; [by intros [?|?]|by right].
      * rewrite decide_False by done. exact Hlen.
    + unfold bind at 1. unfold logging_warning at 1.
      destruct (IH m acc (add_log ("Module '" ++ str m ++ "' not found in '"
                                   ++ module_path name ++ "'") w))
        as (ns & msgs & Hrun & Hget & Hlen).
      exists ns, (("Module '" ++ str m ++ "' not found in '"
                   ++ module_path name ++ "'") :: msgs).
      split; [exact Hrun|]. split.
      * intros n. rewrite Hget.
        destruct (decide (n = name)) as [->|Hne].
        -- rewrite He. by rewrite !andb_false_r.
        -- rewrite (bool_decide_ext (n ∈ name :: rest) (n ∈ rest)); [done|].
           rewrite elem_of_cons. split; [by intros [?|?]|by right].
      * rewrite decide_True by done. simpl. by rewrite Hlen.
Qed.

(** With modules that load without failing: when the first listed module
    has no file, [load_modules] raises [UnboundLocalError] (its warning
    names a local that is not bound yet) and nothing is loaded or logged;
    when the first has one, [load_modules] returns, the namespace holds
    exactly the listed modules that have a file, and one warning is logged
    for each listed module that has none. *)
Theorem load_modules_namespace first rest (w : World U) :
  (module_exists (module_path first) = false →
   load_modules module_exists load_module str (first :: rest) w
     = Raised (Exception "UnboundLocalError") w) ∧
  (module_exists (module_path first) = true →
   ∃ ns msgs,
     load_modules module_exists load_module str (first :: rest) w
       = Returned ns (logged msgs w) ∧
     (∀ n, dict_get n ns
           = if bool_decide (n ∈ first :: rest) && module_exists (module_path n)
             then Some (object n) else None) ∧
     length msgs = length (missing module_exists rest)).
Proof.
  unfold load_modules. simpl. split; intros He; rewrite He; [done|].
  unfold bind at 1. rewrite load_pure.
  destruct (load_modules_loop_spec rest (object first)
              (dict_set first (object first) []) w)
    as (ns & msgs & Hrun & Hget & Hlen).
  exists ns, msgs. split; [exact Hrun|]. split; [|exact Hlen].
  intros n. rewrite Hget.
  destruct (decide (n = first)) as [->|Hne].
  - rewrite He, dict_get_set_eq.
    rewrite (bool_decide_eq_true_2 (first ∈ first :: rest)); [|by left].
    by destruct (bool_decide (first ∈ rest)).
  - rewrite dict_get_set_ne by done.
    rewrite (bool_decide_ext (n ∈ first :: rest) (n ∈ rest)); [done|].
    rewrite elem_of_cons. split; [by intros [?|?]|by right].
Qed.

(** After a module that loaded, the warning for a missing one names the
    module object loaded last, not the module that is missing. *)
Lemma load_modules_warning_names_last_loaded first absent (w : World U) :
  module_exists (module_path first) = true →
  module_exists (module_path absent) = false →
  load_modules module_exists load_module str [first; absent] w
    = Returned [(first, object first)]
        (add_log ("Module '" ++ str (object first) ++ "' not found in '"
                  ++ module_path absent ++ "'") w).
Proof.
  intros H1 H2. unfold load_modules. simpl. rewrite H1, H2.
  unfold bind at 1. by rewrite load_pure.
Qed.

End ModulesFacts.

Lemma load_modules_namespace_witness :
  load_modules toy_exists toy_load toy_str ["Radar"; "Camera"] idle_world
    = Raised (Exception "UnboundLocalError") idle_world ∧
  ∃ ns msgs,
    load_modules toy_exists toy_load toy_str ["Camera"; "Radar"; "Steering"]
      idle_world = Returned ns (logged msgs idle_world) ∧
    dict_get "Steering" ns = Some (PStr "Steering") ∧
    dict_get "Radar" ns = None ∧
    length msgs = 1%nat.
Proof.
  split.
  - apply (load_modules_namespace toy_exists toy_load toy_str toy_object
             (λ _ _, eq_refl) "Radar" ["Camera"] idle_world).
    reflexivity.
  - destruct (proj2 (load_modules_namespace toy_exists toy_load toy_str
                       toy_object (λ _ _, eq_refl) "Camera"
                       ["Radar"; "Steering"] idle_world) eq_refl)
      as (ns & msgs & Hrun & Hget & Hlen).
    exists ns, msgs. split; [exact Hrun|]. split; [|split].
    + by rewrite Hget.
    + by rewrite Hget.
    + exact Hlen.
Defined.

(** *** Facts on the hooks, the frame loop, the dialogs and the threads *)

(** A plugin whose [init] trips over a missing attribute, whose
    [initialize] fails otherwise, and that has no frame rate. *)
Definition careless_plugin : PluginClass unit :=
  {| fps_cap := 0;
     settings_menu := Menu (raise (KeyError "title"));
     getattr := λ name,
       if String.eqb name "init" then Method (λ _ _, raise AttributeError)
       else if String.eqb name "initialize"
            then Method (λ _ _, raise (Exception "boom"))
       else NoAttr;
     run := ret (PNum 1) |}.

(** A plugin whose [init] calls [sys.exit()]. *)
Definition quitting_plugin : PluginClass unit :=
  {| fps_cap := 30;
     settings_menu := Undefined;
     getattr := λ name,
       if String.eqb name "init" then Method (λ _ _, raise SystemExit)
       else NoAttr;
     run := ret (PNum 1) |}.

(** A worker with one reply waiting on the immediate return queue. *)
Definition answered_world (reply : Value) : World unit :=
  w_put immediate_return_queue reply idle_world.

Section LoopFacts.

Context {U : Type}.
Variable P : PluginClass U.
Implicit Types (w : World U).

(** The three initialisation hooks let no [Exception] out: what leaves
    them is a [SystemExit] or a [KeyboardInterrupt], which the handlers do
    not catch and which passes through as raised.  A plugin that defines
    none of the hooks is not touched.  An [AttributeError] raised inside a
    hook's body is taken for a missing hook: nothing is logged; any other
    [Exception] is logged, and the later hooks still run. *)
Theorem init_hooks_contain_exceptions :
  (∀ w e w', init_hooks P w = Raised e w' → is_exception e = false) ∧
  (getattr P "init" = NoAttr → getattr P "initialize" = NoAttr →
   getattr P "Initialize" = NoAttr → ∀ w, init_hooks P w = Returned tt w) ∧
  (∀ name f w w1, getattr P name = Method f →
     f [] [] w = Raised AttributeError w1 →
     run_hook P name w = Returned tt w1) ∧
  (∀ f w ex w1, getattr P "init" = Method f → f [] [] w = Raised ex w1 →
     is_exception ex = true → ex ≠ AttributeError →
     init_hooks P w
       = bind (run_hook P "initialize") (λ _, run_hook P "Initialize")
           (add_log "Error in 'init' function" w1)) ∧
  (∀ f w ex w1, getattr P "init" = Method f → f [] [] w = Raised ex w1 →
     is_exception ex = false →
     init_hooks P w = Raised ex w1).
Proof.
  split; [|split; [|split; [|split]]].
  - intros w e w'. unfold init_hooks, bind.
    destruct (run_hook P "init" w) as [[] w1|e1 w1|w1|w1] eqn:H1; try done.
    + destruct (run_hook P "initialize" w1) as [[] w2|e2 w2|w2|w2] eqn:H2;
        try done.
      * apply run_hook_catches.
      * intros [= <- _]. by apply run_hook_catches in H2.
    + intros [= <- _]. by apply run_hook_catches in H1.
  - intros H1 H2 H3 w.
    unfold init_hooks, bind, run_hook, try_except_as, call_method, bind.
    by rewrite H1, H2, H3.
  - intros name f w w1 HP Hf.
    unfold run_hook, try_except_as, call_method, bind. by rewrite HP, Hf.
  - intros f w ex w1 HP Hf He Hex. unfold init_hooks. unfold bind at 1.
    by rewrite (run_hook_logs P "init" f w ex w1 HP Hf He Hex).
  - intros f w ex w1 HP Hf He. unfold init_hooks. unfold bind at 1.
    unfold run_hook, try_except_as, call_method, bind. by rewrite HP, Hf, He.
Qed.

(** With [fps_cap = 0] the first frame whose [run()] returns ends the
    frame loop with [ZeroDivisionError]: the value of [run()] is already
    on the return queue, nothing was slept and no sample is recorded. *)
Theorem zero_fps_cap_ends_the_loop w d w1 :
  fps_cap P = 0%Z →
  run P (set_start_time (clock w) w) = Returned d w1 →
  ∃ w',
    plugin P w = Raised ZeroDivisionError w' ∧
    (∀ fuel, main_loop P (S fuel) w = Raised ZeroDivisionError w') ∧
    pending return_queue w'
      = (if is_none d then pending return_queue w1
         else pending return_queue w1 ++ [d])%list ∧
    slept w' = slept w1 ∧
    performance w' = performance w1.
Proof.
  intros Hfps Hrun.
  assert (Hp : ∃ w', plugin P w = Raised ZeroDivisionError w' ∧
             pending return_queue w'
               = (if is_none d then pending return_queue w1
                  else pending return_queue w1 ++ [d])%list ∧
             slept w' = slept w1 ∧ performance w' = performance w1).
  { unfold plugin, bind, before, time. simpl. rewrite Hrun.
    unfold after, bind, time. rewrite Hfps.
    destruct (is_none d); simpl; eexists; (split; [reflexivity|]); simpl;
      repeat split. }
  destruct Hp as (w' & Hp & Hq & Hs & Hperf).
  exists w'. split; [exact Hp|]. split; [|done].
  intros fuel. unfold main_loop. simpl. unfold bind. by rewrite Hp.
Qed.

(** [ask] and [dialog] take the reply off the immediate return queue but
    never mark it done, so the count of unfinished tasks of that queue
    stays where the reply's [put] left it, whereas [notify] counts it
    down.  [ask] hands back the reply's ["response"], and raises, with the
    reply gone, when there is none; [dialog] hands back the whole
    reply. *)
Theorem ask_and_dialog_never_acknowledge w text type options description
    (build : M U Value) reply rest :
  pending immediate_return_queue w = reply :: rest →
  (∀ r, getitem reply "response" = Ok r →
     ∃ w', ask text options description w = Returned r w' ∧
           pending immediate_return_queue w' = rest ∧
           unfinished immediate_return_queue w'
             = unfinished immediate_return_queue w) ∧
  (∀ e, getitem reply "response" = Raise e →
     ∃ w', ask text options description w = Raised e w' ∧
           pending immediate_return_queue w' = rest) ∧
  (∀ opts w1, build w = Returned opts w1 →
     pending immediate_return_queue w1 = reply :: rest →
     ∃ w', dialog build w = Returned reply w' ∧
           pending immediate_return_queue w' = rest ∧
           unfinished immediate_return_queue w'
             = unfinished immediate_return_queue w1) ∧
  (∀ n, unfinished immediate_return_queue w = S n →
     ∃ w', notify text type w = Returned reply w' ∧
           pending immediate_return_queue w' = rest ∧
           unfinished immediate_return_queue w' = n).
Proof.
  intros Hp. unfold pending in Hp. split; [|split; [|split]].
  - intros r Hr. unfold ask, bind, put, get. simpl. rewrite Hp, Hr.
    eexists. split; [reflexivity|]. by repeat split.
  - intros e He. unfold ask, bind, put, get. simpl. rewrite Hp, He.
    eexists. split; [reflexivity|]. by repeat split.
  - intros opts w1 Hb Hq. unfold pending in Hq.
    unfold dialog, bind. rewrite Hb. unfold put, get. simpl. rewrite Hq.
    eexists. split; [reflexivity|]. by repeat split.
  - intros n Hu. unfold unfinished in Hu.
    unfold notify, bind, put, get, task_done. simpl. rewrite Hp. simpl.
    rewrite Hu. eexists. split; [reflexivity|].
    by repeat split.
Qed.

(** The settings-menu thread has no handler around [render()]: when
    [render()] raises, the thread ends with that exception, whatever is
    left to run; the request was taken and marked done before, and the
    thread itself has put no reply. *)
Theorem settings_menu_thread_dies_with_render render w m rest n e w2 :
  settings_menu P = Menu render →
  pending settings_menu_queue w = m :: rest →
  unfinished settings_menu_queue w = S n →
  render (w_done settings_menu_queue n (w_take settings_menu_queue rest w))
    = Raised e w2 →
  (∀ fuel, settings_menu_thread P (S fuel) w = Raised e w2) ∧
  pending settings_menu_queue
    (w_done settings_menu_queue n (w_take settings_menu_queue rest w)) = rest ∧
  unfinished settings_menu_queue
    (w_done settings_menu_queue n (w_take settings_menu_queue rest w)) = n ∧
  pending settings_menu_return_queue
    (w_done settings_menu_queue n (w_take settings_menu_queue rest w))
    = pending settings_menu_return_queue w.
Proof.
  intros HP Hp Hu Hr. split; [|by repeat split].
  intros fuel. unfold settings_menu_thread. rewrite HP. simpl.
  unfold bind at 1. unfold settings_menu_iteration, bind.
  rewrite (get_head _ _ _ _ Hp).
  rewrite (task_done_ok _ _ n); [|exact Hu].
  by rewrite Hr.
Qed.

(** A frontend request for the method [target], with a list of arguments
    and a dictionary of keyword arguments, calls the method with exactly
    those and drops what it returns; a request whose operation is not
    ["function"] calls nothing. *)
Theorem dispatch_calls_the_method target f l k w :
  getattr P target = Method f →
  dispatch P (call_message target (PList l) (PDict k)) w
    = bind (f l k) (λ _, ret tt) w ∧
  (∀ op rest, op ≠ "function" →
     dispatch P (PDict (("operation", PStr op) :: rest)) w = Returned tt w).
Proof.
  intros HP. split.
  - unfold dispatch, call_message. unfold bind at 1 2 3. simpl.
    destruct (neqb (PDict k) (PDict [])) eqn:Hk.
    + unfold call_target. unfold bind at 2. simpl. rewrite HP.
      unfold bind. simpl. by destruct (f l k w).
    + apply neqb_dict_empty in Hk as ->.
      unfold call_target. unfold bind at 2. simpl. rewrite HP.
      unfold bind. simpl. by destruct (f l [] w).
  - intros op rest Hop. unfold dispatch, bind. simpl.
    apply String.eqb_neq in Hop. by rewrite Hop.
Qed.

End LoopFacts.

(** The careless plugin's [init] leaves no trace; its [initialize] leaves
    one line.  The [SystemExit] of the quitting plugin's [init] leaves the
    hooks. *)
Lemma init_hooks_contain_exceptions_witness :
  run_hook careless_plugin "init" idle_world = Returned tt idle_world ∧
  init_hooks careless_plugin idle_world
    = Returned tt (add_log "Error in 'initialize' function" idle_world) ∧
  init_hooks quitting_plugin idle_world = Raised SystemExit idle_world.
Proof.
  split; [|split].
  - apply (proj1 (proj2 (proj2 (init_hooks_contain_exceptions careless_plugin)))
             "init" (λ _ _, raise AttributeError) idle_world idle_world
             eq_refl eq_refl).
  - reflexivity.
  - apply (proj2 (proj2 (proj2 (proj2
             (init_hooks_contain_exceptions quitting_plugin))))
             (λ _ _, raise SystemExit) idle_world SystemExit idle_world
             eq_refl eq_refl eq_refl).
Defined.

Lemma zero_fps_cap_ends_the_loop_witness :
  ∃ w', main_loop careless_plugin 5 idle_world = Raised ZeroDivisionError w' ∧
        pending return_queue w' = [PNum 1] ∧
        performance w' = [].
Proof.
  destruct (zero_fps_cap_ends_the_loop careless_plugin idle_world (PNum 1)
              (set_start_time 100 idle_world) eq_refl eq_refl)
    as (w' & _ & Hloop & Hq & _ & Hperf).
  exists w'. split; [apply Hloop|]. split; [exact Hq|exact Hperf].
Defined.

(** A reply without ["response"]: [ask] raises [KeyError] and the reply is
    gone. *)
Lemma ask_and_dialog_never_acknowledge_witness :
  ∃ w', ask (PStr "Go on?") (PList [PStr "Yes"; PStr "No"]) (PStr "")
          (answered_world (PDict [("answer", PStr "Yes")]))
        = Raised (KeyError "response") w' ∧
        pending immediate_return_queue w' = [].
Proof.
  apply (proj1 (proj2 (ask_and_dialog_never_acknowledge
           (answered_world (PDict [("answer", PStr "Yes")]))
           (PStr "Go on?") (PStr "info") (PList [PStr "Yes"; PStr "No"])
           (PStr "") (ret PNone) (PDict [("answer", PStr "Yes")]) []
           eq_refl))).
  reflexivity.
Defined.

Lemma settings_menu_thread_dies_with_render_witness :
  settings_menu_thread careless_plugin 4
    (w_put settings_menu_queue PNone idle_world)
  = Raised (KeyError "title")
      (w_done settings_menu_queue 0
         (w_take settings_menu_queue []
            (w_put settings_menu_queue PNone idle_world))).
Proof.
  apply (proj1 (settings_menu_thread_dies_with_render careless_plugin
           (raise (KeyError "title"))
           (w_put settings_menu_queue PNone idle_world) PNone [] 0
           (KeyError "title") _ eq_refl eq_refl eq_refl eq_refl)).
Defined.

Lemma dispatch_calls_the_method_witness :
  dispatch example_plugin
    (call_message "ok" (PList [PNum 2]) (PDict [("fast", PBool true)]))
    idle_world = Returned tt idle_world.
Proof.
  apply (proj1 (dispatch_calls_the_method example_plugin "ok"
                  (λ _ _, ret (PNum 1)) [PNum 2] [("fast", PBool true)]
                  idle_world eq_refl)).
Defined.

End PluginLife.

(** ** More on the web server: the plugin list, refusals and failures *)

Module WebserverFacts.

Import Py Webserver.

#[local] Arguments String.eqb : simpl nomatch.

(** *** [get_plugins] *)

(** [plugin in enabledPlugins], on a list of names. *)
Definition name_in (plugin : string) (names : list string) : bool :=
  existsb (String.eqb plugin) names.

Section Plugins.

(** What the backend answers: [GetAvailablePlugins()], a dictionary from
    plugin names to descriptions; [GetEnabledPlugins()], a list of names;
    and the attribute [frameTimes], a dictionary from plugin names to
    frame times. *)
Variable GetAvailablePlugins : list (string * Value).
Variable GetEnabledPlugins : Res (list string).
Variable frameTimes : Res (list (string * Value)).

(** The two [try] blocks. *)
Definition enabledPlugins : list string :=
  match GetEnabledPlugins with
  | Ok names => names
  | Raise _ => []
  end.

Definition frametimes : list (string * Value) :=
  match frameTimes with
  | Ok times => times
  | Raise _ => []
  end.

(** The body of the loop on one description. *)
Definition mark (plugin : string) (description : Value) : Res Value :=
  res_bind (setitem description "enabled" (PBool false)) (λ d1,
  res_bind (if name_in plugin enabledPlugins
            then setitem d1 "enabled" (PBool true) else Ok d1) (λ d2,
  res_bind (setitem d2 "frametimes" (PNum 0)) (λ d3,
  match dict_get plugin frametimes with
  | Some t => setitem d3 "frametimes" t
  | None => Ok d3
  end))).

(** [for plugin in plugins]: the descriptions are reached through
    [returnData], the copy that shares them. *)
Fixpoint mark_all (plugins : list string) (returnData : list (string * Value)) :
    Res (list (string * Value)) :=
  match plugins with
  | [] => Ok returnData
  | plugin :: rest =>
      match dict_get plugin returnData with
      | None => Raise (KeyError plugin)
      | Some description =>
          res_bind (mark plugin description) (λ d,
            mark_all rest (dict_set plugin d returnData))
      end
  end.

Definition get_plugins : Res Value :=
  res_bind (mark_all (map fst GetAvailablePlugins) GetAvailablePlugins)
           (λ returnData, Ok (PDict returnData)).

End Plugins.

(** The frame time [get_plugins] reports for a plugin. *)
Definition reported_time (times : list (string * Value)) (plugin : string) :
    Value :=
  match dict_get plugin times with
  | Some t => t
  | None => PNum 0
  end.

(** Two plugins, one of them enabled and measured. *)
Definition two_plugins : list (string * Value) :=
  [("Map", PDict [("author", PStr "Tumppi066")]);
   ("CruiseControl", PDict [("author", PStr "Glas42"); ("enabled", PStr "?")])].

Lemma dict_set_keys k v d :
  dict_get k d ≠ None → map fst (dict_set k v d) = map fst d.
Proof.
  induction d as [|[k' v'] d IH]; simpl; [done|].
  destruct (String.eqb k k') eqn:E; simpl; [done|].
  intros H. by rewrite IH.
Qed.

Lemma dict_get_in k d : dict_get k d ≠ None ↔ k ∈ map fst d.
Proof.
  induction d as [|[k' v'] d IH]; simpl.
  - split; [done|]. by intros ?%elem_of_nil.
  - rewrite elem_of_cons. destruct (String.eqb k k') eqn:E.
    + apply String.eqb_eq in E. split; [by left|done].
    + apply String.eqb_neq in E. rewrite IH. split; [by right|].
      by intros [?|?].
Qed.

Section PluginsFacts.

Variable enabled : Res (list string).
Variable times : Res (list (string * Value)).

(** A description after the loop body. *)
Definition marked (plugin : string) (d : list (string * Value)) :
    list (string * Value) :=
  dict_set "frametimes" (reported_time (frametimes times) plugin)
    (dict_set "enabled" (PBool (name_in plugin (enabledPlugins enabled))) d).

Lemma dict_set_set k v v' d :
  dict_set k v' (dict_set k v d) = dict_set k v' d.
Proof.
  induction d as [|[k0 v0] d IH]; simpl.
  - by rewrite String.eqb_refl.
  - destruct (String.eqb k k0) eqn:E; simpl; rewrite E; [done|by rewrite IH].
Qed.

Lemma mark_dict plugin d :
  mark enabled times plugin (PDict d) = Ok (PDict (marked plugin d)).
Proof.
  unfold mark, marked, reported_time. simpl.
  destruct (name_in plugin (enabledPlugins enabled)); simpl;
    destruct (dict_get plugin (frametimes times)); simpl;
    by rewrite ?dict_set_set.
Qed.

Lemma marked_entries plugin d :
  dict_get "enabled" (marked plugin d)
    = Some (PBool (name_in plugin (enabledPlugins enabled))) ∧
  dict_get "frametimes" (marked plugin d)
    = Some (reported_time (frametimes times) plugin) ∧
  (∀ k, k ≠ "enabled" → k ≠ "frametimes" →
        dict_get k (marked plugin d) = dict_get k d).
Proof.
  unfold marked. split; [|split].
  - by rewrite dict_get_set_ne, dict_get_set_eq.
  - by rewrite dict_get_set_eq.
  - intros k H1 H2. by rewrite !dict_get_set_ne.
Qed.

Lemma mark_all_spec plugins :
  ∀ rd, NoDup plugins →
    (∀ n, n ∈ plugins → ∃ d, dict_get n rd = Some (PDict d)) →
    ∃ rd', mark_all enabled times plugins rd = Ok rd' ∧
           map fst rd' = map fst rd ∧
           (∀ n d, n ∈ plugins → dict_get n rd = Some (PDict d) →
                   dict_get n rd' = Some (PDict (marked n d))) ∧
           (∀ n, n ∉ plugins → dict_get n rd' = dict_get n rd).
Proof.
  induction plugins as [|p rest IH]; intros rd Hnd Hall.
  - exists rd. split; [done|]. split; [done|]. split; [|done].
    by intros n d ?%elem_of_nil.
  - apply NoDup_cons in Hnd as [Hp Hnd].
    destruct (Hall p) as [d Hd]; [by left|].
    simpl. rewrite Hd, mark_dict. simpl.
    destruct (IH (dict_set p (PDict (marked p d)) rd) Hnd)
      as (rd' & Hrun & Hkeys & Hin & Hout).
    { intros n Hn. assert (p ≠ n) by (by intros ->).
      rewrite dict_get_set_ne by done. apply Hall. by right. }
    exists rd'. split; [exact Hrun|]. split; [|split].
    + rewrite Hkeys. apply dict_set_keys. by rewrite Hd.
    + intros n d' [->|Hn]%elem_of_cons Hget.
      * rewrite (Hout p Hp), dict_get_set_eq. congruence.
      * assert (p ≠ n) by (by intros ->).
        apply Hin; [done|]. by rewrite dict_get_set_ne.
    + intros n Hn. apply not_elem_of_cons in Hn as [Hne Hn].
      rewrite (Hout n Hn). by rewrite dict_get_set_ne.
Qed.

(** [get_plugins] answers with the backend's plugins, in the backend's
    order.  Each description gets ["enabled"], true exactly for the
    plugins the backend lists as enabled, and ["frametimes"], the
    backend's frame time of the plugin or 0; its other entries are kept.
    When the list of enabled plugins cannot be had, every plugin is
    reported as disabled; without frame times, every time is 0. *)
Theorem get_plugins_marks_every_plugin plugins :
  NoDup (map fst plugins) →
  (∀ n v, dict_get n plugins = Some v → ∃ d, v = PDict d) →
  ∃ rd,
    get_plugins plugins enabled times = Ok (PDict rd) ∧
    map fst rd = map fst plugins ∧
    (∀ n d, dict_get n plugins = Some (PDict d) →
       ∃ d', dict_get n rd = Some (PDict d') ∧
             dict_get "enabled" d'
               = Some (PBool (name_in n (enabledPlugins enabled))) ∧
             dict_get "frametimes" d'
               = Some (reported_time (frametimes times) n) ∧
             (∀ k, k ≠ "enabled" → k ≠ "frametimes" →
                   dict_get k d' = dict_get k d)) ∧
    (∀ e n, enabled = Raise e → name_in n (enabledPlugins enabled) = false) ∧
    (∀ e n, times = Raise e → reported_time (frametimes times) n = PNum 0).
Proof.
  intros Hnd Hdict.
  destruct (mark_all_spec (map fst plugins) plugins Hnd)
    as (rd & Hrun & Hkeys & Hin & _).
  { intros n Hn. apply dict_get_in in Hn.
    destruct (dict_get n plugins) as [v|] eqn:Hv; [|done].
    destruct (Hdict n v Hv) as [d ->]. by exists d. }
  exists rd. split; [|split; [exact Hkeys|split; [|split]]].
  - unfold get_plugins. by rewrite Hrun.
  - intros n d Hget. exists (marked n d). split.
    + apply Hin; [|done]. apply dict_get_in. by rewrite Hget.
    + apply marked_entries.
  - by intros e n ->.
  - by intros e n ->.
Qed.

End PluginsFacts.

Lemma get_plugins_marks_every_plugin_witness :
  ∃ rd, get_plugins two_plugins (Ok ["CruiseControl"]) (Raise AttributeError)
          = Ok (PDict rd) ∧
        map fst rd = ["Map"; "CruiseControl"] ∧
        ∃ d', dict_get "CruiseControl" rd = Some (PDict d') ∧
              dict_get "enabled" d' = Some (PBool true) ∧
              dict_get "frametimes" d' = Some (PNum 0) ∧
              dict_get "author" d' = Some (PStr "Glas42").
Proof.
  destruct (get_plugins_marks_every_plugin (Ok ["CruiseControl"])
              (Raise AttributeError) two_plugins)
    as (rd & Hrun & Hkeys & Hin & _).
  - simpl. apply NoDup_cons.
    split; [by intros [=]%list_elem_of_singleton|apply NoDup_singleton].
  - intros n v. unfold two_plugins. simpl.
    destruct (String.eqb n "Map"); [intros [= <-]; by eexists|].
    destruct (String.eqb n "CruiseControl"); [intros [= <-]; by eexists|done].
  - exists rd. split; [exact Hrun|]. split; [exact Hkeys|].
    destruct (Hin "CruiseControl" _ eq_refl) as (d' & Hd & He & Ht & Hk).
    exists d'. split; [exact Hd|]. split; [exact He|]. split; [exact Ht|].
    by rewrite Hk.
Defined.

(** *** Refusals and failures *)

(** A backend whose state counts the calls it gets, and whose plugin
    functions return 0. *)
Definition counting_backend : Backend nat :=
  {| AddPluginRunner := λ _ b, (Ok (PBool true), S b);
     RemovePluginRunner := λ _ b, (Ok (PBool true), S b);
     CallPluginFunction := λ _ _ _ _ b, (Ok (PNum 0), S b);
     settings_Set := λ _ _ _ b, (Ok (PBool true), S b);
     settings_Get := λ _ _ b, (Ok PNone, S b);
     settings_GetJSON := λ _ b, (Ok (PDict []), S b) |}.

Definition counting_app : App nat := {| variables := ∅; backend_state := 0 |}.

Definition no_arguments : Value :=
  PDict [("args", PList []); ("kwargs", PDict [])].

Section Refusals.

Context {B : Type}.
Variable backend : Backend B.
Implicit Types (a : App B).

(** The endpoints that change something are bound to one method each: a
    request to enable or disable a plugin, or to quit or restart, made
    with POST, and a request to set a setting or to call a function made
    with GET, are answered 405 and reach no handler. *)
Theorem wrong_method_is_refused a plugin key function body :
  valid_name plugin = true →
  valid_name key = true →
  valid_name function = true →
  serve backend POST ("/api/plugins/" ++ plugin ++ "/enable") body a = Status405 ∧
  serve backend POST ("/api/plugins/" ++ plugin ++ "/disable") body a = Status405 ∧
  serve backend GET ("/api/plugins/" ++ plugin ++ "/settings/" ++ key ++ "/set")
    body a = Status405 ∧
  serve backend GET ("/api/plugins/" ++ plugin ++ "/call/" ++ function) body a
    = Status405 ∧
  serve backend POST "/api/quit" body a = Status405 ∧
  serve backend POST "/api/restart" body a = Status405.
Proof.
  intros [Hne Hns]%valid_name_spec [Hke Hks]%valid_name_spec
         [Hfe Hfs]%valid_name_spec.
  assert (H1 : resolve POST ("/api/plugins/" ++ plugin ++ "/enable")
               = MethodNotAllowed) by resolve_plugin_route.
  assert (H2 : resolve POST ("/api/plugins/" ++ plugin ++ "/disable")
               = MethodNotAllowed) by resolve_plugin_route.
  assert (H3 : resolve GET ("/api/plugins/" ++ plugin ++ "/settings/" ++ key
                            ++ "/set") = MethodNotAllowed).
  { change ("/settings/" ++ key ++ "/set")
      with (String slash ("settings" ++ String slash (key ++ String slash "set"))).
    resolve_plugin_route. }
  assert (H4 : resolve GET ("/api/plugins/" ++ plugin ++ "/call/" ++ function)
               = MethodNotAllowed).
  { change ("/call/" ++ function)
      with (String slash ("call" ++ String slash function)).
    resolve_plugin_route. }
  unfold serve. rewrite H1, H2, H3, H4. by repeat split.
Qed.

(** A request whose body is missing or lacks an entry the handler reads
    raises without reaching the backend: the application is as it was. *)
Theorem bad_body_never_reaches_backend a plugin key function d :
  valid_name plugin = true →
  valid_name key = true →
  valid_name function = true →
  let set_one := "/api/plugins/" ++ plugin ++ "/settings/" ++ key ++ "/set" in
  let set_many := "/api/plugins/" ++ plugin ++ "/settings/set" in
  let call := "/api/plugins/" ++ plugin ++ "/call/" ++ function in
  serve backend POST set_one None a = Reply (Raise unprocessable, a) ∧
  serve backend POST set_many None a = Reply (Raise unprocessable, a) ∧
  serve backend POST call None a = Reply (Raise unprocessable, a) ∧
  (dict_get "value" d = None →
   serve backend POST set_one (Some (PDict d)) a
     = Reply (Raise (KeyError "value"), a)) ∧
  (dict_get "keys" d = None →
   serve backend POST set_many (Some (PDict d)) a
     = Reply (Raise (KeyError "keys"), a)) ∧
  (dict_get "keys" d ≠ None → dict_get "setting" d = None →
   serve backend POST set_many (Some (PDict d)) a
     = Reply (Raise (KeyError "setting"), a)) ∧
  (dict_get "args" d = None ∨ dict_get "kwargs" d = None →
   serve backend POST call (Some (PDict d)) a
     = Reply (Raise unprocessable, a)).
Proof.
  intros Hp Hk Hf set_one set_many call. subst set_one set_many call.
  unfold serve.
  rewrite (resolve_set_setting plugin key Hp Hk), (resolve_set_settings plugin Hp),
    (resolve_call plugin function Hp Hf).
  cbn [param String.eqb]. simpl param.
  repeat split.
  - intros Hd. unfold set_plugin_setting, getitem. by rewrite Hd.
  - intros Hd. unfold set_plugin_settings, getitem. by rewrite Hd.
  - intros Hd Hs. unfold set_plugin_settings, getitem. rewrite Hs.
    by destruct (dict_get "keys" d).
  - intros Hd. unfold call_plugin_function, PluginCallData.
    destruct Hd as [-> | Hd]; [done|]. rewrite Hd.
    by destruct (dict_get "args" d) as [[]|].
Qed.

(** A plugin function that returns [False], [None] or 0 is reported as
    failed, with whatever the call did to the backend left done; any
    other value, an empty list included, is handed back. *)
Theorem falsy_result_is_a_failure a plugin function args kwargs returnData a' :
  call_backend (CallPluginFunction backend plugin function
                  (PList args) (PDict kwargs)) a = (Ok returnData, a') →
  let body := Some (PDict [("args", PList args); ("kwargs", PDict kwargs)]) in
  (returnData = PBool false ∨ returnData = PNone ∨ returnData = PNum 0 →
   call_plugin_function backend plugin function body a
     = (Raise (Exception "Plugin function failed"), a')) ∧
  (returnData = PList [] ∨ returnData = PStr "" ∨ returnData = PDict [] →
   call_plugin_function backend plugin function body a = (Ok returnData, a')).
Proof.
  intros Hc body. subst body. unfold call_plugin_function. cbn.
  rewrite Hc. split.
  - by intros [-> | [-> | ->]].
  - by intros [-> | [-> | ->]].
Qed.

End Refusals.

Lemma wrong_method_is_refused_witness :
  serve counting_backend POST "/api/plugins/Map/enable" None counting_app
    = Status405.
Proof.
  apply (wrong_method_is_refused counting_backend counting_app "Map"
           "data_hash" "reload" None eq_refl eq_refl eq_refl).
Defined.

Lemma bad_body_never_reaches_backend_witness :
  serve counting_backend POST "/api/plugins/Map/settings/data_hash/set"
    (Some (PDict [("val", PNum 1)])) counting_app
  = Reply (Raise (KeyError "value"), counting_app).
Proof.
  destruct (bad_body_never_reaches_backend counting_backend counting_app "Map"
              "data_hash" "reload" [("val", PNum 1)] eq_refl eq_refl eq_refl)
    as (_ & _ & _ & H & _).
  apply H. reflexivity.
Defined.

(** The counting backend was called, and the caller is told of a failure. *)
Lemma falsy_result_is_a_failure_witness :
  call_plugin_function counting_backend "Map" "reload" (Some no_arguments)
    counting_app
  = (Raise (Exception "Plugin function failed"),
     {| variables := ∅; backend_state := 1 |}).
Proof.
  apply (proj1 (falsy_result_is_a_failure counting_backend counting_app "Map"
                  "reload" [] [] (PNum 0) _ eq_refl)).
  right. right. reflexivity.
Defined.

End WebserverFacts.

(** ** More on the cruise-control plugin: what a frame writes *)

Module CruiseFacts.

Import Py CruiseControl.
#[local] Open Scope Q_scope.

(** The keys of [data["sdk"]] that [plugin] assigns. *)
Definition command_keys : list string :=
  ["CruiseControl"; "CruiseControlIncrease"; "CruiseControlDecrease"].

Definition sdk_keys : list string :=
  command_keys ++ ["acceleration"; "brake"].

(** [s'] has the entries of [s] other than ["sdk"], and under ["sdk"] the
    values of [s] other than those of the keys [plugin] assigns. *)
Definition others_kept (s s' : Env) : Prop :=
  same_entries s s' ∧
  ∀ k, k ∉ sdk_keys → sdk_value k (data s') = sdk_value k (data s).

(** [s'] differs from [s] in the image at most. *)
Definition frame_only (s s' : Env) : Prop :=
  B s' = B s ∧ N s' = N s ∧ V s' = V s ∧ entries (data s') = entries (data s).

(** [s'] has the image of [s]. *)
Definition frame_kept (s s' : Env) : Prop :=
  frame (data s') = frame (data s).

(** [data["frame"]] is as it was, or the symbols are shown, it was an
    image, and it now is that image with a symbol pasted in. *)
Definition frame_drawn (cfg : Config)
    (paste : Symbol → bool → Frame → Res Frame) (s s' : Env) : Prop :=
  frame (data s') = frame (data s) ∨
  (show_symbols cfg = true ∧
   ∃ h w px symbol indicator f,
     frame (data s) = Some (Image h w px) ∧
     paste symbol indicator (Image h w px) = Ok f ∧
     frame (data s') = Some f).

(** [data["frame"]] is missing or has no shape. *)
Definition no_image (s : Env) : Prop :=
  match frame (data s) with
  | None | Some (NoImage _) => True
  | Some (Image _ _ _) => False
  end.

(** [s'] has the image of [s] and the four remembered values of [s]. *)
Definition memory_kept (s s' : Env) : Prop :=
  frame (data s') = frame (data s) ∧
  B s' last_lanedetected = B s last_lanedetected ∧
  B s' last_do_lanedetected_stop = B s last_do_lanedetected_stop ∧
  V s' last_hazard_light = V s last_hazard_light ∧
  N s' last_cruisecontrolspeed = N s last_cruisecontrolspeed.

(** The remembered values are those of this frame. *)
Definition memory_fresh (s : Env) : Prop :=
  B s last_lanedetected = B s lanedetected ∧
  B s last_do_lanedetected_stop = B s do_lanedetected_stop ∧
  V s last_hazard_light = V s hazard_light ∧
  N s last_cruisecontrolspeed = N s cruisecontrolspeed.

(** The result of a call is the dictionary the call leaves. *)
Definition returns_data (r : Res Data * Env) : Prop :=
  ∀ d, fst r = Ok d → d = data (snd r).

(** A frame without an image, as a plugin gets it when no screen capture
    runs. *)
Definition blind_frame : Data :=
  {| entries := [("api", telemetry 20 0 0 false);
                 ("sdk", PDict [("LightsHazard", PBool true)])];
     frame := None |}.

(** The variables when the previous frame saw a lane and a cruise-control
    speed of 80 km/h. *)
Definition after_lane : Env :=
  setN last_cruisecontrolspeed 80
    (setB last_lanedetected true (UpdateSettings_env blind_frame)).

Lemma others_kept_refl s : others_kept s s.
Proof. split; [apply same_entries_refl|done]. Qed.

Lemma others_kept_trans a b c :
  others_kept a b → others_kept b c → others_kept a c.
Proof.
  intros [E1 K1] [E2 K2]. split; [by eapply same_entries_trans|].
  intros k Hk. by rewrite K2, K1.
Qed.

Lemma frame_only_refl s : frame_only s s.
Proof. done. Qed.

Lemma frame_only_trans a b c : frame_only a b → frame_only b c → frame_only a c.
Proof.
  intros (B1 & N1 & V1 & E1) (B2 & N2 & V2 & E2).
  unfold frame_only. by rewrite B2, N2, V2, E2.
Qed.

Lemma memory_kept_refl s : memory_kept s s.
Proof. done. Qed.

Lemma memory_kept_trans a b c :
  memory_kept a b → memory_kept b c → memory_kept a c.
Proof.
  intros (F1 & A1 & B1 & C1 & D1) (F2 & A2 & B2 & C2 & D2).
  unfold memory_kept. by rewrite F2, A2, B2, C2, D2.
Qed.

(** Every part of [plugin] at once. *)
Ltac unfold_plugin :=
  unfold plugin, read_telemetry, read_body, read_fallback, kmh, truckFloat,
    api, choose_target, control, accelerate, hazard, await_hazard_light,
    lane_stop, remember.

Section Writes.

Variable cfg : Config.
Variable steering : bool.
Variable current_time : Q.
Variable paste : Symbol → bool → Frame → Res Frame.

Lemma overlay_frame_only s : frame_only s (snd (overlay cfg steering paste s)).
Proof.
  unfold overlay.
  destruct (frame (data s)) as [[v|h w px]|]; try done.
  match goal with
  | |- frame_only s (snd (?m s)) =>
      assert (H : steps (λ _, True) frame_only m)
  end.
  { unfold api.
    steps_with frame_only_refl frame_only_trans fail
      ltac:(first [ by (intros ? ?; split) ]). }
  by apply H.
Qed.

Lemma overlay_no_image s : no_image s → overlay cfg steering paste s = (Ok false, s).
Proof.
  unfold no_image, overlay. by destruct (frame (data s)) as [[v|h w px]|].
Qed.

(** What [plugin] returns is the frame dictionary it leaves. *)
Lemma bind_returns_data {A} (m : C A) (f : A → C Data) s :
  (∀ a s', returns_data (f a s')) → returns_data (bind m f s).
Proof.
  intros Hf. unfold bind. destruct (m s) as [[a|e] s']; [apply Hf|done].
Qed.

Lemma plugin_returns_data s :
  returns_data (plugin cfg steering current_time paste s).
Proof.
  unfold plugin. repeat (apply bind_returns_data; intros ? ?).
  by intros d [= <-].
Qed.

Lemma sdk_set_others_kept k v :
  k ∈ sdk_keys → steps (λ _, True) others_kept (sdk_set k v).
Proof.
  intros Hk s _. split; [done|]. unfold sdk_set, bind, data_get, lift.
  destruct (dict_get "sdk" (entries (data s))) as [sdk|] eqn:E;
    [|apply others_kept_refl].
  destruct sdk; simpl; try apply others_kept_refl.
  split.
  - intros k' Hk'. simpl. by apply dict_get_set_ne.
  - intros k' Hk'. unfold sdk_value. simpl. rewrite dict_get_set_eq, E.
    apply dict_get_set_ne. by intros ->.
Qed.

Lemma ensure_sdk_others_kept : steps (λ _, True) others_kept ensure_sdk.
Proof.
  intros s _. split; [done|].
  unfold ensure_sdk, try_except, bind, data_get, data_set.
  destruct (dict_get "sdk" (entries (data s))) as [sdk|] eqn:E;
    [apply others_kept_refl|].
  split.
  - intros k Hk. simpl. by apply dict_get_set_ne.
  - intros k Hk. unfold sdk_value. simpl. by rewrite dict_get_set_eq, E.
Qed.

Ltac others_side :=
  intros ? ? ?; split; [done | split; by intros ? ?].

Ltac in_keys := apply (bool_decide_unpack _); by vm_compute.

(** *** The early return of the symbol overlay *)

(** On a normal return, [Q] holds of the value and the variables. *)
Definition post (I : Env → Prop) {A} (Q : A → Env → Prop) (m : C A) : Prop :=
  ∀ s, I s → ∀ a, fst (m s) = Ok a → Q a (snd (m s)).

Lemma post_bind I R {A X} (Q : X → Env → Prop) (m : C A) (f : A → C X) :
  steps I R m → (∀ a, post I Q (f a)) → post I Q (bind m f).
Proof.
  intros Hm Hf s Hs x. unfold bind. destruct (Hm s Hs) as [HI _].
  destruct (m s) as [[a|e] s']; simpl in *; [by apply Hf|done].
Qed.

Ltac memory_side :=
  intros ? ? ?; split; [done | by repeat split].

Lemma sdk_set_memory k v : steps (λ _, True) memory_kept (sdk_set k v).
Proof.
  intros s _. split; [done|]. unfold sdk_set, bind, data_get, lift.
  destruct (dict_get "sdk" (entries (data s))) as [sdk|]; [|done].
  by destruct sdk.
Qed.

Lemma ensure_sdk_memory : steps (λ _, True) memory_kept ensure_sdk.
Proof.
  intros s _. split; [done|].
  unfold ensure_sdk, try_except, bind, data_get, data_set.
  by destruct (dict_get "sdk" (entries (data s))).
Qed.

Ltac memory_steps :=
  steps_with memory_kept_refl memory_kept_trans memory_side
    ltac:(first [ apply sdk_set_memory | apply ensure_sdk_memory ]).

Lemma read_telemetry_memory :
  steps (λ _, True) memory_kept (read_telemetry steering).
Proof. unfold_plugin. memory_steps. Qed.

Lemma choose_target_memory :
  steps (λ _, True) memory_kept (choose_target cfg current_time).
Proof. unfold_plugin. memory_steps. Qed.

Lemma control_memory :
  steps (λ _, True) memory_kept (control cfg steering current_time).
Proof. unfold_plugin. memory_steps. Qed.

Lemma hazard_memory : steps (λ _, True) memory_kept (hazard cfg current_time).
Proof. unfold_plugin. memory_steps. Qed.

Lemma lane_stop_memory :
  steps (λ _, True) memory_kept (lane_stop cfg steering current_time).
Proof. unfold_plugin. memory_steps. Qed.

(** A statement that keeps the image keeps a property of the image. *)
Lemma with_frame (F : option Frame → Prop) {A} (m : C A) :
  steps (λ _, True) memory_kept m →
  steps (λ s, F (frame (data s))) memory_kept m.
Proof.
  intros H s Hs. destruct (H s Logic.I) as [_ HR]. split; [|done].
  destruct HR as [-> _]. exact Hs.
Qed.

Definition has_no_image (f : option Frame) : Prop :=
  match f with
  | None | Some (NoImage _) => True
  | Some (Image _ _ _) => False
  end.

(** Lines 332-448. *)
Definition finish : C Data :=
  go_on <- (if show_symbols cfg then overlay cfg steering paste else ret true) ;;
  (if go_on : bool then remember else ret tt) ;;;
  λ s, (Ok (data s), s).

Lemma finish_blind s :
  show_symbols cfg = true → no_image s → finish s = (Ok (data s), s).
Proof.
  intros Hshow Hno. unfold finish, bind. rewrite Hshow.
  by rewrite (overlay_no_image s Hno).
Qed.

Lemma overlay_with_image s go_on s7 :
  ¬ no_image s → overlay cfg steering paste s = (Ok go_on, s7) → go_on = true.
Proof.
  unfold overlay, no_image.
  destruct (frame (data s)) as [[v|h w px]|]; try (by intros []).
  intros _. unfold bind.
  repeat match goal with
         | |- context [match ?x with _ => _ end] => destruct x; try done
         end.
  all: try (unfold ret; by intros [= <- _]).
Qed.

Lemma bind_unfold {A X} (m : C A) (f : A → C X) s :
  bind m f s = match m s with
               | (Ok a, s') => f a s'
               | (Raise e, s') => (Raise e, s')
               end.
Proof. reflexivity. Qed.

Lemma finish_fresh s d :
  show_symbols cfg = false ∨ ¬ no_image s →
  fst (finish s) = Ok d → memory_fresh (snd (finish s)).
Proof.
  intros Hcase. unfold finish. rewrite bind_unfold.
  assert (Hgo : ∀ s7, memory_fresh
                        (snd (((if true then remember else ret tt) ;;;
                               λ s, (Ok (data s), s)) s7))).
  { intros s7. by repeat split. }
  destruct (show_symbols cfg) eqn:Hshow.
  - destruct Hcase as [|Himg]; [done|].
    destruct (overlay cfg steering paste s) as [[go_on|e] s7] eqn:E; [|done].
    apply (overlay_with_image s go_on s7 Himg) in E as ->.
    intros _. apply Hgo.
  - intros _. apply Hgo.
Qed.

Lemma frame_kept_refl s : frame_kept s s.
Proof. done. Qed.

Lemma frame_kept_trans a b c : frame_kept a b → frame_kept b c → frame_kept a c.
Proof. unfold frame_kept. congruence. Qed.

Lemma memory_frame_kept {A} (m : C A) :
  steps (λ _, True) memory_kept m → steps (λ _, True) frame_kept m.
Proof. intros H s Hs. destruct (H s Hs) as [_ [Hf _]]. by split. Qed.

Lemma bind_frame_drawn {A X} (m : C A) (f : A → C X) s z :
  frame (data z) = frame (data s) →
  steps (λ _, True) frame_kept m →
  (∀ a z', frame (data z') = frame (data s) →
           frame_drawn cfg paste s (snd (f a z'))) →
  frame_drawn cfg paste s (snd (bind m f z)).
Proof.
  intros Hz Hm Hf. unfold bind. destruct (Hm z Logic.I) as [_ Hfr].
  unfold frame_kept in Hfr.
  destruct (m z) as [[a|e] z']; simpl in *.
  - apply Hf. by rewrite Hfr.
  - left. by rewrite Hfr.
Qed.

Lemma frame_drawn_then {A X} (m : C A) (f : A → C X) s z :
  frame_drawn cfg paste s (snd (m z)) →
  (∀ a, steps (λ _, True) frame_kept (f a)) →
  frame_drawn cfg paste s (snd (bind m f z)).
Proof.
  intros Hm Hf. unfold bind.
  destruct (m z) as [[a|e] z']; simpl in *; [|done].
  destruct (Hf a z' Logic.I) as [_ Hfr].
  unfold frame_drawn, frame_kept in *. by rewrite Hfr.
Qed.

Lemma overlay_frame_drawn s z :
  show_symbols cfg = true →
  frame (data z) = frame (data s) →
  frame_drawn cfg paste s (snd (overlay cfg steering paste z)).
Proof.
  intros Hshow Hz. unfold overlay. rewrite Hz.
  destruct (frame (data s)) as [[v|h w px]|] eqn:Hf;
    try (left; simpl; congruence).
  apply bind_frame_drawn; [congruence| |].
  { apply memory_frame_kept. unfold api. memory_steps. }
  intros indicators z1 H1. apply bind_frame_drawn; [done| |].
  { apply memory_frame_kept. memory_steps. }
  intros turnincoming z2 H2. apply bind_frame_drawn; [done| |].
  { intros z' _. by split. }
  intros symbol z3 H3. unfold bind, lift.
  destruct (paste symbol _ (Image h w px)) as [f|e] eqn:Hp; simpl.
  - right. split; [exact Hshow|]. eexists h, w, px, symbol, _, f.
    split; [exact Hf|]. split; [exact Hp|done].
  - left. simpl. congruence.
Qed.

Lemma finish_frame_drawn s z :
  frame (data z) = frame (data s) →
  frame_drawn cfg paste s (snd (finish z)).
Proof.
  intros Hz. unfold finish. apply frame_drawn_then.
  - destruct (show_symbols cfg) eqn:Hshow;
      [by apply overlay_frame_drawn|by left].
  - intros go_on. unfold remember.
    destruct go_on;
      steps_with frame_kept_refl frame_kept_trans
        ltac:(intros ? ? ?; split; [done | reflexivity])
        ltac:(by (intros ? ?; split)).
Qed.

Lemma plugin_frame_drawn s :
  frame_drawn cfg paste s (snd (plugin cfg steering current_time paste s)).
Proof.
  unfold plugin. fold finish.
  apply bind_frame_drawn; [done|apply memory_frame_kept, read_telemetry_memory|].
  intros _ z1 H1.
  apply bind_frame_drawn; [done|apply memory_frame_kept, choose_target_memory|].
  intros _ z2 H2.
  apply bind_frame_drawn; [done|apply memory_frame_kept, ensure_sdk_memory|].
  intros _ z3 H3.
  apply bind_frame_drawn; [done|apply memory_frame_kept, control_memory|].
  intros _ z4 H4.
  apply bind_frame_drawn; [done|apply memory_frame_kept, hazard_memory|].
  intros _ z5 H5.
  apply bind_frame_drawn; [done|apply memory_frame_kept, lane_stop_memory|].
  intros _ z6 H6.
  by apply finish_frame_drawn.
Qed.

(** Whatever the frame and whatever the variables, and whether the call
    returns or raises, [plugin] leaves the entries of the frame dictionary
    other than ["sdk"] and ["frame"] as they were, and under ["sdk"] it
    assigns nothing but [CruiseControl], [CruiseControlIncrease],
    [CruiseControlDecrease], [acceleration] and [brake]: every other key
    there, a hazard-light key for one, has the value the caller gave it.
    [data["frame"]] is as it was, unless the symbols are shown and it is
    an image: then it is either as it was or that image with a symbol
    pasted in.  What is returned is that dictionary. *)
Theorem plugin_writes_five_keys s :
  let r := plugin cfg steering current_time paste s in
  same_entries s (snd r) ∧
  (∀ k, k ∉ sdk_keys → sdk_value k (data (snd r)) = sdk_value k (data s)) ∧
  frame_drawn cfg paste s (snd r) ∧
  (show_symbols cfg = false ∨ no_image s →
   frame (data (snd r)) = frame (data s)) ∧
  (∀ d, fst r = Ok d → d = data (snd r)).
Proof.
  intros r.
  assert (H : steps (λ _, True) others_kept
                (plugin cfg steering current_time paste)).
  { unfold_plugin.
    steps_with others_kept_refl others_kept_trans others_side
      ltac:(first
        [ apply sdk_set_others_kept; in_keys
        | apply ensure_sdk_others_kept
        | by (intros z _; split; [done|];
              destruct (overlay_frame_only z) as (_ & _ & _ & Hz);
              split; [intros k _|intros k _; unfold sdk_value]; by rewrite Hz)
        | by (intros ? ?; split; [done|apply others_kept_refl]) ]). }
  destruct (H s Logic.I) as [_ [HE HK]].
  pose proof (plugin_frame_drawn s) as HF. fold r in HF.
  split; [exact HE|]. split; [exact HK|]. split; [exact HF|].
  split; [|apply plugin_returns_data].
  intros Hcase. destruct HF as [HF|(Hshow & h & w & px & _ & _ & _ & Hi & _)];
    [exact HF|].
  destruct Hcase as [Hoff|Hno]; [congruence|].
  unfold no_image in Hno. by rewrite Hi in Hno.
Qed.

(** With [show_symbols] on and a frame that carries no image, [plugin]
    returns before its last four assignments: [last_lanedetected],
    [last_do_lanedetected_stop], [last_hazard_light] and
    [last_cruisecontrolspeed] stay as the previous call left them, and
    the call returns the dictionary when [data["sdk"]] is missing or a
    dictionary.  In every other case a call that returns has set the four
    to the values of this frame. *)
Theorem bookkeeping_needs_an_image s :
  let r := plugin cfg steering current_time paste s in
  (show_symbols cfg = true → no_image s →
   memory_kept s (snd r) ∧
   (sdk_writable (data s) = true → fst r = Ok (data (snd r)))) ∧
  (show_symbols cfg = false ∨ ¬ no_image s →
   ∀ d, fst r = Ok d → memory_fresh (snd r)).
Proof.
  intros r. split.
  - intros Hshow Hno. split.
    + assert (H : steps no_image memory_kept
                    (plugin cfg steering current_time paste)).
      { unfold plugin. fold finish.
        repeat (apply steps_bind;
                [ apply memory_kept_trans
                | apply (with_frame has_no_image);
                  first [ apply read_telemetry_memory | apply choose_target_memory
                        | apply ensure_sdk_memory | apply control_memory
                        | apply hazard_memory | apply lane_stop_memory ]
                | intros _ ]).
        intros z Hz. by rewrite (finish_blind z Hshow Hz). }
      by apply H.
    + intros Hw.
      set (W := λ d, sdk_writable d = true ∧ has_no_image (frame d)).
      set (S := λ d, (∃ sdk, dict_get "sdk" (entries d) = Some (PDict sdk)) ∧
                     has_no_image (frame d)).
      assert (HS : ∀ k v, steps (λ z, S (data z)) same_entries (sdk_set k v) ∧
                          total (λ z, S (data z)) (sdk_set k v)).
      { intros k v. split; intros z [[sdk Hz] Hf];
          rewrite (sdk_set_run k v z sdk Hz); [|by exists tt].
        simpl. split; [split; [|done]|].
        - eexists. simpl. apply dict_get_set_eq.
        - intros k' Hk. simpl. by apply dict_get_set_ne. }
      assert (W0 : W (data s)) by done.
      destruct (runs _ _ _ s (read_telemetry_steps steering W)
                  (read_telemetry_total steering W) W0)
        as ([] & s1 & E1 & W1 & _).
      destruct (runs _ _ _ s1 (choose_target_steps cfg current_time W)
                  (choose_target_total cfg current_time W) W1)
        as ([] & s2 & E2 & [W2 F2] & _).
      destruct (ensure_sdk_run s2 W2)
        as (s3 & E3 & P3 & _ & _ & _ & _ & F3 & _).
      assert (S3 : S (data s3)) by (split; [exact P3|by rewrite F3]).
      assert (Hrest : total (λ z, S (data z))
                (control cfg steering current_time ;;;
                 hazard cfg current_time ;;;
                 lane_stop cfg steering current_time ;;;
                 finish)).
      { unfold control, accelerate, hazard, await_hazard_light, lane_stop.
        total_with same_entries same_entries_refl same_entries_trans entries_side
          ltac:(apply HS)
          ltac:(first [ apply HS
                      | by (intros z [_ Hz]; rewrite (finish_blind z Hshow Hz);
                            eexists) ]). }
      destruct (Hrest s3 S3) as [d Hd].
      assert (Er : r = (control cfg steering current_time ;;;
                        hazard cfg current_time ;;;
                        lane_stop cfg steering current_time ;;;
                        finish) s3).
      { subst r. unfold plugin. fold finish.
        by rewrite (bind_run _ _ _ _ _ E1), (bind_run _ _ _ _ _ E2),
          (bind_run _ _ _ _ _ E3). }
      rewrite <- Er in Hd. rewrite Hd. f_equal.
      by apply plugin_returns_data.
  - intros Hcase d.
    assert (H : post (λ z, frame (data z) = frame (data s)) (λ _, memory_fresh)
                  (plugin cfg steering current_time paste)).
    { unfold plugin. fold finish.
      repeat (apply (post_bind _ memory_kept);
              [ apply (with_frame (λ f, f = frame (data s)));
                first [ apply read_telemetry_memory | apply choose_target_memory
                      | apply ensure_sdk_memory | apply control_memory
                      | apply hazard_memory | apply lane_stop_memory ]
              | intros _ ]).
      intros z Hz a. apply finish_fresh.
      destruct Hcase as [?|Himg]; [by left|right].
      unfold no_image in *. by rewrite Hz. }
    by apply H.
Qed.

End Writes.

(** The caller's hazard-light key comes back as it was given, and the
    frame without an image as well. *)
Lemma plugin_writes_five_keys_witness :
  let r := plugin example_config true 1000 no_paste
             (UpdateSettings_env blind_frame) in
  sdk_value "LightsHazard" (data (snd r)) = Some (PBool true) ∧
  frame (data (snd r)) = None.
Proof.
  destruct (plugin_writes_five_keys example_config true 1000 no_paste
              (UpdateSettings_env blind_frame)) as (_ & H & _ & Hf & _).
  split.
  - rewrite H; [reflexivity|].
    apply (bool_decide_unpack _). by vm_compute.
  - apply Hf. by right.
Defined.

(** Without an image the call returns and the lane of the previous frame
    is still the remembered one. *)
Lemma bookkeeping_needs_an_image_witness :
  let r := plugin example_config true 1000 no_paste after_lane in
  fst r = Ok (data (snd r)) ∧
  B (snd r) last_lanedetected = true ∧
  N (snd r) last_cruisecontrolspeed = 80.
Proof.
  destruct (bookkeeping_needs_an_image example_config true 1000 no_paste
              after_lane) as [H _].
  destruct (H eq_refl Logic.I) as [(_ & Hl & _ & _ & Hc) Hr].
  split; [by apply Hr|]. split; [exact Hl|exact Hc].
Defined.

(** *** One command per frame *)

(** The cruise-control commands that a frame dictionary carries. *)
Definition sent (d : Data) : list string :=
  List.filter (λ k, bool_decide (is_Some (sdk_value k d))) command_keys.

(** At most one command, and the flag is up when there is one. *)
Definition one_command (s : Env) : Prop :=
  sent (data s) = [] ∨
  (length (sent (data s)) = 1%nat ∧ B s wait_for_response = true).

(** A command is awaited: the flag is up, the command is less than a
    second old and the cruise-control speed is the one of the last frame. *)
Definition awaiting (current_time : Q) (s : Env) : Prop :=
  B s wait_for_response = true ∧
  Qlt_bool (N s wait_for_response_timer) (current_time - 1) = false ∧
  Qneq_bool (N s last_cruisecontrolspeed) (N s cruisecontrolspeed) = false.

(** While a command is awaited, it stays awaited and none is added. *)
Definition quiet (current_time : Q) (s s' : Env) : Prop :=
  awaiting current_time s →
  awaiting current_time s' ∧ sent (data s') = sent (data s).

Definition still_awaiting (current_time : Q) (s s' : Env) : Prop :=
  awaiting current_time s → awaiting current_time s'.

(** A frame at 108 km/h on a road limited to 90 km/h, the cruise control
    off. *)
Definition fast_frame : Data :=
  {| entries := [("api", telemetry 30 0 0 false)]; frame := None |}.

(** The settings with [auto_enable] on and no symbols. *)
Definition plain_config : Config :=
  UpdateSettings_config
    {| enabled_plugins := ["CruiseControl"];
       image_found := λ _, true;
       stored_auto_enable := true; stored_stop_trafficlight := true;
       stored_trafficlight_accelerate := true; stored_auto_accelerate := false;
       stored_auto_hazard := true; stored_auto_stop := false;
       stored_show_symbols := false;
       stored_acceleration := 50; stored_brake := 100 |}.

(** The first call on such a frame, and a second one 0.2 s later. *)
Definition first_call : Res Data * Env :=
  plugin plain_config true 1000 no_paste (UpdateSettings_env fast_frame).

Definition second_call : Res Data * Env :=
  plugin plain_config true 1000.2 no_paste (next_frame fast_frame (snd first_call)).

Lemma sent_ext d d' :
  (∀ k, k ∈ command_keys → sdk_value k d' = sdk_value k d) → sent d' = sent d.
Proof.
  intros H. unfold sent, command_keys in *. simpl.
  rewrite !H; [done|set_solver..].
Qed.

Lemma sent_nil d :
  sent d = [] ↔ ∀ k, k ∈ command_keys → sdk_value k d = None.
Proof.
  unfold sent, command_keys. simpl. split.
  - intros H k Hk.
    destruct (sdk_value "CruiseControl" d) eqn:E1; [done|].
    destruct (sdk_value "CruiseControlIncrease" d) eqn:E2; [done|].
    destruct (sdk_value "CruiseControlDecrease" d) eqn:E3; [done|].
    apply elem_of_cons in Hk as [->|Hk]; [done|].
    apply elem_of_cons in Hk as [->|Hk]; [done|].
    by apply list_elem_of_singleton in Hk as ->.
  - intros H. rewrite !H; [done|set_solver..].
Qed.

Lemma sent_one d d' k v :
  k ∈ command_keys → sent d = [] → sdk_value k d' = Some v →
  (∀ k', k' ≠ k → sdk_value k' d' = sdk_value k' d) →
  length (sent d') = 1%nat.
Proof.
  intros Hk Hnil Hv Hother.
  assert (Hn := proj1 (sent_nil d) Hnil).
  unfold sent, command_keys in *. simpl.
  apply elem_of_cons in Hk as [->|Hk]; [|apply elem_of_cons in Hk as [->|Hk];
    [|apply list_elem_of_singleton in Hk as ->]].
  all: rewrite Hv; rewrite !Hother by done; rewrite !Hn by set_solver; done.
Qed.

Lemma quiet_refl t s : quiet t s s.
Proof. by intros H. Qed.

Lemma quiet_trans t a b c : quiet t a b → quiet t b c → quiet t a c.
Proof.
  intros H1 H2 Ha. destruct (H1 Ha) as [Hb E1]. destruct (H2 Hb) as [Hc E2].
  split; [done|congruence].
Qed.

Lemma still_awaiting_refl t s : still_awaiting t s s.
Proof. by intros H. Qed.

Lemma still_awaiting_trans t a b c :
  still_awaiting t a b → still_awaiting t b c → still_awaiting t a c.
Proof. intros H1 H2 Ha. by apply H2, H1. Qed.

Section Commands.

Variable cfg : Config.
Variable steering : bool.
Variable current_time : Q.
Variable paste : Symbol → bool → Frame → Res Frame.

#[local] Abbreviation J := one_command.
#[local] Abbreviation R := (quiet current_time).

(** [data["sdk"][k] = v] raises and changes nothing, or assigns in the
    dictionary that is there. *)
Lemma sdk_set_cases k v s :
  (∃ e, sdk_set k v s = (Raise e, s)) ∨
  (∃ sdk, dict_get "sdk" (entries (data s)) = Some (PDict sdk) ∧
          sdk_set k v s
          = (Ok tt, set_data {| entries := dict_set "sdk" (PDict (dict_set k v sdk))
                                             (entries (data s));
                                frame := frame (data s) |} s)).
Proof.
  destruct (dict_get "sdk" (entries (data s))) as [sdk|] eqn:E.
  - destruct sdk; try (left; unfold sdk_set, bind, data_get; rewrite E;
                       by eexists).
    right. eexists. split; [done|]. by apply sdk_set_run.
  - left. unfold sdk_set, bind, data_get. rewrite E. by eexists.
Qed.

Lemma sdk_value_set k v k' s sdk :
  dict_get "sdk" (entries (data s)) = Some (PDict sdk) →
  sdk_value k' {| entries := dict_set "sdk" (PDict (dict_set k v sdk))
                               (entries (data s));
                  frame := frame (data s) |}
  = if String.eqb k k' then Some v else sdk_value k' (data s).
Proof.
  intros E. unfold sdk_value. simpl. rewrite dict_get_set_eq, E.
  destruct (String.eqb k k') eqn:Ek.
  - apply String.eqb_eq in Ek as ->. apply dict_get_set_eq.
  - apply String.eqb_neq in Ek. by apply dict_get_set_ne.
Qed.

Lemma sdk_set_quiet k v : k ∉ command_keys → steps J R (sdk_set k v).
Proof.
  intros Hk s HJ.
  destruct (sdk_set_cases k v s) as [[e ->]|(sdk & E & ->)];
    [split; [done|apply quiet_refl]|].
  assert (Hs : sent {| entries := dict_set "sdk" (PDict (dict_set k v sdk))
                                    (entries (data s));
                       frame := frame (data s) |} = sent (data s)).
  { apply sent_ext. intros k' Hk'. rewrite (sdk_value_set k v k' s sdk E).
    destruct (String.eqb k k') eqn:Ek; [|done].
    apply String.eqb_eq in Ek as ->. done. }
  simpl. split.
  - unfold one_command in *. simpl. by rewrite Hs.
  - intros Ha. split; [exact Ha|exact Hs].
Qed.

Lemma ensure_sdk_quiet : steps J R ensure_sdk.
Proof.
  intros s HJ. unfold ensure_sdk, try_except, bind, data_get, data_set.
  destruct (dict_get "sdk" (entries (data s))) as [sdk|] eqn:E;
    [split; [done|apply quiet_refl]|].
  assert (Hs : sent {| entries := dict_set "sdk" (PDict []) (entries (data s));
                       frame := frame (data s) |} = sent (data s)).
  { apply sent_ext. intros k _. unfold sdk_value. simpl.
    by rewrite dict_get_set_eq, E. }
  simpl. split.
  - unfold one_command in *. simpl. by rewrite Hs.
  - intros Ha. split; [exact Ha|exact Hs].
Qed.

(** The start of each of the three command blocks, where no command is
    awaited. *)
Lemma command_sent k s :
  k ∈ command_keys → B s wait_for_response = false → J s →
  let r := (sdk_set k (PBool true) ;;;
            assignB wait_for_response (λ _, true) ;;;
            assignN wait_for_response_timer (λ _, current_time)) s in
  J (snd r) ∧ R s (snd r) ∧
  ∀ X (rest : C X),
    (sdk_set k (PBool true) ;;;
     assignB wait_for_response (λ _, true) ;;;
     assignN wait_for_response_timer (λ _, current_time) ;;;
     rest) s
    = match fst r with
      | Ok _ => rest (snd r)
      | Raise e => (Raise e, snd r)
      end.
Proof.
  intros Hk Hw HJ r.
  assert (HR : ∀ s', R s s').
  { intros s' [Ha _]. congruence. }
  subst r.
  destruct (sdk_set_cases k (PBool true) s) as [[e He]|(sdk & E & He)].
  - assert (Hr : ∀ X (f : unit → C X),
                   bind (sdk_set k (PBool true)) f s = (Raise e, s)).
    { intros X f. by rewrite bind_unfold, He. }
    rewrite Hr. simpl. split; [done|]. split; [apply HR|].
    intros X rest. by rewrite Hr.
  - assert (Hr : ∀ X (f : unit → C X),
                   bind (sdk_set k (PBool true)) f s
                   = f tt (set_data
                             {| entries := dict_set "sdk"
                                             (PDict (dict_set k (PBool true) sdk))
                                             (entries (data s));
                                frame := frame (data s) |} s)).
    { intros X f. by rewrite bind_unfold, He. }
    rewrite Hr. simpl. split; [|split; [apply HR|]].
    + right. simpl. split; [|done].
      destruct HJ as [Hnil|[_ Hw']]; [|congruence].
      apply (sent_one (data s) _ k (PBool true) Hk Hnil).
      * rewrite (sdk_value_set _ _ _ s sdk E). by rewrite String.eqb_refl.
      * intros k' Hk'. rewrite (sdk_value_set _ _ _ s sdk E).
        apply not_eq_sym, String.eqb_neq in Hk'. by rewrite Hk'.
    + intros X rest. by rewrite Hr.
Qed.

Lemma command_block g k :
  (∀ s, g s = true → B s wait_for_response = false) → k ∈ command_keys →
  steps J R (when g (sdk_set k (PBool true) ;;;
                     assignB wait_for_response (λ _, true) ;;;
                     assignN wait_for_response_timer (λ _, current_time))).
Proof.
  intros Hg Hk s HJ. unfold when. destruct (g s) eqn:E; [|by split].
  destruct (command_sent k s Hk (Hg s E) HJ) as (H1 & H2 & _). by split.
Qed.

Lemma command_block_then g k (rest : C unit) :
  (∀ s, g s = true → B s wait_for_response = false) → k ∈ command_keys →
  steps J R rest →
  steps J R (when g (sdk_set k (PBool true) ;;;
                     assignB wait_for_response (λ _, true) ;;;
                     assignN wait_for_response_timer (λ _, current_time) ;;;
                     rest)).
Proof.
  intros Hg Hk Hrest s HJ. unfold when. destruct (g s) eqn:E; [|by split].
  destruct (command_sent k s Hk (Hg s E) HJ) as (H1 & H2 & ->).
  destruct (fst _); [|by split].
  destruct (Hrest _ H1) as [H3 H4]. split; [done|]. by eapply quiet_trans.
Qed.

Lemma remember_speed_quiet :
  steps J R (assignN last_cruisecontrolspeed (λ s, N s cruisecontrolspeed)).
Proof.
  intros s HJ. split; [exact HJ|].
  intros (Hw & Ht & _). split; [|done]. split; [exact Hw|]. split; [exact Ht|].
  unfold Qneq_bool. simpl. by rewrite Qeq_bool_refl.
Qed.

Lemma overlay_quiet : steps J R (overlay cfg steering paste).
Proof.
  intros s HJ. destruct (overlay_frame_only cfg steering paste s)
    as (HB & HN & HV & HE).
  assert (Hs : sent (data (snd (overlay cfg steering paste s))) = sent (data s)).
  { apply sent_ext. intros k _. unfold sdk_value. by rewrite HE. }
  split.
  - unfold one_command. by rewrite Hs, HB.
  - intros Ha. split; [|exact Hs]. unfold awaiting. by rewrite HB, HN.
Qed.

Ltac guard_waits :=
  let z := fresh "z" in
  let Hz := fresh "Hz" in
  intros z Hz;
  repeat match goal with
         | H : _ && _ = true |- _ => apply andb_true_iff in H as [? ?]
         end;
  match goal with
  | H : negb (B _ wait_for_response) = true |- _ =>
      by apply negb_true_iff in H
  end.

Ltac quiet_side :=
  let HJ := fresh "HJ" in
  let Ha := fresh "Ha" in
  intros ? ? HJ; split;
  [ exact HJ | intros Ha; split; [exact Ha | reflexivity] ].

Ltac in_commands := apply (bool_decide_unpack _); by vm_compute.

Ltac quiet_leaf :=
  first
    [ apply sdk_set_quiet; in_commands
    | apply ensure_sdk_quiet
    | apply overlay_quiet
    | apply remember_speed_quiet
    | apply command_block; [guard_waits | in_commands]
    | apply command_block_then; [guard_waits | in_commands | ]
    | by (intros ? ?; split; [assumption | apply quiet_refl]) ].

(** Lines 261-448. *)
Lemma after_target_quiet :
  steps J R (ensure_sdk ;;;
             control cfg steering current_time ;;;
             hazard cfg current_time ;;;
             lane_stop cfg steering current_time ;;;
             finish cfg steering paste).
Proof.
  unfold control, accelerate, hazard, await_hazard_light, lane_stop, finish,
    remember.
  steps_with quiet_refl quiet_trans quiet_side quiet_leaf.
Qed.

(** The two resets of [wait_for_response], lines 255-259. *)
Lemma reset_when_late :
  steps (λ _, True) (still_awaiting current_time)
    (when (λ s, Qlt_bool (N s wait_for_response_timer) (current_time - 1)
                && B s wait_for_response)
       (assignB wait_for_response (λ _, false))).
Proof.
  intros s _. split; [done|]. intros (Hw & Ht & Hn).
  unfold when. rewrite Ht. by split.
Qed.

Lemma reset_when_changed :
  steps (λ _, True) (still_awaiting current_time)
    (when (λ s, Qneq_bool (N s last_cruisecontrolspeed) (N s cruisecontrolspeed))
       (assignB wait_for_response (λ _, false))).
Proof.
  intros s _. split; [done|]. intros (Hw & Ht & Hn).
  unfold when. rewrite Hn. by split.
Qed.

Lemma choose_target_awaiting :
  steps (λ _, True) (still_awaiting current_time)
    (choose_target cfg current_time).
Proof.
  unfold choose_target.
  steps_with still_awaiting_refl still_awaiting_trans
    ltac:(intros ? ? ?; split; [done | by intros ?])
    ltac:(first [ apply reset_when_late | apply reset_when_changed ]).
Qed.

(** On a frame dictionary that comes in without a cruise-control command,
    [plugin] writes at most one of [CruiseControl],
    [CruiseControlIncrease] and [CruiseControlDecrease], and when it
    writes one it has set [wait_for_response].  While a command is
    awaited, that is while [wait_for_response] is set, the last command is
    not older than a second and the cruise-control speed read in this
    frame is that of the last frame, it writes none. *)
Theorem one_command_per_frame s :
  sent (data s) = [] →
  let s1 := snd (read_telemetry steering s) in
  let r := plugin cfg steering current_time paste s in
  (length (sent (data (snd r))) ≤ 1)%nat ∧
  (sent (data (snd r)) ≠ [] → B (snd r) wait_for_response = true) ∧
  (awaiting current_time s1 → sent (data (snd r)) = []).
Proof.
  intros Hnil s1 r.
  destruct (runs _ _ _ s (read_telemetry_steps steering (λ _, True))
              (read_telemetry_total steering (λ _, True)) Logic.I)
    as ([] & s1' & E1 & _ & (D1 & _)).
  assert (s1 = s1') as Hs1 by (subst s1; by rewrite E1).
  clearbody s1. subst s1'.
  destruct (runs _ _ _ s1 (choose_target_steps cfg current_time (λ _, True))
              (choose_target_total cfg current_time (λ _, True)) Logic.I)
    as ([] & s2 & E2 & _ & (D2 & _)).
  assert (Hc : awaiting current_time s1 → awaiting current_time s2).
  { destruct (choose_target_awaiting s1 Logic.I) as [_ H].
    by rewrite E2 in H. }
  assert (Hd : data s2 = data s) by congruence.
  assert (J2 : one_command s2) by (left; by rewrite Hd).
  destruct (after_target_quiet s2 J2) as [J3 R3].
  assert (Er : r = (ensure_sdk ;;;
                    control cfg steering current_time ;;;
                    hazard cfg current_time ;;;
                    lane_stop cfg steering current_time ;;;
                    finish cfg steering paste) s2).
  { subst r. unfold plugin. fold (finish cfg steering paste).
    by rewrite (bind_run _ _ _ _ _ E1), (bind_run _ _ _ _ _ E2). }
  rewrite <- Er in J3, R3.
  split; [|split].
  - destruct J3 as [->|[-> _]]; simpl; lia.
  - intros Hne. by destruct J3 as [?|[_ ?]].
  - intros Ha. destruct (R3 (Hc Ha)) as [_ ->]. by rewrite Hd.
Qed.

End Commands.

(** The first call at 108 km/h switches the cruise control on; the second
    call, 0.2 s later and with the cruise control still reported off,
    waits. *)
Lemma one_command_per_frame_witness :
  sent (data (snd first_call)) = ["CruiseControl"] ∧
  B (snd first_call) wait_for_response = true ∧
  sent (data (snd second_call)) = [].
Proof.
  split; [vm_compute; reflexivity|].
  pose proof (one_command_per_frame plain_config true 1000 no_paste
                (UpdateSettings_env fast_frame) eq_refl) as (_ & H1 & _).
  pose proof (one_command_per_frame plain_config true 1000.2 no_paste
                (next_frame fast_frame (snd first_call)) eq_refl) as (_ & _ & H2).
  split.
  - apply H1. vm_compute. discriminate.
  - apply H2. clear H1 H2. vm_compute. repeat split; reflexivity.
Defined.

(** *** The symbol *)

(** The three colours of the symbol and its three states. *)
Inductive Colour :=
| off_colour
| on_colour
| emergency_colour.

Inductive Kind :=
| set_kind
| unset_kind
| slowed_kind.

Definition colour (image : Symbol) : Colour :=
  match image with
  | cruisecontrol_off_set | cruisecontrol_off_unset
  | cruisecontrol_off_slowed => off_colour
  | cruisecontrol_on_set | cruisecontrol_on_unset
  | cruisecontrol_on_slowed => on_colour
  | cruisecontrol_emergency_set | cruisecontrol_emergency_unset
  | cruisecontrol_emergency_slowed => emergency_colour
  end.

Definition kind (image : Symbol) : Kind :=
  match image with
  | cruisecontrol_off_set | cruisecontrol_on_set
  | cruisecontrol_emergency_set => set_kind
  | cruisecontrol_off_unset | cruisecontrol_on_unset
  | cruisecontrol_emergency_unset => unset_kind
  | cruisecontrol_off_slowed | cruisecontrol_on_slowed
  | cruisecontrol_emergency_slowed => slowed_kind
  end.

(** The colour that goes with the variables: the emergency colour while
    the user brakes hard, else the colour of the cruise control's state. *)
Definition due_colour (s : Env) : Colour :=
  if B s user_emergency_braking then emergency_colour
  else if Qneq_bool (N s cruisecontrolspeed) 0 then on_colour
  else off_colour.

(** The one case where the emergency block assigns an image of the "on"
    colour and nothing after it assigns another: the cruise control is on
    at the target speed, steering is disabled, no turn is coming and no
    pedal is pressed. *)
Definition stray_case (steering : bool) (s : Env) (turnincoming : Value) : bool :=
  B s user_emergency_braking
  && Qneq_bool (N s cruisecontrolspeed) 0
  && Qeq_bool (N s cruisecontrolspeed) (N s targetspeed)
  && negb steering
  && negb (eqb turnincoming (PBool true))
  && negb (B s user_braking || B s user_accelerating).

(** Emergency braking at 80 km/h with the cruise control on at its target
    and steering disabled. *)
Definition stray_env : Env :=
  setB user_emergency_braking true
    (setN cruisecontrolspeed 80
       (setN targetspeed 80 (UpdateSettings_env blank_frame))).

Section Symbols.

Variable cfg : Config.
Variable steering : bool.
Hypothesis all_loaded : ∀ image, loaded cfg image = true.

(** With every image loaded a symbol is always chosen.  While a pedal is
    pressed it is the "unset" image of the due colour.  Its colour is the
    due colour in every case but one, where during an emergency braking
    the image is [cruisecontrol_on_unset]. *)
Theorem symbol_colour s turnincoming :
  ∃ symbol,
    pick_symbol cfg steering s turnincoming = Ok symbol ∧
    (B s user_braking || B s user_accelerating = true →
     kind symbol = unset_kind ∧ colour symbol = due_colour s) ∧
    (stray_case steering s turnincoming = false →
     colour symbol = due_colour s) ∧
    (stray_case steering s turnincoming = true →
     symbol = cruisecontrol_on_unset).
Proof.
  unfold pick_symbol, pick_off, assign_if, assign, copy, due_colour,
    stray_case, Qneq_bool.
  rewrite !all_loaded. simpl res_bind.
  destruct (B s user_emergency_braking), (Qeq_bool (N s cruisecontrolspeed) 0),
    (Qeq_bool (N s cruisecontrolspeed) (N s targetspeed)), steering,
    (eqb turnincoming (PBool true)), (B s user_braking),
    (B s user_accelerating), (auto_accelerate cfg),
    (trafficlight_accelerate cfg), (B s trafficlight_allow_acceleration);
    simpl; rewrite ?all_loaded; simpl;
    eexists; (split; [reflexivity|]); by repeat split.
Qed.

End Symbols.

(** In the stray case the symbol is the green "on" one. *)
Lemma symbol_colour_witness :
  ∃ symbol,
    pick_symbol example_config false stray_env (PBool false) = Ok symbol ∧
    symbol = cruisecontrol_on_unset ∧
    colour symbol ≠ due_colour stray_env.
Proof.
  destruct (symbol_colour example_config false (λ _, eq_refl) stray_env
              (PBool false)) as (symbol & Hpick & _ & _ & Hstray).
  exists symbol. split; [exact Hpick|].
  assert (Hs : symbol = cruisecontrol_on_unset) by (apply Hstray; reflexivity).
  split; [exact Hs|]. by rewrite Hs.
Defined.

(** *** Braking for a target speed of zero *)

(** The variables of a frame at 72 km/h, steering enabled, when the target
    speed has been set to 0 for a red light. *)
Definition red_light_env : Env :=
  setN speed 72
    (setN targetspeed 0
       (UpdateSettings_env
          {| entries := [("sdk", PDict [])]; frame := None |})).

Section Braking.

Variable cfg : Config.
Variable steering : bool.
Variable current_time : Q.

Lemma when_skip {X} cond (m : C unit) (f : unit → C X) s :
  cond s = false → bind (when cond m) f s = f tt s.
Proof. intros H. unfold bind, when. by rewrite H. Qed.

Lemma when_run {X} cond (m : C unit) (f : unit → C X) s :
  cond s = true → bind (when cond m) f s = bind m f s.
Proof. intros H. unfold bind, when. by rewrite H. Qed.

(** While driving with a target speed of 0, above 1 km/h and with the
    user's foot off the throttle, [control] commands no throttle and the
    configured brake, notes the time of the braking, and does nothing
    else: no cruise-control command, no other variable. *)
Theorem control_brakes_at_zero_target s sdk :
  driving steering s = true →
  dict_get "sdk" (entries (data s)) = Some (PDict sdk) →
  Qeq_bool (N s targetspeed) 0 = true →
  Qlt_bool 1 (N s speed) = true →
  B s user_accelerating = false →
  ∃ s', control cfg steering current_time s = (Ok tt, s') ∧
        sdk_value "acceleration" (data s') = Some (PNum 0) ∧
        sdk_value "brake" (data s') = Some (PNum (brake_strength cfg)) ∧
        (∀ k, k ≠ "acceleration" → k ≠ "brake" →
              sdk_value k (data s') = dict_get k sdk) ∧
        same_entries s s' ∧
        N s' user_emergency_braking_timer = current_time ∧
        (∀ x, x ≠ user_emergency_braking_timer → N s' x = N s x) ∧
        B s' = B s ∧ V s' = V s.
Proof.
  intros Hdr Hsdk Ht Hs Hu.
  assert (Hn : Qneq_bool (N s targetspeed) 0 = false).
  { unfold Qneq_bool. by rewrite Ht. }
  unfold control, ifelse. rewrite Hdr.
  do 4 (rewrite when_skip
          by (cbn beta; rewrite ?Hn, ?andb_false_r; reflexivity)).
  rewrite when_run by (cbn beta; by rewrite Ht, Hs, Hu).
  assert (Hblk : ∃ s5,
            (sdk_set "acceleration" (PNum 0) ;;;
             sdk_set "brake" (PNum (brake_strength cfg)) ;;;
             assignN user_emergency_braking_timer (λ _, current_time)) s
            = (Ok tt, s5) ∧
            dict_get "sdk" (entries (data s5))
              = Some (PDict (dict_set "brake" (PNum (brake_strength cfg))
                               (dict_set "acceleration" (PNum 0) sdk))) ∧
            same_entries s s5 ∧
            N s5 user_emergency_braking_timer = current_time ∧
            (∀ x, x ≠ user_emergency_braking_timer → N s5 x = N s x) ∧
            B s5 = B s ∧ V s5 = V s).
  { set (sA := set_data
                   {| entries := dict_set "sdk"
                                   (PDict (dict_set "acceleration" (PNum 0) sdk))
                                   (entries (data s));
                      frame := frame (data s) |} s).
    assert (HA : dict_get "sdk" (entries (data sA))
                 = Some (PDict (dict_set "acceleration" (PNum 0) sdk)))
      by apply dict_get_set_eq.
    rewrite (bind_run _ _ _ _ _
               (sdk_set_run "acceleration" (PNum 0) s sdk Hsdk)).
    fold sA.
    rewrite (bind_run _ _ _ _ _
               (sdk_set_run "brake" (PNum (brake_strength cfg)) sA _ HA)).
    eexists. split; [reflexivity|]. simpl.
    split; [apply dict_get_set_eq|].
    split; [intros k Hk; simpl; by rewrite !dict_get_set_ne|].
    split; [done|]. split; [|done].
    intros x Hx. by destruct (decide (x = user_emergency_braking_timer)). }
  destruct Hblk as (s5 & Hblk & Hd5 & He5 & Ht5 & Hn5 & Hb5 & Hv5).
  rewrite (bind_run _ _ _ _ _ Hblk). unfold when.
  rewrite (Hn5 targetspeed) by done. rewrite Hn, !andb_false_r. simpl.
  exists s5. split; [done|]. unfold sdk_value. rewrite Hd5.
  split; [by rewrite dict_get_set_ne, dict_get_set_eq|].
  split; [apply dict_get_set_eq|].
  split; [intros k Ha Hb; by rewrite !dict_get_set_ne|].
  done.
Qed.

End Braking.

Lemma control_brakes_at_zero_target_witness :
  ∃ s', control example_config true 1000 red_light_env = (Ok tt, s') ∧
        sdk_value "acceleration" (data s') = Some (PNum 0) ∧
        sdk_value "brake" (data s') = Some (PNum (100 / 100)) ∧
        sdk_value "CruiseControl" (data s') = None.
Proof.
  destruct (control_brakes_at_zero_target example_config true 1000
              red_light_env [] eq_refl eq_refl eq_refl eq_refl eq_refl)
    as (s' & Hrun & Ha & Hb & Hk & _).
  exists s'. split; [exact Hrun|]. split; [exact Ha|]. split; [exact Hb|].
  by rewrite Hk.
Defined.

(** *** The stop for a lost lane *)

(** A stop for a lost lane is under way and the throttle is not pressed. *)
Definition latched (s : Env) : Prop :=
  B s do_lanedetected_stop = true ∧ B s user_accelerating = false.

Definition stays_latched (s s' : Env) : Prop :=
  latched s → latched s' ∧ N s' speed = N s speed.

Definition stop_unchanged (s s' : Env) : Prop :=
  B s' do_lanedetected_stop = B s do_lanedetected_stop.

(** The frame after the lane was lost, with the lane seen again. *)
Definition lane_back : Res Data * Env :=
  plugin example_config true 1004 no_paste
    (next_frame (frame_at true false) lane_lost).

Lemma stays_latched_refl s : stays_latched s s.
Proof. by intros H. Qed.

Lemma stays_latched_trans a b c :
  stays_latched a b → stays_latched b c → stays_latched a c.
Proof.
  intros H1 H2 Ha. destruct (H1 Ha) as [Hb E1]. destruct (H2 Hb) as [Hc E2].
  split; [done|congruence].
Qed.

Lemma stop_unchanged_refl s : stop_unchanged s s.
Proof. done. Qed.

Lemma stop_unchanged_trans a b c :
  stop_unchanged a b → stop_unchanged b c → stop_unchanged a c.
Proof. unfold stop_unchanged. congruence. Qed.

Section Latch.

Variable cfg : Config.
Variable steering : bool.
Variable current_time : Q.
Variable paste : Symbol → bool → Frame → Res Frame.

Lemma sdk_set_variables k v s :
  B (snd (sdk_set k v s)) = B s ∧ N (snd (sdk_set k v s)) = N s ∧
  V (snd (sdk_set k v s)) = V s.
Proof.
  unfold sdk_set, bind, data_get, lift.
  destruct (dict_get "sdk" (entries (data s))) as [sdk|]; [|done].
  by destruct sdk.
Qed.

Lemma ensure_sdk_variables s :
  B (snd (ensure_sdk s)) = B s ∧ N (snd (ensure_sdk s)) = N s ∧
  V (snd (ensure_sdk s)) = V s.
Proof.
  unfold ensure_sdk, try_except, bind, data_get, data_set.
  by destruct (dict_get "sdk" (entries (data s))).
Qed.

Ltac latch_side :=
  let Hl := fresh "Hl" in
  intros ? ? ?; split; [done | intros Hl; split; [exact Hl | reflexivity]].

Ltac latch_leaf :=
  first
    [ by (intros z _; split; [done|];
          destruct (sdk_set_variables _ _ z) as (Hb & Hn & _);
          unfold stays_latched, latched; by rewrite Hb, Hn)
    | by (intros z _; split; [done|];
          destruct (ensure_sdk_variables z) as (Hb & Hn & _);
          unfold stays_latched, latched; by rewrite Hb, Hn)
    | by (intros z _; split; [done|];
          destruct (overlay_frame_only cfg steering paste z) as (Hb & Hn & _);
          unfold stays_latched, latched; by rewrite Hb, Hn)
    | by (intros z _; split; [done|]; intros [Hd Hu]; by repeat split)
    | by (intros z _; split; [done|]; intros [Hd Hu];
          unfold when; simpl; rewrite Hu; by repeat split) ].

(** Lines 261-448. *)
Lemma after_target_latched :
  steps (λ _, True) stays_latched
    (choose_target cfg current_time ;;;
     ensure_sdk ;;;
     control cfg steering current_time ;;;
     hazard cfg current_time ;;;
     lane_stop cfg steering current_time ;;;
     finish cfg steering paste).
Proof.
  unfold choose_target, control, accelerate, hazard, await_hazard_light,
    lane_stop, finish, remember.
  steps_with stays_latched_refl stays_latched_trans latch_side latch_leaf.
Qed.

Lemma control_latched :
  steps (λ _, True) stays_latched (control cfg steering current_time).
Proof.
  unfold control, accelerate.
  steps_with stays_latched_refl stays_latched_trans latch_side latch_leaf.
Qed.

Lemma plugin_stop_unchanged :
  auto_stop cfg = false →
  steps (λ _, True) stop_unchanged (plugin cfg steering current_time paste).
Proof.
  intros Hoff. unfold plugin, read_telemetry, read_body, read_fallback, kmh,
    truckFloat, api, choose_target, control, accelerate, hazard,
    await_hazard_light, remember.
  steps_with stop_unchanged_refl stop_unchanged_trans
    ltac:(intros ? ? ?; split; [done | reflexivity])
    ltac:(first
      [ by (intros z _; split; [done|];
            destruct (sdk_set_variables _ _ z) as (Hb & _);
            unfold stop_unchanged; by rewrite Hb)
      | by (intros z _; split; [done|];
            destruct (ensure_sdk_variables z) as (Hb & _);
            unfold stop_unchanged; by rewrite Hb)
      | by (intros z _; split; [done|];
            destruct (overlay_frame_only cfg steering paste z) as (Hb & _);
            unfold stop_unchanged; by rewrite Hb)
      | by (intros z _; split; [done|]; unfold lane_stop, when; by rewrite Hoff)
      | by (intros z _; split) ]).
Qed.

Lemma lane_stop_brakes s sdk :
  auto_stop cfg = true → latched s → Qlt_bool 1 (N s speed) = true →
  dict_get "sdk" (entries (data s)) = Some (PDict sdk) →
  ∃ s', lane_stop cfg steering current_time s = (Ok tt, s') ∧
        dict_get "sdk" (entries (data s'))
          = Some (PDict (dict_set "brake" (PNum 0.1) sdk)).
Proof.
  intros Hon [Hd Hu] Hs Hsdk.
  unfold lane_stop, when, bind, await_hazard_light, assignB, assignN,
    sdk_set, bind, data_get, data_set, lift.
  rewrite Hon. simpl.
  match goal with
  | |- context [if ?c then (Ok tt, setB do_lanedetected_stop true s) else _] =>
      destruct c
  end; simpl; rewrite ?Hu, ?Hd; simpl; rewrite Hs; simpl; rewrite Hsdk; simpl;
    repeat match goal with
           | |- context [if ?c then _ else _] => destruct c; simpl
           end;
    eexists; (split; [reflexivity|]); simpl; by rewrite ?dict_get_set_eq.
Qed.

(** A stop for a lost lane, once begun, goes on through every later frame
    in which the throttle is not pressed, whether a lane is seen again or
    not: [do_lanedetected_stop] stays set, and with [auto_stop] on and the
    truck above 1 km/h the frame ends with a brake of 0.1, whatever the
    blocks before commanded.  With [auto_stop] off, [plugin] never changes
    [do_lanedetected_stop]. *)
Theorem lane_stop_is_latched s :
  let s1 := snd (read_telemetry steering s) in
  let r := plugin cfg steering current_time paste s in
  (B s do_lanedetected_stop = true → B s1 user_accelerating = false →
   B (snd r) do_lanedetected_stop = true ∧
   (auto_stop cfg = true → sdk_writable (data s) = true →
    Qlt_bool 1 (N s1 speed) = true →
    sdk_value "brake" (data (snd r)) = Some (PNum 0.1))) ∧
  (auto_stop cfg = false →
   B (snd r) do_lanedetected_stop = B s do_lanedetected_stop).
Proof.
  intros s1 r. split.
  - intros Hd Hu.
    set (W := λ d, sdk_writable d = true).
    set (S := λ d, ∃ sdk, dict_get "sdk" (entries d) = Some (PDict sdk)).
    destruct (runs _ _ _ s (read_telemetry_steps steering (λ _, True))
                (read_telemetry_total steering (λ _, True)) Logic.I)
      as ([] & s1' & E1 & _ & R1).
    assert (s1 = s1') as Hs1 by (subst s1; by rewrite E1).
    clearbody s1. subst s1'.
    assert (Hl1 : latched s1).
    { split; [|done]. destruct R1 as (_ & RB & _). rewrite RB; [done|].
      apply (bool_decide_unpack _). by vm_compute. }
    assert (Er : r = (choose_target cfg current_time ;;;
                      ensure_sdk ;;;
                      control cfg steering current_time ;;;
                      hazard cfg current_time ;;;
                      lane_stop cfg steering current_time ;;;
                      finish cfg steering paste) s1).
    { subst r. unfold plugin. fold (finish cfg steering paste).
      by rewrite (bind_run _ _ _ _ _ E1). }
    split.
    + destruct (after_target_latched s1 Logic.I) as [_ H].
      rewrite <- Er in H. by destruct (H Hl1) as [[? _] _].
    + intros Hon Hw Hs.
      assert (W1 : W (data s1)) by (destruct R1 as (-> & _); exact Hw).
      destruct (runs _ _ _ s1 (choose_target_steps cfg current_time W)
                  (choose_target_total cfg current_time W) W1)
        as ([] & s2 & E2 & W2 & R2).
      destruct (ensure_sdk_run s2 W2)
        as (s3 & E3 & P3 & _ & HB3 & HN3 & _).
      destruct (runs _ _ _ s3 (control_steps cfg steering current_time)
                  (control_total cfg steering current_time) P3)
        as ([] & s4 & E4 & P4 & _).
      destruct (runs _ _ _ s4 (hazard_steps cfg current_time S)
                  (hazard_total cfg current_time S) P4)
        as ([] & s5 & E5 & [sdk5 P5] & R5).
      assert (Hl3 : latched s3 ∧ N s3 speed = N s1 speed).
      { destruct R2 as (_ & RB & RN & _). unfold latched.
        rewrite HB3, HN3, !RB, RN;
          [done|apply (bool_decide_unpack _); by vm_compute..]. }
      destruct (control_latched s3 Logic.I) as [_ H4].
      rewrite E4 in H4. simpl in H4.
      destruct (H4 (proj1 Hl3)) as [Hl4 Hn4].
      assert (Hl5 : latched s5 ∧ N s5 speed = N s1 speed).
      { destruct R5 as (_ & RB & RN & _). unfold latched.
        rewrite !RB, RN;
          [|apply (bool_decide_unpack _); by vm_compute..].
        split; [exact Hl4|]. rewrite Hn4. apply Hl3. }
      destruct (lane_stop_brakes s5 sdk5 Hon (proj1 Hl5)) as (s6 & E6 & P6);
        [by rewrite (proj2 Hl5)|exact P5|].
      pose proof (plugin_tail cfg steering paste s6) as [T1 _].
      assert (Er' : r = finish cfg steering paste s6).
      { rewrite Er.
        rewrite (bind_run _ _ _ _ _ E2), (bind_run _ _ _ _ _ E3).
        rewrite (bind_run _ _ _ _ _ E4), (bind_run _ _ _ _ _ E5).
        by rewrite (bind_run _ _ _ _ _ E6). }
      unfold finish in Er'. rewrite <- Er' in T1.
      unfold sdk_value. rewrite T1, P6. apply dict_get_set_eq.
  - intros Hoff. by destruct (plugin_stop_unchanged Hoff s Logic.I) as [_ H].
Qed.

End Latch.

(** The lane is seen again two seconds after it was lost: the stop goes
    on and the frame still brakes. *)
Lemma lane_stop_is_latched_witness :
  B (snd lane_back) do_lanedetected_stop = true ∧
  sdk_value "brake" (data (snd lane_back)) = Some (PNum 0.1).
Proof.
  destruct (lane_stop_is_latched example_config true 1004 no_paste
              (next_frame (frame_at true false) lane_lost)) as [H _].
  assert (H1 : B (next_frame (frame_at true false) lane_lost)
                 do_lanedetected_stop = true) by (vm_compute; reflexivity).
  assert (H2 : B (snd (read_telemetry true
                         (next_frame (frame_at true false) lane_lost)))
                 user_accelerating = false) by (vm_compute; reflexivity).
  destruct (H H1 H2) as [Hd Hb]. clear H.
  split; [exact Hd|]. apply Hb; [reflexivity|reflexivity|].
  clear. vm_compute. reflexivity.
Defined.

End CruiseFacts.

(** ** The cruise-control plugin: failed telemetry and idle frames *)

Module CruiseFrame.

Import Py CruiseControl CruiseFacts.
#[local] Open Scope Q_scope.

(** [data["api"]["pause"]] *)
Definition api_pause (d : Data) : Res Value :=
  match dict_get "api" (entries d) with
  | Some a => getitem a "pause"
  | None => Raise (KeyError "api")
  end.

(** Reading the telemetry fails: the [try] of lines 182-203 raises. *)
Definition read_fails (steering : bool) (s : Env) : Prop :=
  ∃ e, fst (read_body steering s) = Raise e.

(** The game is paused, for the frame: the telemetry is read without a
    failure and [data["api"]["pause"]] is not [False]. *)
Definition game_paused (steering : bool) (s : Env) : Prop :=
  fst (read_body steering s) = Ok tt ∧
  ∃ v, api_pause (data s) = Ok v ∧ eqb v (PBool false) = false.

(** What was read of the telemetry, or set in its place, is still there:
    the values are the same, and a user who counted as not accelerating
    or not emergency-braking still does. *)
Definition reading_kept (s s' : Env) : Prop :=
  N s' speed = N s speed ∧
  N s' speedlimit = N s speedlimit ∧
  N s' last_speed = N s last_speed ∧
  N s' last_speedlimit = N s last_speedlimit ∧
  N s' cruisecontrolspeed = N s cruisecontrolspeed ∧
  N s' user_throttle = N s user_throttle ∧
  B s' user_braking = B s user_braking ∧
  V s' hazard_light = V s hazard_light ∧
  V s' gamepaused = V s gamepaused ∧
  (B s user_accelerating = false → B s' user_accelerating = false) ∧
  (B s user_emergency_braking = false → B s' user_emergency_braking = false).

(** A frame whose telemetry breaks off after the speed: 25 m/s (90 km/h),
    and nothing else. *)
Definition torn_frame : Data :=
  {| entries := [("api", PDict [("truckFloat", PDict [("speed", PNum 25)])])];
     frame := Some (Image 1080 1920 0) |}.

(** A frame of a paused game, at 20 m/s, whose telemetry lacks the
    [truckBool] group. *)
Definition half_frame : Data :=
  {| entries := [("api", PDict [("truckFloat",
                                 PDict [("speed", PNum 20);
                                        ("speedLimit", PNum 25);
                                        ("cruiseControlSpeed", PNum 0);
                                        ("userThrottle", PNum 0);
                                        ("userBrake", PNum 0)]);
                                ("pause", PBool true)])];
     frame := Some (Image 1080 1920 0) |}.

(** The call on the half frame, as the first call after start-up. *)
Definition half_call : Res Data * Env :=
  plugin example_config true 1000 no_paste (UpdateSettings_env half_frame).

(** The call on the torn frame, after the two calls of [lane_lost]. *)
Definition torn_call : Res Data * Env :=
  plugin example_config true 1004 no_paste (next_frame torn_frame lane_lost).

Lemma reading_kept_refl s : reading_kept s s.
Proof. by repeat split. Qed.

Lemma reading_kept_trans a b c :
  reading_kept a b → reading_kept b c → reading_kept a c.
Proof.
  intros (H1 & H2 & H3 & H4 & H5 & H6 & H7 & H8 & H9 & H10 & H11)
         (K1 & K2 & K3 & K4 & K5 & K6 & K7 & K8 & K9 & K10 & K11).
  repeat split; try congruence; auto.
Qed.

Section Frame.

Variable cfg : Config.
Variable steering : bool.
Variable current_time : Q.
Variable paste : Symbol → bool → Frame → Res Frame.

Lemma assign_not_accelerating :
  steps (λ _, True) reading_kept (assignB user_accelerating (λ _, false)).
Proof. intros s _. split; [done|]. by repeat split. Qed.

Lemma assign_not_emergency_braking :
  steps (λ _, True) reading_kept (assignB user_emergency_braking (λ _, false)).
Proof. intros s _. split; [done|]. by repeat split. Qed.

Lemma sdk_set_reading k v : steps (λ _, True) reading_kept (sdk_set k v).
Proof.
  intros z _. split; [done|].
  destruct (sdk_set_variables k v z) as (Hb & Hn & Hv).
  unfold reading_kept. by rewrite Hb, Hn, Hv.
Qed.

Lemma ensure_sdk_reading : steps (λ _, True) reading_kept ensure_sdk.
Proof.
  intros z _. split; [done|].
  destruct (ensure_sdk_variables z) as (Hb & Hn & Hv).
  unfold reading_kept. by rewrite Hb, Hn, Hv.
Qed.

Lemma overlay_reading :
  steps (λ _, True) reading_kept (overlay cfg steering paste).
Proof.
  intros z _. split; [done|].
  destruct (overlay_frame_only cfg steering paste z) as (Hb & Hn & Hv & _).
  unfold reading_kept. by rewrite Hb, Hn, Hv.
Qed.

Lemma return_reading :
  steps (λ _, True) reading_kept (λ s, (Ok (data s), s)).
Proof. intros z _. split; [done|]. apply reading_kept_refl. Qed.

Ltac reading_side :=
  intros ? ? ?; split; [done | by repeat split].

Ltac reading_leaf :=
  first
    [ apply assign_not_accelerating
    | apply assign_not_emergency_braking
    | apply sdk_set_reading
    | apply ensure_sdk_reading
    | apply overlay_reading
    | apply return_reading ].

(** Lines 215-448. *)
Lemma after_read_kept :
  steps (λ _, True) reading_kept
    (choose_target cfg current_time ;;;
     ensure_sdk ;;;
     control cfg steering current_time ;;;
     hazard cfg current_time ;;;
     lane_stop cfg steering current_time ;;;
     finish cfg steering paste).
Proof.
  unfold choose_target, control, accelerate, hazard, await_hazard_light,
    lane_stop, finish, remember.
  steps_with reading_kept_refl reading_kept_trans reading_side reading_leaf.
Qed.

(** A call that returns with the symbols off, or with an image to draw
    them on, has remembered the values of its frame. *)
Lemma returning_call_remembers s d :
  show_symbols cfg = false ∨ ¬ no_image s →
  fst (plugin cfg steering current_time paste s) = Ok d →
  memory_fresh (snd (plugin cfg steering current_time paste s)).
Proof.
  intros Hcase.
  assert (H : post (λ z, frame (data z) = frame (data s)) (λ _, memory_fresh)
                (plugin cfg steering current_time paste)).
  { unfold plugin. fold (finish cfg steering paste).
    repeat (apply (post_bind _ memory_kept);
            [ apply (with_frame (λ f, f = frame (data s)));
              first [ apply read_telemetry_memory | apply choose_target_memory
                    | apply ensure_sdk_memory | apply control_memory
                    | apply hazard_memory | apply lane_stop_memory ]
            | intros _ ]).
    intros z Hz a. apply finish_fresh.
    destruct Hcase as [?|Himg]; [by left|right].
    unfold no_image in *. by rewrite Hz. }
  by apply H.
Qed.

(** A read that goes through leaves [gamepaused] with what
    [data["api"]["pause"]] holds. *)
Lemma read_body_pause s s1 :
  read_body steering s = (Ok tt, s1) →
  ∃ v, api_pause (data s) = Ok v ∧ V s1 gamepaused = v.
Proof.
  intros E.
  assert (H : post (λ z, data z = data s)
                (λ _ z, ∃ v, api_pause (data s) = Ok v ∧ V z gamepaused = v)
                (read_body steering)).
  { unfold read_body.
    do 19 (apply (post_bind _ (only read_bs read_ns read_vs));
           [ unfold kmh, truckFloat, api;
             change (λ z : Env, data z = data s)
               with (λ z : Env, (λ d, d = data s) (data z));
             only_steps
           | intros ? ]).
    intros z Hz u. unfold bind, data_get, lift, assignV, api_pause.
    rewrite Hz. destruct (dict_get "api" (entries (data s))) as [x|]; [|done].
    simpl. destruct (getitem x "pause") as [v|]; [|done].
    simpl. intros _. by exists v. }
  specialize (H s eq_refl tt). rewrite E in H. by apply H.
Qed.

(** C6: provided [data["sdk"]] is missing or a dictionary and the symbol
    overlay does not fail, [plugin] returns the frame dictionary for any
    telemetry whatever, its entries other than ["sdk"] as they were.  When
    reading a field of [data["api"]] fails, the call goes on, to its end,
    with the speed and the speed limit remembered when the read failed,
    with cruise-control speed and throttle 0, with the user neither
    accelerating nor braking nor emergency-braking, the hazard lights off
    and the game not paused: line 265 then tests the steering flag alone,
    and a call that gets to its last lines remembers hazard lights off
    and a cruise-control speed of 0.  A frame without ["api"] is such a
    failure, and then the remembered values are those of the previous
    call. *)
Theorem C6_malformed_telemetry s :
  sdk_writable (data s) = true →
  overlay_safe cfg paste →
  ∃ s', plugin cfg steering current_time paste s = (Ok (data s'), s') ∧
        same_entries s s' ∧
        (dict_get "api" (entries (data s)) = None →
         read_body steering s = (Raise (KeyError "api"), s)) ∧
        (read_fails steering s →
         let s0 := snd (read_body steering s) in
         (N s' speed = N s0 last_speed ∧
          N s' speedlimit = N s0 last_speedlimit ∧
          N s' last_speed = N s0 last_speed ∧
          N s' last_speedlimit = N s0 last_speedlimit ∧
          N s' cruisecontrolspeed = 0 ∧
          N s' user_throttle = 0 ∧
          B s' user_accelerating = false ∧
          B s' user_braking = false ∧
          B s' user_emergency_braking = false ∧
          V s' hazard_light = PBool false ∧
          V s' gamepaused = PBool false) ∧
         driving steering s' = steering ∧
         (show_symbols cfg = false ∨ ¬ no_image s →
          V s' last_hazard_light = PBool false ∧
          N s' last_cruisecontrolspeed = 0)).
Proof.
  intros Hw Hsafe.
  destruct (plugin_runs cfg steering current_time paste s Hw Hsafe)
    as (d & s' & E & -> & R & _).
  exists s'. split; [exact E|]. split; [exact R|]. split.
  { intros Ha. unfold read_body, bind, kmh, truckFloat, api, bind, data_get.
    by rewrite Ha. }
  intros [e He] s0.
  destruct (read_body steering s) as [r s0'] eqn:Hb. simpl in He, s0.
  subst r s0.
  destruct (read_fallback_values s0') as (s1 & E1 & F).
  assert (Er : read_telemetry steering s = (Ok tt, s1)).
  { unfold read_telemetry, try_except. by rewrite Hb. }
  assert (Hk : reading_kept s1 s').
  { pose proof (after_read_kept s1 Logic.I) as [_ Hk].
    replace s' with (snd (plugin cfg steering current_time paste s))
      by (by rewrite E).
    unfold plugin. fold (finish cfg steering paste).
    by rewrite (bind_run _ _ _ _ _ Er). }
  destruct F as (F1 & F2 & F3 & F4 & F5 & F6 & F7 & F8 & F9 & F10 & F11).
  destruct Hk as (K1 & K2 & K3 & K4 & K5 & K6 & K7 & K8 & K9 & K10 & K11).
  assert (Hvals : N s' cruisecontrolspeed = 0 ∧ V s' hazard_light = PBool false
                  ∧ V s' gamepaused = PBool false).
  { by rewrite K5, K8, K9. }
  destruct Hvals as (V1 & V2 & V3).
  split; [|split].
  - repeat split; try congruence; auto.
  - unfold driving. by rewrite V3.
  - intros Hcase.
    assert (Hm : memory_fresh s').
    { replace s' with (snd (plugin cfg steering current_time paste s))
        by (by rewrite E).
      apply (returning_call_remembers s (data s') Hcase). by rewrite E. }
    destruct Hm as (_ & _ & M3 & M4). by rewrite M3, M4.
Qed.

(** C10, amended: whenever steering assistance is disabled, or the
    telemetry of the frame is read without a failure and says that the
    game is paused, [plugin] sets [data["sdk"]["acceleration"]] to 0 and
    leaves every key of [data["sdk"]] other than ["acceleration"] and
    ["brake"] as it was, so it writes no CruiseControl,
    CruiseControlIncrease or CruiseControlDecrease command; it sets
    ["brake"] to 0, unless [auto_stop] is on, a stop for a lost lane was
    begun in an earlier frame, the user is not accelerating and the speed
    is above 1 km/h, in which case ["brake"] ends as 0.1.  The other
    entries of the frame dictionary stay.  (A frame whose telemetry cannot
    be read in full counts as not paused, whatever [data["api"]["pause"]]
    holds.) *)
Theorem C10_idle_frame s :
  sdk_writable (data s) = true →
  steering = false ∨ game_paused steering s →
  let s1 := snd (read_telemetry steering s) in
  let r := plugin cfg steering current_time paste s in
  let stop := auto_stop cfg && B s do_lanedetected_stop
              && negb (B s1 user_accelerating) && Qlt_bool 1 (N s1 speed) in
  sdk_value "acceleration" (data (snd r)) = Some (PNum 0) ∧
  sdk_value "brake" (data (snd r)) = Some (PNum (if stop then 0.1 else 0)) ∧
  (∀ k, k ≠ "acceleration" → k ≠ "brake" →
        sdk_value k (data (snd r)) = sdk_value k (data s)) ∧
  same_entries s (snd r) ∧
  (∀ d, fst r = Ok d → d = data (snd r)).
Proof.
  intros Hw Hidle. apply (idle_frame cfg steering current_time paste s Hw).
  unfold paused_or_disabled, driving. apply negb_true_iff.
  destruct Hidle as [->|[Hok (v & Hv & Hne)]]; [apply andb_false_r|].
  destruct (read_body steering s) as [r s1] eqn:Hb. simpl in Hok. subst r.
  destruct (read_body_pause s s1 Hb) as (v' & Hv' & Hg).
  assert (v' = v) as -> by congruence.
  unfold read_telemetry, try_except. rewrite Hb. simpl. by rewrite Hg, Hne.
Qed.

End Frame.

(** After two frames at 72 km/h under a limit of 90 km/h, a frame whose
    telemetry breaks off after a speed of 90 km/h: the call returns, and
    it has gone on with that speed, the remembered limit and a
    cruise-control speed of 0. *)
Lemma C6_malformed_telemetry_witness :
  read_fails true (next_frame torn_frame lane_lost) ∧
  N lane_lost last_speed == 72 ∧
  ∃ s', torn_call = (Ok (data s'), s') ∧
        N s' speed == 90 ∧ N s' speedlimit == 90 ∧
        N s' cruisecontrolspeed = 0 ∧
        B s' user_braking = false ∧
        V s' gamepaused = PBool false ∧
        N s' last_cruisecontrolspeed = 0.
Proof.
  assert (Hsafe : overlay_safe example_config no_paste).
  { right. split; [done|]. intros symbol indicator f. by exists f. }
  assert (Hf : read_fails true (next_frame torn_frame lane_lost)).
  { eexists. by vm_compute. }
  split; [exact Hf|]. split; [by vm_compute|].
  destruct (C6_malformed_telemetry example_config true 1004 no_paste
              (next_frame torn_frame lane_lost) eq_refl Hsafe)
    as (s' & E & _ & _ & H).
  destruct (H Hf) as ((H1 & H2 & _ & _ & H5 & _ & _ & H8 & _ & _ & H11)
                      & _ & Hm).
  exists s'. split; [exact E|].
  split; [rewrite H1; by vm_compute|]. split; [rewrite H2; by vm_compute|].
  split; [exact H5|]. split; [exact H8|]. split; [exact H11|].
  apply Hm. right. intros Hno. exact Hno.
Defined.

(** C10, as stated, fails.  With [auto_stop] on, a lane seen in one frame
    and lost in the next starts a stop; in the frame after that the game
    is paused, the truck still moves at 72 km/h, and [plugin] leaves
    [data["sdk"]["brake"]] at 0.1, not 0.  And on a frame of a paused game
    whose telemetry lacks a group, the failed read makes the game count
    as not paused: at 72 km/h [plugin] writes the CruiseControl enable
    command. *)
Lemma C10_paused_frame_still_brakes :
  (B lane_lost do_lanedetected_stop = true ∧
   api_pause (frame_at false true) = Ok (PBool true) ∧
   paused_or_disabled true (snd paused_call) = true ∧
   (∃ d, fst paused_call = Ok d ∧
         dict_get "api" (entries d) = Some (telemetry 20 0 0 true) ∧
         sdk_value "acceleration" d = Some (PNum 0) ∧
         sdk_value "brake" d = Some (PNum 0.1)) ∧
   ¬ (0.1 == 0)%Q) ∧
  (api_pause half_frame = Ok (PBool true) ∧
   read_fails true (UpdateSettings_env half_frame) ∧
   ∃ d, fst half_call = Ok d ∧
        sdk_value "CruiseControl" d = Some (PBool true)).
Proof.
  split.
  - split; [by vm_compute|]. split; [by vm_compute|].
    split; [by vm_compute|]. split.
    + eexists. split; [by vm_compute|]. by vm_compute.
    + by vm_compute.
  - split; [by vm_compute|]. split; [eexists; by vm_compute|].
    eexists. split; by vm_compute.
Qed.

(** The same paused frame, through the amended statement. *)
Lemma C10_idle_frame_witness :
  game_paused true (next_frame (frame_at false true) lane_lost) ∧
  sdk_value "acceleration" (data (snd paused_call)) = Some (PNum 0) ∧
  sdk_value "brake" (data (snd paused_call)) = Some (PNum 0.1) ∧
  sdk_value "CruiseControl" (data (snd paused_call)) = None.
Proof.
  assert (Hp : game_paused true (next_frame (frame_at false true) lane_lost)).
  { split; [by vm_compute|]. exists (PBool true). by split. }
  pose proof (C10_idle_frame example_config true 1004 no_paste
                (next_frame (frame_at false true) lane_lost)
                eq_refl (or_intror Hp)) as (Ha & Hb & Hk & _).
  split; [exact Hp|]. split; [exact Ha|]. split; [exact Hb|].
  rewrite Hk by done. reflexivity.
Defined.

End CruiseFrame.

(** ** The helper functions: placement, text, sleeping, the PID controller *)

Module Helpers.

Import Py.

(** *** [Autoplace] *)

Section Placing.

(** The widgets that can be a parent, compared as Python compares them. *)
Context {Parent : Type} `{EqDecision Parent}.

(** The module globals [lastRow], [lastParent] and
    [defaultAutoplaceColumn]. *)
Record Placement := {
  lastRow : Z;
  lastParent : option Parent;
  defaultAutoplaceColumn : Z
}.

(** The globals when the module is loaded. *)
Definition unplaced : Placement :=
  {| lastRow := 0; lastParent := None; defaultAutoplaceColumn := 0 |}.

Definition Autoplace (parent : Parent) (row column : Z) (g : Placement) :
    Z * Placement :=
  if bool_decide (lastParent g ≠ Some parent) then
    (0%Z, {| lastRow := 0; lastParent := Some parent;
             defaultAutoplaceColumn := 0 |})
  else if Z.eqb column (defaultAutoplaceColumn g) then
    ((lastRow g + 1)%Z,
     {| lastRow := lastRow g + 1; lastParent := lastParent g;
        defaultAutoplaceColumn := defaultAutoplaceColumn g |})
  else (lastRow g, g).

(** Widgets placed one after the other on one parent, each with the row
    and the column its caller asked for; the rows they get. *)
Fixpoint place (parent : Parent) (asked : list (Z * Z)) (g : Placement) :
    list Z * Placement :=
  match asked with
  | [] => ([], g)
  | (row, column) :: rest =>
      let (r, g1) := Autoplace parent row column g in
      let (rs, g2) := place parent rest g1 in
      (r :: rs, g2)
  end.

(** How many of the widgets ask for column 0. *)
Definition in_first_column (asked : list (Z * Z)) : Z :=
  Z.of_nat (length (filter (λ rc, snd rc = 0%Z) asked)).

End Placing.

Arguments Placement : clear implicits.

(** *** [ConvertCapitalizationToSpaces] *)

Section Text.

(** [str.isupper] and [str.islower] on one character. *)
Variable isupper : ascii → bool.
Variable islower : ascii → bool.

(** The loop from index [i] on; [first] tells whether [i] is 0. *)
Fixpoint convert_from (first : bool) (text : string) : string :=
  match text with
  | EmptyString => ""
  | String char rest =>
      let nextChar_islower :=
        match rest with
        | String nextChar _ => islower nextChar
        | EmptyString => false
        end in
      if isupper char && nextChar_islower && negb first
      then String " " (String char (convert_from false rest))
      else String char (convert_from false rest)
  end.

Definition ConvertCapitalizationToSpaces (text : string) : string :=
  convert_from true text.

End Text.

(** The text without its spaces. *)
Fixpoint without_spaces (text : string) : string :=
  match text with
  | EmptyString => ""
  | String c rest =>
      if Ascii.eqb c " " then without_spaces rest
      else String c (without_spaces rest)
  end.

(** No character of the text is upper case. *)
Fixpoint no_upper (isupper : ascii → bool) (text : string) : bool :=
  match text with
  | EmptyString => true
  | String c rest => negb (isupper c) && no_upper isupper rest
  end.

(** The two classes on the letters of ASCII. *)
Definition ascii_isupper (c : ascii) : bool :=
  (65 <=? nat_of_ascii c)%nat && (nat_of_ascii c <=? 90)%nat.

Definition ascii_islower (c : ascii) : bool :=
  (97 <=? nat_of_ascii c)%nat && (nat_of_ascii c <=? 122)%nat.

(** *** [AccurateSleep] *)

(** The loop: [now] is the last reading, [clock] the readings that
    [get_now] will return next.  The result is the reading that ended the
    loop and the readings left; there is none while the loop has not
    ended on the readings given. *)
Fixpoint poll (end_ : Q) (now : Q) (clock : list Q) : option (Q * list Q) :=
  if Qlt_bool now end_ then
    match clock with
    | [] => None
    | reading :: clock' => poll end_ reading clock'
    end
  else Some (now, clock).

(** [end = now + duration] is a sum of floats, which is rounded and can
    leave [now] as it is: the addition is a parameter.  The comparisons of
    the loop are exact. *)
Definition AccurateSleep (add : Q → Q → Q) (duration : Q) (clock : list Q) :
    option (Q * list Q) :=
  match clock with
  | [] => None
  | now :: clock' => poll (add now duration) now clock'
  end.

(** An addition that rounds to a grid of 1/8: the sum is the largest
    multiple of 1/8 not above the exact sum. *)
Definition add_eighths (x y : Q) : Q :=
  (inject_Z (Qfloor ((x + y) * 8)) / 8)%Q.

(** *** The class [PID] *)

Module PID.

Record State := {
  Kp : Q;
  Ki : Q;
  Kd : Q;
  plot : bool;
  plot_data : list Q;
  input_data : list Q;
  last_time : Q;
  SetPoint : Q;
  PTerm : Q;
  ITerm : Q;
  DTerm : Q;
  last_error : Q;
  int_error : Q;
  windup_guard : Q;
  output : Q
}.

Definition clear (p : State) : State :=
  {| Kp := Kp p; Ki := Ki p; Kd := Kd p; plot := plot p;
     plot_data := plot_data p; input_data := input_data p;
     last_time := last_time p;
     SetPoint := 0; PTerm := 0; ITerm := 0; DTerm := 0; last_error := 0;
     int_error := 0; windup_guard := 20; output := 0 |}.

(** [PID(P, I, D)], without a plot, at time [now]. *)
Definition __init__ (P I D now : Q) : State :=
  clear {| Kp := P; Ki := I; Kd := D; plot := false;
           plot_data := []; input_data := []; last_time := now;
           SetPoint := 0; PTerm := 0; ITerm := 0; DTerm := 0; last_error := 0;
           int_error := 0; windup_guard := 0; output := 0 |}.

(** [self.ITerm] after the two tests of the windup guard. *)
Definition guarded (windup_guard ITerm : Q) : Q :=
  if Qlt_bool ITerm (- windup_guard) then (- windup_guard)%Q
  else if Qlt_bool windup_guard ITerm then windup_guard
  else ITerm.

(** [data.append(x)], then [data.pop(0)] when there are more than 200. *)
Definition append_capped (data : list Q) (x : Q) : list Q :=
  let data := (data ++ [x])%list in
  if (200 <? length data)%nat then tail data else data.

(** The lines that [update] and [autoTune] share, from [delta_time] to
    [self.output]. *)
Definition step (feedback_value current_time : Q) (p : State) : State :=
  let delta_time := (current_time - last_time p)%Q in
  let delta_error := (feedback_value - SetPoint p)%Q in
  let PTerm' := (Kp p * delta_error)%Q in
  let ITerm' := guarded (windup_guard p) (ITerm p + delta_error * delta_time) in
  let DTerm' := if Qlt_bool 0 delta_time then (delta_error / delta_time)%Q
                else 0%Q in
  {| Kp := Kp p; Ki := Ki p; Kd := Kd p; plot := plot p;
     plot_data := plot_data p; input_data := input_data p;
     last_time := current_time;
     SetPoint := SetPoint p; PTerm := PTerm'; ITerm := ITerm'; DTerm := DTerm';
     last_error := feedback_value; int_error := int_error p;
     windup_guard := windup_guard p;
     output := (PTerm' + Ki p * ITerm' + Kd p * DTerm')%Q |}.

(** [update]; [now] is what [time.time()] gives when no time is passed.
    The drawing of the plot is left out. *)
Definition update (feedback_value : Q) (current_time : option Q) (now : Q)
    (p : State) : State :=
  let p1 := step feedback_value (default now current_time) p in
  if plot p1 then
    {| Kp := Kp p1; Ki := Ki p1; Kd := Kd p1; plot := plot p1;
       plot_data := append_capped (plot_data p1) (output p1);
       input_data := append_capped (input_data p1) feedback_value;
       last_time := last_time p1;
       SetPoint := SetPoint p1; PTerm := PTerm p1; ITerm := ITerm p1;
       DTerm := DTerm p1; last_error := last_error p1;
       int_error := int_error p1; windup_guard := windup_guard p1;
       output := output p1 |}
  else p1.


End PID.

(** *** Facts on [Autoplace] *)

Section PlacingFacts.

Context {Parent : Type} `{EqDecision Parent}.
Implicit Types (g : Placement Parent) (asked : list (Z * Z)).

Lemma in_first_column_cons rc asked :
  in_first_column (rc :: asked)
  = ((if Z.eqb (snd rc) 0 then 1 else 0) + in_first_column asked)%Z.
Proof.
  unfold in_first_column. rewrite filter_cons.
  destruct (Z.eqb_spec (snd rc) 0) as [E|E].
  - rewrite decide_True by done. simpl length. lia.
  - rewrite decide_False by done. lia.
Qed.

Lemma place_on_same_parent parent asked :
  ∀ g i rc,
    lastParent g = Some parent → defaultAutoplaceColumn g = 0%Z →
    asked !! i = Some rc →
    fst (place parent asked g) !! i
    = Some (lastRow g + in_first_column (take (S i) asked))%Z.
Proof.
  induction asked as [|[row column] rest IH]; intros g i rc Hp Hc Hi; [done|].
  simpl place. unfold Autoplace at 1.
  rewrite bool_decide_eq_false_2 by (by intros []).
  rewrite Hc.
  set (g1 := if Z.eqb column 0
             then {| lastRow := lastRow g + 1; lastParent := lastParent g;
                     defaultAutoplaceColumn := 0 |}
             else g).
  assert (H1 : lastParent g1 = Some parent) by (subst g1; by destruct (Z.eqb _ _)).
  assert (H2 : defaultAutoplaceColumn g1 = 0%Z)
    by (subst g1; by destruct (Z.eqb _ _)).
  assert (H3 : lastRow g1 = (lastRow g + if Z.eqb column 0 then 1 else 0)%Z).
  { subst g1. destruct (Z.eqb _ _); simpl; lia. }
  assert (Hrun : (if Z.eqb column 0
                  then ((lastRow g + 1)%Z,
                        {| lastRow := lastRow g + 1; lastParent := lastParent g;
                           defaultAutoplaceColumn := 0 |})
                  else (lastRow g, g)) = (lastRow g1, g1)).
  { subst g1. by destruct (Z.eqb _ _). }
  rewrite Hrun. destruct (place parent rest g1) as [rs g2] eqn:E.
  destruct i as [|i]; simpl.
  - rewrite H3. f_equal.
    change (take 1 ((row, column) :: rest)) with ((row, column) :: take 0 rest).
    rewrite in_first_column_cons, take_0. simpl snd.
    change (in_first_column []) with 0%Z. lia.
  - specialize (IH g1 i rc H1 H2 Hi). rewrite E in IH. simpl in IH.
    rewrite IH, H3. f_equal.
    change (take (S (S i)) ((row, column) :: rest))
      with ((row, column) :: take (S i) rest).
    rewrite in_first_column_cons. simpl snd. lia.
Qed.

Lemma place_keeps_parent parent asked :
  ∀ g, lastParent g = Some parent →
       lastParent (snd (place parent asked g)) = Some parent.
Proof.
  induction asked as [|[row column] rest IH]; intros g Hp; [done|].
  simpl place. unfold Autoplace at 1.
  rewrite bool_decide_eq_false_2 by (by intros []).
  destruct (Z.eqb column (defaultAutoplaceColumn g)).
  - specialize (IH {| lastRow := lastRow g + 1; lastParent := lastParent g;
                      defaultAutoplaceColumn := defaultAutoplaceColumn g |} Hp).
    by destruct (place parent rest _).
  - specialize (IH g Hp). by destruct (place parent rest g).
Qed.

(** Widgets placed in a row on a parent that was not the last one: the
    first gets row 0 whatever it asks for, and each of the others gets as
    its row the number of widgets after the first, itself included, that
    ask for column 0; the rows asked for play no part.  A widget placed
    on another parent in between starts the count again. *)
Theorem Autoplace_counts_first_column parent first asked g :
  lastParent g ≠ Some parent →
  let rows := fst (place parent (first :: asked) g) in
  rows !! 0%nat = Some 0%Z ∧
  (∀ i rc, asked !! i = Some rc →
     rows !! S i = Some (in_first_column (take (S i) asked))) ∧
  (∀ other row column row' column',
     other ≠ parent →
     fst (Autoplace parent row' column'
            (snd (Autoplace other row column (snd (place parent (first :: asked) g)))))
     = 0%Z).
Proof.
  intros Hp rows. subst rows. destruct first as [row0 column0].
  set (g1 := {| lastRow := 0; lastParent := Some parent;
                defaultAutoplaceColumn := 0 |}).
  destruct (place parent asked g1) as [rs g2] eqn:E.
  assert (Ha : Autoplace parent row0 column0 g = (0%Z, g1)).
  { unfold Autoplace. by rewrite bool_decide_eq_true_2. }
  assert (Hpl : place parent ((row0, column0) :: asked) g = (0%Z :: rs, g2)).
  { simpl. by rewrite Ha, E. }
  rewrite Hpl. simpl.
  split; [done|]. split.
  - intros i rc Hi.
    pose proof (place_on_same_parent parent asked g1 i rc eq_refl eq_refl Hi) as H.
    rewrite E in H. simpl in H. by rewrite H.
  - intros other row column row' column' Hne.
    pose proof (place_keeps_parent parent asked g1 eq_refl) as Hl.
    rewrite E in Hl. simpl in Hl.
    unfold Autoplace. rewrite Hl.
    rewrite (bool_decide_eq_true_2 (Some parent ≠ Some other))
      by (by intros [= ->]).
    simpl. rewrite bool_decide_eq_true_2; [done|]. by intros [= ->].
Qed.

End PlacingFacts.

(** A grid of three widgets in column 0 with one beside the second. *)
Lemma Autoplace_counts_first_column_witness :
  fst (place 7%nat [(5, 3); (5, 0); (9, 1); (0, 0)]%Z unplaced)
    !! 3%nat = Some 2%Z.
Proof.
  destruct (Autoplace_counts_first_column 7%nat (5, 3)%Z
              [(5, 0); (9, 1); (0, 0)]%Z unplaced ltac:(discriminate))
    as (_ & H & _).
  apply (H 2%nat (0, 0)%Z eq_refl).
Defined.

(** *** Facts on [ConvertCapitalizationToSpaces] *)

Section TextFacts.

Variable isupper : ascii → bool.
Variable islower : ascii → bool.

Lemma convert_from_spaces first text :
  without_spaces (convert_from isupper islower first text)
  = without_spaces text.
Proof.
  revert first. induction text as [|c rest IH]; intros first; [done|].
  simpl.
  destruct (isupper c && _ && negb first); simpl;
    destruct (Ascii.eqb c " "); by rewrite IH.
Qed.

Lemma convert_from_length first text :
  (String.length text ≤ String.length (convert_from isupper islower first text)
   ≤ 2 * String.length text)%nat.
Proof.
  revert first. induction text as [|c rest IH]; intros first; [simpl; lia|].
  simpl. specialize (IH false).
  destruct (isupper c && _ && negb first); simpl; lia.
Qed.

Lemma convert_from_no_upper first text :
  no_upper isupper text = true → convert_from isupper islower first text = text.
Proof.
  revert first. induction text as [|c rest IH]; intros first Hup; [done|].
  simpl in *. apply andb_true_iff in Hup as [Hc Hrest].
  apply negb_true_iff in Hc. rewrite Hc. simpl. by rewrite IH.
Qed.

(** [ConvertCapitalizationToSpaces] only adds spaces: without its spaces
    the result is the text without its spaces.  It never adds one in front
    of the first character, adds at most one per character after it, and
    leaves a text without upper-case characters as it is. *)
Theorem convert_only_adds_spaces text :
  without_spaces (ConvertCapitalizationToSpaces isupper islower text)
    = without_spaces text ∧
  (∀ c rest, text = String c rest →
     ∃ rest', ConvertCapitalizationToSpaces isupper islower text = String c rest') ∧
  (String.length text
     ≤ String.length (ConvertCapitalizationToSpaces isupper islower text)
     ≤ 2 * String.length text - 1)%nat ∧
  (no_upper isupper text = true →
   ConvertCapitalizationToSpaces isupper islower text = text).
Proof.
  unfold ConvertCapitalizationToSpaces. split; [apply convert_from_spaces|].
  split; [|split].
  - intros c rest ->. simpl. rewrite andb_false_r. by eexists.
  - destruct text as [|c rest]; [simpl; lia|]. simpl. rewrite andb_false_r.
    pose proof (convert_from_length false rest). simpl. lia.
  - apply convert_from_no_upper.
Qed.

End TextFacts.

Lemma convert_only_adds_spaces_witness :
  ConvertCapitalizationToSpaces ascii_isupper ascii_islower "LaneDetection"
    = "Lane Detection" ∧
  without_spaces
    (ConvertCapitalizationToSpaces ascii_isupper ascii_islower
       "Traffic LightDetection")
  = "TrafficLightDetection".
Proof.
  split; [reflexivity|].
  apply (proj1 (convert_only_adds_spaces ascii_isupper ascii_islower
                  "Traffic LightDetection")).
Defined.

(** *** Facts on [AccurateSleep] *)

Lemma Qlt_bool_not (x y : Q) : Qlt_bool x y = false ↔ (y <= x)%Q.
Proof.
  rewrite <- not_true_iff_false, Qlt_bool_iff.
  split; [apply Qnot_lt_le | apply Qle_not_lt].
Qed.

Lemma poll_ends end_ clock :
  ∀ now t rest,
    poll end_ now clock = Some (t, rest) →
    (end_ <= t)%Q ∧
    ∃ polled, now :: clock = (polled ++ t :: rest)%list ∧
              ∀ x, x ∈ polled → (x < end_)%Q.
Proof.
  induction clock as [|reading clock IH]; intros now t rest; simpl.
  - destruct (Qlt_bool now end_) eqn:E; [done|]. intros [= <- <-].
    apply Qlt_bool_not in E. split; [done|]. exists []. split; [done|].
    by intros x ?%elem_of_nil.
  - destruct (Qlt_bool now end_) eqn:E.
    + intros H. destruct (IH _ _ _ H) as (Hle & polled & Heq & Hlt).
      split; [done|]. exists (now :: polled). split.
      * simpl. by rewrite Heq.
      * intros x [->|Hx]%elem_of_cons; [by apply Qlt_bool_iff|by apply Hlt].
    + intros [= <- <-]. apply Qlt_bool_not in E. split; [done|].
      exists []. split; [done|]. by intros x ?%elem_of_nil.
Qed.

Lemma poll_returns end_ clock :
  ∀ now, (∃ x, x ∈ now :: clock ∧ (end_ <= x)%Q) →
         ∃ t rest, poll end_ now clock = Some (t, rest).
Proof.
  induction clock as [|reading clock IH]; intros now (x & Hx & Hle); simpl.
  - apply list_elem_of_singleton in Hx as ->.
    apply Qlt_bool_not in Hle. rewrite Hle. by eexists _, _.
  - destruct (Qlt_bool now end_) eqn:E; [|by eexists _, _].
    apply IH. apply elem_of_cons in Hx as [->|Hx].
    + apply Qlt_bool_iff in E. exfalso. lra.
    + by exists x.
Qed.

(** [AccurateSleep] returns at the first reading of the clock that is not
    before the end time, which is the sum of the first reading and the
    duration as the addition of floats gives it; it has taken every
    reading before that one and none after it; it returns as soon as the
    clock gives such a reading; and when the end time is not after the
    first reading, as for a duration that is not positive or is too small
    to change the sum, it returns after the one reading. *)
Theorem AccurateSleep_waits (add : Q → Q → Q) duration start clock :
  let end_ := add start duration in
  (∀ t rest,
     AccurateSleep add duration (start :: clock) = Some (t, rest) →
     (end_ <= t)%Q ∧
     ∃ polled, start :: clock = (polled ++ t :: rest)%list ∧
               ∀ x, x ∈ polled → (x < end_)%Q) ∧
  ((∃ x, x ∈ start :: clock ∧ (end_ <= x)%Q) →
   ∃ t rest, AccurateSleep add duration (start :: clock) = Some (t, rest)) ∧
  ((end_ <= start)%Q →
   AccurateSleep add duration (start :: clock) = Some (start, clock)).
Proof.
  intros end_. unfold AccurateSleep. fold end_. split; [|split].
  - intros t rest. apply poll_ends.
  - apply poll_returns.
  - intros Hd. assert (E : Qlt_bool start end_ = false).
    { by apply Qlt_bool_not. }
    destruct clock; simpl; by rewrite E.
Qed.

(** A sleep of 0.5 s on a clock read at 10.0, 10.2, 10.4, 10.6, 10.8, with
    an exact sum; and a sleep of 0.1 s with sums rounded down to eighths,
    which ends at once. *)
Lemma AccurateSleep_waits_witness :
  AccurateSleep Qplus 0.5 [10; 10.2; 10.4; 10.6; 10.8]%Q
    = Some (10.6, [10.8])%Q ∧
  (10 + 0.5 <= 10.6)%Q ∧
  AccurateSleep add_eighths 0.1 [10; 10.2; 10.4]%Q = Some (10, [10.2; 10.4])%Q.
Proof.
  split; [reflexivity|]. split.
  - apply (proj1 (AccurateSleep_waits Qplus 0.5 10 [10.2; 10.4; 10.6; 10.8]%Q)
             10.6%Q [10.8%Q] eq_refl).
  - apply (proj2 (proj2 (AccurateSleep_waits add_eighths 0.1 10
                           [10.2; 10.4]%Q))).
    by vm_compute.
Defined.

(** *** Facts on the PID controller *)

(** A controller with a set point of 50 that has already integrated up
    to its guard. *)
Definition saturated : PID.State :=
  {| PID.Kp := 0.2%Q; PID.Ki := 0.1%Q; PID.Kd := 0%Q; PID.plot := true;
     PID.plot_data := []; PID.input_data := []; PID.last_time := 100%Q;
     PID.SetPoint := 50%Q; PID.PTerm := 0%Q; PID.ITerm := 20%Q;
     PID.DTerm := 0%Q; PID.last_error := 0%Q; PID.int_error := 0%Q;
     PID.windup_guard := 20%Q; PID.output := 0%Q |}.


Lemma append_capped_length data x :
  (length data ≤ 200 → length (PID.append_capped data x) ≤ 200)%nat.
Proof.
  intros H. unfold PID.append_capped.
  destruct (Nat.ltb_spec 200 (length (data ++ [x]))) as [E|E]; [|done].
  rewrite length_app in E. simpl in E.
  destruct data as [|y data]; simpl in *; [lia|].
  rewrite length_app. simpl. lia.
Qed.

Lemma append_capped_last data x : last (PID.append_capped data x) = Some x.
Proof.
  unfold PID.append_capped.
  destruct (Nat.ltb_spec 200 (length (data ++ [x]))) as [E|E];
    [|apply last_snoc].
  destruct data as [|y data]; [simpl in E; lia|]. simpl. apply last_snoc.
Qed.

(** [update] is [step], and the two plot lists when there is a plot. *)
Lemma update_fields feedback_value current_time now p :
  let p1 := PID.step feedback_value (default now current_time) p in
  let p' := PID.update feedback_value current_time now p in
  PID.ITerm p' = PID.ITerm p1 ∧ PID.DTerm p' = PID.DTerm p1 ∧
  PID.PTerm p' = PID.PTerm p1 ∧ PID.output p' = PID.output p1 ∧
  PID.windup_guard p' = PID.windup_guard p ∧ PID.Kp p' = PID.Kp p ∧
  PID.Ki p' = PID.Ki p ∧ PID.Kd p' = PID.Kd p ∧
  PID.SetPoint p' = PID.SetPoint p ∧
  (PID.plot p = true →
   PID.plot_data p' = PID.append_capped (PID.plot_data p) (PID.output p1) ∧
   PID.input_data p' = PID.append_capped (PID.input_data p) feedback_value).
Proof.
  intros p1 p'. subst p' p1. unfold PID.update.
  change (PID.plot (PID.step feedback_value (default now current_time) p))
    with (PID.plot p).
  destruct (PID.plot p); by repeat split.
Qed.

(** [update] leaves the gains, the set point and the windup guard as they
    were; a time step that is not positive gives a derivative term of 0
    and divides nothing; and with a plot the two plot lists never get
    longer than 200, the newest value being their last. *)
Theorem update_keeps_gains_and_caps_plots p feedback_value current_time now :
  let p' := PID.update feedback_value current_time now p in
  (PID.windup_guard p' = PID.windup_guard p ∧ PID.Kp p' = PID.Kp p ∧
   PID.Ki p' = PID.Ki p ∧ PID.Kd p' = PID.Kd p ∧
   PID.SetPoint p' = PID.SetPoint p ∧
   PID.last_time p' = default now current_time ∧
   PID.last_error p' = feedback_value) ∧
  ((default now current_time <= PID.last_time p)%Q → PID.DTerm p' = 0%Q) ∧
  (PID.plot p = true → length (PID.plot_data p) ≤ 200 →
   length (PID.plot_data p') ≤ 200 ∧
   last (PID.plot_data p') = Some (PID.output p'))%nat ∧
  (PID.plot p = true → length (PID.input_data p) ≤ 200 →
   length (PID.input_data p') ≤ 200 ∧
   last (PID.input_data p') = Some feedback_value)%nat ∧
  (PID.plot p = false →
   PID.plot_data p' = PID.plot_data p ∧ PID.input_data p' = PID.input_data p).
Proof.
  intros p'.
  destruct (update_fields feedback_value current_time now p)
    as (EI & ED & EP & EO & Ew & Ekp & Eki & Ekd & Es & Eplot).
  fold p' in EI, ED, EP, EO, Ew, Ekp, Eki, Ekd, Es, Eplot.
  set (D' := if Qlt_bool 0 (default now current_time - PID.last_time p)
             then ((feedback_value - PID.SetPoint p)
                   / (default now current_time - PID.last_time p))%Q
             else 0%Q).
  change (PID.DTerm p' = D') in ED.
  assert (Et : PID.last_time p' = default now current_time ∧
               PID.last_error p' = feedback_value).
  { subst p'. unfold PID.update.
    change (PID.plot (PID.step feedback_value (default now current_time) p))
      with (PID.plot p).
    by destruct (PID.plot p). }
  destruct Et as [Et Ee].
  split; [done|]. split; [|split; [|split]].
  - intros H. rewrite ED. subst D'.
    replace (Qlt_bool 0 (default now current_time - PID.last_time p))
      with false; [done|].
    symmetry. apply Qlt_bool_not. lra.
  - intros Hplot Hlen. destruct (Eplot Hplot) as [-> _].
    split; [by apply append_capped_length|].
    rewrite append_capped_last. by rewrite EO.
  - intros Hplot Hlen. destruct (Eplot Hplot) as [_ ->].
    split; [by apply append_capped_length|apply append_capped_last].
  - intros Hplot. subst p'. unfold PID.update.
    change (PID.plot (PID.step feedback_value (default now current_time) p))
      with (PID.plot p).
    by rewrite Hplot.
Qed.


(** The saturated controller, fed 80 with its clock set back by a second,
    has a derivative term of 0, and the output is the last point of its
    plot. *)
Lemma update_keeps_gains_and_caps_plots_witness :
  PID.DTerm (PID.update 80%Q (Some 99%Q) 0%Q saturated) = 0%Q ∧
  last (PID.plot_data (PID.update 80%Q (Some 99%Q) 0%Q saturated))
    = Some (PID.output (PID.update 80%Q (Some 99%Q) 0%Q saturated)).
Proof.
  destruct (update_keeps_gains_and_caps_plots saturated 80%Q (Some 99%Q) 0%Q)
    as (_ & H1 & H2 & _).
  split; [apply H1; discriminate|].
  apply H2; [reflexivity|simpl; lia].
Defined.


End Helpers.
